(** * MacroPad Mini firmware (3keys_1knob.c): model and verified properties

    A shallow embedding of the firmware's data and control code.  The
    firmware keeps its state in [__idata] globals and in the locals of
    [main]; here the globals are a record [Globals] threaded through every
    function, and the locals of [main] are a record [Locals] threaded
    through the body of the polling loop.  The external collaborators
    (USB HID keyboard, NeoPixel strip, data flash, pins) appear as a log of
    emitted reports, as nothing, as a function from addresses to bytes and
    as a record of sampled pin levels. *)

From Stdlib Require Import ZArith List Bool Lia.
Import ListNotations.
Local Open Scope Z_scope.

(* ================================================================== *)
(** ** Machine integers *)

(** [uint8_t] and [int8_t] values are integers; the wrap-around of a store
    into a narrow variable is written out. *)
Definition u8 (z : Z) : Z := z mod 256.
Definition s8 (z : Z) : Z := (z + 128) mod 256 - 128.

Definition b2z (b : bool) : Z := if b then 1 else 0.

(* ================================================================== *)
(** ** Data model *)

Inductive Event : Type :=
| NONE | KEY1 | KEY2 | KEY3 | ENC_SW | ENC_CW | ENC_CCW
| KEY12 | KEY23 | KEY13 | ENC_SW_CW | ENC_SW_CCW.

Record RGB : Type := { r : Z; g : Z; b : Z }.

(** The [char] fields hold the byte read from flash; they are kept as the
    bit pattern 0..255 (the code only compares them with 0, converts them
    to [uint8_t], or hands them to the keyboard). *)
Record Chars : Type := {
  mod1 : Z;  char1 : Z;
  mod2 : Z;  char2 : Z;
  mod3 : Z;  char3 : Z;
  modSW : Z; charSW : Z;
  modCW : Z; charCW : Z;
  modCCW : Z; charCCW : Z;
  mod12 : Z; char12 : Z;
  mod23 : Z; char23 : Z;
  mod13 : Z; char13 : Z;
  swcharCW : Z;
  swcharCCW : Z;
  swmodCW : Z;
  swmodCCW : Z
}.

(** The four-element arrays [neo], [neobg], [neofg], [neofade], [chars].
    Every access the firmware makes has an index in 0..3 (the layer index is
    shown below to stay in that range); an index outside would be out of
    bounds in C, and the answer of the model there (slot 3, or no write) is
    never relied upon. *)
Record Arr4 (A : Type) : Type := { a0 : A; a1 : A; a2 : A; a3 : A }.
Arguments a0 {A}.
Arguments a1 {A}.
Arguments a2 {A}.
Arguments a3 {A}.

Definition get4 {A : Type} (a : Arr4 A) (i : Z) : A :=
  match i with
  | 0 => a0 a
  | 1 => a1 a
  | 2 => a2 a
  | _ => a3 a
  end.

Definition set4 {A : Type} (a : Arr4 A) (i : Z) (v : A) : Arr4 A :=
  match i with
  | 0 => {| a0 := v; a1 := a1 a; a2 := a2 a; a3 := a3 a |}
  | 1 => {| a0 := a0 a; a1 := v; a2 := a2 a; a3 := a3 a |}
  | 2 => {| a0 := a0 a; a1 := a1 a; a2 := v; a3 := a3 a |}
  | 3 => {| a0 := a0 a; a1 := a1 a; a2 := a2 a; a3 := v |}
  | _ => a
  end.

Definition fill4 {A : Type} (v : A) : Arr4 A :=
  {| a0 := v; a1 := v; a2 := v; a3 := v |}.

(** Modifier keys of the HID keyboard (usb_conkbd.h), by name. *)
Inductive ModKey : Type :=
| KBD_KEY_LEFT_CTRL | KBD_KEY_LEFT_SHIFT | KBD_KEY_LEFT_ALT | KBD_KEY_LEFT_GUI
| KBD_KEY_RIGHT_CTRL | KBD_KEY_RIGHT_SHIFT | KBD_KEY_RIGHT_ALT | KBD_KEY_RIGHT_GUI.

(** What the firmware asks of the keyboard collaborator. *)
Inductive Hid : Type :=
| Press (k : ModKey)
| Release (k : ModKey)
| Tap (c : Z)
| Consumer (c : Z).

(** The globals of the firmware, the log [hid] of the reports emitted so far
    (oldest first), and the log [dispatched] of the Events handed to
    [parse_type] so far (oldest first).  The second log is instrumentation:
    the firmware has no such variable, it records the calls. *)
Record Globals : Type := {
  neo : Arr4 RGB;
  neobg : Arr4 RGB;
  neofg : Arr4 RGB;
  neofade : Arr4 RGB;
  layer : Z;
  max_layer : Z;
  chars : Arr4 Chars;
  hid : list Hid;
  dispatched : list Event
}.

Definition with_neo (v : Arr4 RGB) (st : Globals) : Globals :=
  {| neo := v; neobg := neobg st; neofg := neofg st; neofade := neofade st;
     layer := layer st; max_layer := max_layer st; chars := chars st;
     hid := hid st; dispatched := dispatched st |}.

Definition with_neobg (v : Arr4 RGB) (st : Globals) : Globals :=
  {| neo := neo st; neobg := v; neofg := neofg st; neofade := neofade st;
     layer := layer st; max_layer := max_layer st; chars := chars st;
     hid := hid st; dispatched := dispatched st |}.

Definition with_neofg (v : Arr4 RGB) (st : Globals) : Globals :=
  {| neo := neo st; neobg := neobg st; neofg := v; neofade := neofade st;
     layer := layer st; max_layer := max_layer st; chars := chars st;
     hid := hid st; dispatched := dispatched st |}.

Definition with_neofade (v : Arr4 RGB) (st : Globals) : Globals :=
  {| neo := neo st; neobg := neobg st; neofg := neofg st; neofade := v;
     layer := layer st; max_layer := max_layer st; chars := chars st;
     hid := hid st; dispatched := dispatched st |}.

Definition with_layer (v : Z) (st : Globals) : Globals :=
  {| neo := neo st; neobg := neobg st; neofg := neofg st; neofade := neofade st;
     layer := v; max_layer := max_layer st; chars := chars st;
     hid := hid st; dispatched := dispatched st |}.

Definition with_max_layer (v : Z) (st : Globals) : Globals :=
  {| neo := neo st; neobg := neobg st; neofg := neofg st; neofade := neofade st;
     layer := layer st; max_layer := v; chars := chars st;
     hid := hid st; dispatched := dispatched st |}.

Definition with_chars (v : Arr4 Chars) (st : Globals) : Globals :=
  {| neo := neo st; neobg := neobg st; neofg := neofg st; neofade := neofade st;
     layer := layer st; max_layer := max_layer st; chars := v;
     hid := hid st; dispatched := dispatched st |}.

Definition with_hid (v : list Hid) (st : Globals) : Globals :=
  {| neo := neo st; neobg := neobg st; neofg := neofg st; neofade := neofade st;
     layer := layer st; max_layer := max_layer st; chars := chars st;
     hid := v; dispatched := dispatched st |}.

Definition with_dispatched (v : list Event) (st : Globals) : Globals :=
  {| neo := neo st; neobg := neobg st; neofg := neofg st; neofade := neofade st;
     layer := layer st; max_layer := max_layer st; chars := chars st;
     hid := hid st; dispatched := v |}.

(** The keyboard collaborator: each call appends one report to the log. *)
Definition emit (a : Hid) (st : Globals) : Globals := with_hid (hid st ++ [a]) st.

Definition KBD_press (k : ModKey) : Globals -> Globals := emit (Press k).
Definition KBD_release (k : ModKey) : Globals -> Globals := emit (Release k).
Definition KBD_type (c : Z) : Globals -> Globals := emit (Tap c).
Definition CON_type (c : Z) : Globals -> Globals := emit (Consumer c).

(* ================================================================== *)
(** ** NeoPixel functions *)

(** [NEO_update] streams [neo[1..3]] to the strip with interrupts disabled;
    it reads the globals and changes none of them, so it has no counterpart
    here. *)

Definition set_neo_rgb1 (n rv gv bv : Z) (st : Globals) : Globals :=
  with_neo (set4 (neo st) n {| r := rv; g := gv; b := bv |}) st.

(** [set_neo_rgb]: index 0 recurses once on 1, 2 and 3. *)
Definition set_neo_rgb (n rv gv bv : Z) (st : Globals) : Globals :=
  if n =? 0 then
    set_neo_rgb1 3 rv gv bv (set_neo_rgb1 2 rv gv bv (set_neo_rgb1 1 rv gv bv st))
  else set_neo_rgb1 n rv gv bv st.

Definition set_neo_fg1 (n : Z) (st : Globals) : Globals :=
  let c := get4 (neofg st) (layer st) in
  set_neo_rgb n (r c) (g c) (b c) st.

Definition set_neo_fg (n : Z) (st : Globals) : Globals :=
  if n =? 0 then set_neo_fg1 3 (set_neo_fg1 2 (set_neo_fg1 1 st))
  else set_neo_fg1 n st.

Definition set_neo_bg1 (n : Z) (st : Globals) : Globals :=
  let c := get4 (neobg st) (layer st) in
  set_neo_rgb n (r c) (g c) (b c) st.

Definition set_neo_bg (n : Z) (st : Globals) : Globals :=
  if n =? 0 then set_neo_bg1 3 (set_neo_bg1 2 (set_neo_bg1 1 st))
  else set_neo_bg1 n st.

(** [safe_fade(from, by, min)], statement by statement. *)
Definition safe_fade (from by_ min : Z) : Z :=
  if from <=? min then min
  else if from <? by_ then min
  else
    let from' := u8 (from - by_) in
    if by_ <? min then min
    else from'.

Definition fade_out1 (n : Z) (st : Globals) : Globals :=
  let px := get4 (neo st) n in
  let fd := get4 (neofade st) (layer st) in
  let bg := get4 (neobg st) (layer st) in
  let rv := safe_fade (r px) (r fd) (r bg) in
  let st := with_neo (set4 (neo st) n {| r := rv; g := g px; b := b px |}) st in
  let px := get4 (neo st) n in
  let gv := safe_fade (g px) (g fd) (g bg) in
  let st := with_neo (set4 (neo st) n {| r := r px; g := gv; b := b px |}) st in
  let px := get4 (neo st) n in
  let bv := safe_fade (b px) (b fd) (b bg) in
  with_neo (set4 (neo st) n {| r := r px; g := g px; b := bv |}) st.

Definition fade_out (n : Z) (st : Globals) : Globals :=
  if n =? 0 then fade_out1 3 (fade_out1 2 (fade_out1 1 st))
  else fade_out1 n st.

(** [type_uint] and [type_delimit] (the character constants are ASCII). *)
Definition type_uint (n : Z) (st : Globals) : Globals :=
  let st := KBD_type (u8 (48 + n / 100)) st in
  let st := KBD_type (u8 (48 + (n mod 100) / 10)) st in
  KBD_type (u8 (48 + (n mod 10) / 1)) st.

Definition type_delimit (st : Globals) : Globals := KBD_type 32 (KBD_type 44 st).

(* ================================================================== *)
(** ** Layer selection *)

(** [parse_layer(dir)].  [layer += dir] stores into a [uint8_t]. *)
Definition parse_layer (dir : Z) (st : Globals) : Globals :=
  let st := if 3 <? max_layer st then with_max_layer 3 st else st in
  if dir =? 0 then with_layer 0 st
  else
    match max_layer st with
    | 0 => with_layer 0 st
    | 1 => with_layer 3 st
    | 2 =>
        if 0 <? dir then with_layer 2 st
        else if dir <? 0 then with_layer 3 st
        else st
    | 3 =>
        let st := with_layer (u8 (layer st + dir)) st in
        let st := if 3 <? layer st then with_layer 1 st else st in
        if layer st <? 1 then with_layer 3 st else st
    | _ => st
    end.

(* ================================================================== *)
(** ** Key-action dispatcher *)

Definition flag (m bit : Z) : bool := negb (Z.land m bit =? 0).

(** [mod_type(c, mod)]: eight conditional presses, the key, eight
    conditional releases. *)
Definition mod_type (c m : Z) (st : Globals) : Globals :=
  let st := if flag m 1 then KBD_press KBD_KEY_LEFT_CTRL st else st in
  let st := if flag m 2 then KBD_press KBD_KEY_LEFT_SHIFT st else st in
  let st := if flag m 4 then KBD_press KBD_KEY_LEFT_ALT st else st in
  let st := if flag m 8 then KBD_press KBD_KEY_LEFT_GUI st else st in
  let st := if flag m 16 then KBD_press KBD_KEY_RIGHT_CTRL st else st in
  let st := if flag m 32 then KBD_press KBD_KEY_RIGHT_SHIFT st else st in
  let st := if flag m 64 then KBD_press KBD_KEY_RIGHT_ALT st else st in
  let st := if flag m 128 then KBD_press KBD_KEY_RIGHT_GUI st else st in
  let st := KBD_type c st in
  let st := if flag m 128 then KBD_release KBD_KEY_RIGHT_GUI st else st in
  let st := if flag m 64 then KBD_release KBD_KEY_RIGHT_ALT st else st in
  let st := if flag m 32 then KBD_release KBD_KEY_RIGHT_SHIFT st else st in
  let st := if flag m 16 then KBD_release KBD_KEY_RIGHT_CTRL st else st in
  let st := if flag m 8 then KBD_release KBD_KEY_LEFT_GUI st else st in
  let st := if flag m 4 then KBD_release KBD_KEY_LEFT_ALT st else st in
  let st := if flag m 2 then KBD_release KBD_KEY_LEFT_SHIFT st else st in
  if flag m 1 then KBD_release KBD_KEY_LEFT_CTRL st else st.

(** The [switch (ev)] of [get_type]: the pair [(c, mod)] it leaves in the
    two locals, which start at 0 and stay there when no case matches. *)
Definition binding (ev : Event) (ch : Chars) : Z * Z :=
  match ev with
  | KEY1 => (char1 ch, u8 (mod1 ch))
  | KEY2 => (char2 ch, u8 (mod2 ch))
  | KEY3 => (char3 ch, u8 (mod3 ch))
  | ENC_SW => (charSW ch, u8 (modSW ch))
  | ENC_CW => (charCW ch, u8 (modCW ch))
  | ENC_CCW => (charCCW ch, u8 (modCCW ch))
  | KEY12 => (char12 ch, u8 (mod12 ch))
  | KEY23 => (char23 ch, u8 (mod23 ch))
  | KEY13 => (char13 ch, u8 (mod13 ch))
  | ENC_SW_CW => (swcharCW ch, u8 (swmodCW ch))
  | ENC_SW_CCW => (swcharCCW ch, u8 (swmodCCW ch))
  | NONE => (0, 0)
  end.

(** [get_type(ev, n)]. *)
Definition get_type (ev : Event) (n : Z) (st : Globals) : Globals :=
  let c := fst (binding ev (get4 (chars st) n)) in
  let m := snd (binding ev (get4 (chars st) n)) in
  if c =? 0 then st
  else if m =? 255 then CON_type c st
  else mod_type c m st.

(** [parse_type(ev)]; the first line records the call. *)
Definition parse_type (ev : Event) (st : Globals) : Globals :=
  let st := with_dispatched (dispatched st ++ [ev]) st in
  let st := get_type ev (layer st) st in
  if (layer st =? 0) && (max_layer st <? 3) then
    let st := if max_layer st <=? 2 then get_type ev 1 st else st in
    let st := if max_layer st <=? 1 then get_type ev 2 st else st in
    if max_layer st <=? 0 then get_type ev 3 st else st
  else st.

(* ================================================================== *)
(** ** Startup: decoding the keymap from data flash *)

(** [eeprom_read_byte(addr)]: the byte of data flash with index [addr]
    (the function selects the even flash address [addr << 1] and returns
    the 8-bit data register).  [rom] gives the stored value per index. *)
Definition eeprom_read_byte (rom : Z -> Z) (addr : Z) : Z := u8 (rom addr).

(** One iteration of the decode loop of [main], in four parts.  First the
    32 reads: [n] starts at [i * 32] and is incremented after every read,
    so the k-th read of the iteration is at [n + k]; the reads are listed
    here by that offset. *)
Definition read_layer (rom : Z -> Z) (i : Z) (st : Globals) : Globals :=
  let n := u8 (i * 32) in
  let rd := fun k : Z => eeprom_read_byte rom (u8 (n + k)) in
  let ch :=
    {| mod1 := rd 0;  char1 := rd 1;  mod2 := rd 2;  char2 := rd 3;
       mod3 := rd 4;  char3 := rd 5;  modSW := rd 6; charSW := rd 7;
       modCW := rd 8; charCW := rd 9; modCCW := rd 10; charCCW := rd 11;
       mod12 := rd 16; char12 := rd 17; mod23 := rd 18; char23 := rd 19;
       mod13 := rd 20; char13 := rd 21; swcharCW := rd 22; swcharCCW := rd 23;
       swmodCW := rd 27; swmodCCW := rd 31 |} in
  let st := with_chars (set4 (chars st) i ch) st in
  let st := with_neofg (set4 (neofg st) i {| r := rd 12; g := rd 13; b := rd 14 |}) st in
  let st := with_max_layer (rd 15) st in
  let st := with_neofade (set4 (neofade st) i {| r := rd 24; g := rd 25; b := rd 26 |}) st in
  with_neobg (set4 (neobg st) i {| r := rd 28; g := rd 29; b := rd 30 |}) st.

(** [if ((neofg[i].r | neofg[i].g | neofg[i].b) == 0) { ... }] *)
Definition default_foreground (i : Z) (st : Globals) : Globals :=
  let c := get4 (neofg st) i in
  if Z.lor (Z.lor (r c) (g c)) (b c) =? 0
  then with_neofg (set4 (neofg st) i {| r := 255; g := 22; b := b c |}) st
  else st.

(** [if ((neobg[i].r | neobg[i].g | neobg[i].b) == 0) { ... }] *)
Definition default_background (i : Z) (st : Globals) : Globals :=
  let c := get4 (neobg st) i in
  if Z.lor (Z.lor (r c) (g c)) (b c) =? 0
  then with_neobg (set4 (neobg st) i {| r := 12; g := 1; b := b c |}) st
  else st.

(** The three tests on the channels of [neofade[i]]. *)
Definition minimum_fade (i : Z) (st : Globals) : Globals :=
  let c := get4 (neofade st) i in
  let st :=
    if r c =? 0
    then with_neofade (set4 (neofade st) i {| r := 1; g := g c; b := b c |}) st
    else st in
  let c := get4 (neofade st) i in
  let st :=
    if g c =? 0
    then with_neofade (set4 (neofade st) i {| r := r c; g := 1; b := b c |}) st
    else st in
  let c := get4 (neofade st) i in
  if b c =? 0
  then with_neofade (set4 (neofade st) i {| r := r c; g := g c; b := 1 |}) st
  else st.

Definition decode_layer (rom : Z -> Z) (i : Z) (st : Globals) : Globals :=
  minimum_fade i (default_background i (default_foreground i (read_layer rom i st))).

(** [for (i = 0; i <= 3; i++)]. *)
Definition decode_all (rom : Z -> Z) (st : Globals) : Globals :=
  fold_left (fun acc i => decode_layer rom i acc) [0; 1; 2; 3] st.

(** The unconfigured-keymap warning: pixel 1 blinks red; between the
    assignments the strip is updated and the program waits. *)
Definition startup_warning (st : Globals) : Globals :=
  let c0 := get4 (chars st) 0 in
  if Z.lor (Z.lor (char1 c0) (char2 c0)) (char3 c0) =? 0 then
    let st := with_neo (set4 (neo st) 1 {| r := 255; g := 0; b := 0 |}) st in
    let setr := fun (v : Z) (s : Globals) =>
      let px := get4 (neo s) 1 in
      with_neo (set4 (neo s) 1 {| r := v; g := g px; b := b px |}) s in
    setr 255 (setr 0 (setr 255 (setr 0 st)))
  else st.

(** The globals as the C runtime initialises them. *)
Definition black : RGB := {| r := 0; g := 0; b := 0 |}.

Definition no_chars : Chars :=
  {| mod1 := 0; char1 := 0; mod2 := 0; char2 := 0; mod3 := 0; char3 := 0;
     modSW := 0; charSW := 0; modCW := 0; charCW := 0; modCCW := 0; charCCW := 0;
     mod12 := 0; char12 := 0; mod23 := 0; char23 := 0; mod13 := 0; char13 := 0;
     swcharCW := 0; swcharCCW := 0; swmodCW := 0; swmodCCW := 0 |}.

Definition globals0 : Globals :=
  {| neo := fill4 black; neobg := fill4 black; neofg := fill4 black;
     neofade := fill4 black; layer := 0; max_layer := 0;
     chars := fill4 no_chars; hid := []; dispatched := [] |}.

Definition startup (rom : Z -> Z) : Globals :=
  let st := decode_all rom globals0 in
  let st := startup_warning st in
  set_neo_fg 3 (set_neo_fg 2 (set_neo_fg 1 st)).

(* ================================================================== *)
(** ** The polling loop *)

(** Raw pin levels sampled in one iteration ([true] is high; the controls
    are active-low). *)
Record Pins : Type := {
  PIN_KEY1 : bool; PIN_KEY2 : bool; PIN_KEY3 : bool;
  PIN_ENC_SW : bool; PIN_ENC_A : bool; PIN_ENC_B : bool
}.

(** The locals of [main] that live across iterations.  ([i] and [n] are
    temporaries, [warning] is never used.) *)
Record Locals : Type := {
  key1 : bool; key2 : bool; key3 : bool; keyenc : bool;
  press : Z; hold : Z; all : Z; knob : Z; show_mode : Z;
  mode_changed : bool;
  encoder_state : Z; encoder_value : Z; encoder_dir : Z
}.

Definition locals0 : Locals :=
  {| key1 := false; key2 := false; key3 := false; keyenc := false;
     press := 0; hold := 0; all := 0; knob := 0; show_mode := 0;
     mode_changed := false;
     encoder_state := 0; encoder_value := 0; encoder_dir := 0 |}.

Definition set_keyenc (v : bool) (l : Locals) : Locals :=
  {| key1 := key1 l; key2 := key2 l; key3 := key3 l; keyenc := v;
     press := press l; hold := hold l; all := all l; knob := knob l;
     show_mode := show_mode l; mode_changed := mode_changed l;
     encoder_state := encoder_state l; encoder_value := encoder_value l;
     encoder_dir := encoder_dir l |}.

Definition set_mode_changed (v : bool) (l : Locals) : Locals :=
  {| key1 := key1 l; key2 := key2 l; key3 := key3 l; keyenc := keyenc l;
     press := press l; hold := hold l; all := all l; knob := knob l;
     show_mode := show_mode l; mode_changed := v;
     encoder_state := encoder_state l; encoder_value := encoder_value l;
     encoder_dir := encoder_dir l |}.

Definition set_show_mode (v : Z) (l : Locals) : Locals :=
  {| key1 := key1 l; key2 := key2 l; key3 := key3 l; keyenc := keyenc l;
     press := press l; hold := hold l; all := all l; knob := knob l;
     show_mode := v; mode_changed := mode_changed l;
     encoder_state := encoder_state l; encoder_value := encoder_value l;
     encoder_dir := encoder_dir l |}.

Definition set_knob (v : Z) (l : Locals) : Locals :=
  {| key1 := key1 l; key2 := key2 l; key3 := key3 l; keyenc := keyenc l;
     press := press l; hold := hold l; all := all l; knob := v;
     show_mode := show_mode l; mode_changed := mode_changed l;
     encoder_state := encoder_state l; encoder_value := encoder_value l;
     encoder_dir := encoder_dir l |}.

(** How an iteration (or the startup) ends: the program goes on, or
    [enter_bootloader] has handed control to the boot loader for good. *)
Inductive Outcome (A : Type) : Type :=
| Running (a : A)
| Bootloader.
Arguments Running {A} a.
Arguments Bootloader {A}.

(** [if (!PIN_read(pin) != key) { key = !key; }] *)
Definition debounce (pin latched : bool) : bool :=
  if negb (Bool.eqb (negb pin) latched) then negb latched else latched.

(** [if (key) { hold |= bit; press |= bit; set_neo_fg(n); }] on the triple
    (hold, press, globals). *)
Definition key_held (k : bool) (bit n : Z) (s : Z * Z * Globals) : Z * Z * Globals :=
  if k then (Z.lor (fst (fst s)) bit, Z.lor (snd (fst s)) bit, set_neo_fg n (snd s))
  else s.

(** [switch (press)] on release. *)
Definition release_switch (pr : Z) (st : Globals) : Globals :=
  match pr with
  | 1 => parse_type KEY1 st
  | 2 => parse_type KEY2 st
  | 4 => parse_type KEY3 st
  | 3 => parse_type KEY12 st
  | 5 => parse_type KEY13 st
  | 6 => parse_type KEY23 st
  | _ => st
  end.

(** Keys: debounce, hold and press masks, dispatch on release, long hold of
    all three keys. *)
Definition poll_keys (p : Pins) (l : Locals) (st : Globals)
  : Outcome (Locals * Globals) :=
  let k1 := debounce (PIN_KEY1 p) (key1 l) in
  let k2 := debounce (PIN_KEY2 p) (key2 l) in
  let k3 := debounce (PIN_KEY3 p) (key3 l) in
  let s := key_held k3 4 3 (key_held k2 2 2 (key_held k1 1 1 (0, press l, st))) in
  let h := fst (fst s) in
  let pr := snd (fst s) in
  let st := snd s in
  let mk := fun (pr' a' : Z) =>
    {| key1 := k1; key2 := k2; key3 := k3; keyenc := keyenc l;
       press := pr'; hold := h; all := a'; knob := knob l;
       show_mode := show_mode l; mode_changed := mode_changed l;
       encoder_state := encoder_state l; encoder_value := encoder_value l;
       encoder_dir := encoder_dir l |} in
  if h =? 0 then Running (mk 0 0, release_switch pr st)
  else if h =? 7 then
    let a' := u8 (all l + 1) in
    if 200 <? a' then Bootloader else Running (mk pr a', st)
  else Running (mk pr (all l), st).

(** Encoder switch: latch, and dispatch [ENC_SW] on a release that did not
    change the layer. *)
Definition poll_encoder_switch (p : Pins) (l : Locals) (st : Globals)
  : Locals * Globals :=
  if negb (Bool.eqb (negb (PIN_ENC_SW p)) (keyenc l)) then
    let l := set_keyenc (negb (keyenc l)) l in
    let l := if keyenc l then set_mode_changed false l else l in
    if negb (keyenc l) && negb (mode_changed l)
    then (l, parse_type ENC_SW st)
    else (l, st)
  else (l, st).

Definition encoder_factor : list Z :=
  [0; 1; -1; 2; -1; 0; -2; 1; 1; -2; 0; -1; 2; -1; 1; 0].

(** Quadrature decoder: table index from the previous state and the two
    phase pins, accumulator, direction step. *)
Definition poll_quadrature (p : Pins) (l : Locals) : Locals :=
  let i :=
    u8 (Z.lor (Z.lor (Z.land (encoder_state l) 3)
                     (Z.shiftl (b2z (negb (PIN_ENC_A p))) 2))
              (Z.shiftl (b2z (negb (PIN_ENC_B p))) 3)) in
  let es := Z.shiftr i 2 in
  let v := s8 (encoder_value l + nth (Z.to_nat i) encoder_factor 0) in
  let d1 := if 4 <=? v then -1 else 0 in
  let v1 := if 4 <=? v then s8 (v - 4) else v in
  let d2 := if v1 <=? -4 then 1 else d1 in
  let v2 := if v1 <=? -4 then s8 (v1 + 4) else v1 in
  {| key1 := key1 l; key2 := key2 l; key3 := key3 l; keyenc := keyenc l;
     press := press l; hold := hold l; all := all l; knob := knob l;
     show_mode := show_mode l; mode_changed := mode_changed l;
     encoder_state := es; encoder_value := v2; encoder_dir := d2 |}.

(** What a direction step does: layer change or mapped action while the
    encoder switch is held, mapped action otherwise; idle timeout. *)
Definition apply_rotation (l : Locals) (st : Globals) : Locals * Globals :=
  let d := encoder_dir l in
  if keyenc l then
    let ls1 :=
      if negb (d =? 0) then
        let l := set_mode_changed true l in
        if 0 <? max_layer st then (set_show_mode 60 l, parse_layer d st)
        else
          let st := if 0 <? d then parse_type ENC_SW_CCW st else st in
          let st := if d <? 0 then parse_type ENC_SW_CW st else st in
          (l, st)
      else (l, st) in
    let l := fst ls1 in
    let st := snd ls1 in
    if 0 <? max_layer st then
      let ls2 :=
        if 200 <? knob l then (set_mode_changed true l, parse_layer 0 st)
        else (l, st) in
      let l := fst ls2 in
      let st := snd ls2 in
      if mode_changed l then (set_knob 0 (set_show_mode 60 l), st)
      else (set_knob (u8 (knob l + 1)) l, st)
    else (l, st)
  else
    let st := if 0 <? d then parse_type ENC_CCW st else st in
    let st := if d <? 0 then parse_type ENC_CW st else st in
    (set_knob 0 l, st).

(** Lights: fade every pixel, and show the foreground on all of them while
    the mode indicator runs. *)
Definition update_lights (l : Locals) (st : Globals) : Locals * Globals :=
  let st := fade_out 0 st in
  if negb (show_mode l =? 0) then
    let c := get4 (neofg st) (layer st) in
    (set_show_mode (u8 (show_mode l - 1)) l, set_neo_rgb 0 (r c) (g c) (b c) st)
  else (l, st).

(** One iteration of [while (1)]. *)
Definition loop_body (p : Pins) (ls : Locals * Globals)
  : Outcome (Locals * Globals) :=
  match poll_keys p (fst ls) (snd ls) with
  | Bootloader => Bootloader
  | Running ls1 =>
      let ls2 := poll_encoder_switch p (fst ls1) (snd ls1) in
      let l3 := poll_quadrature p (fst ls2) in
      let ls4 := apply_rotation l3 (snd ls2) in
      Running (update_lights (fst ls4) (snd ls4))
  end.

(** [main] up to the loop: key 1 held at power-on enters the boot loader. *)
Definition main_init (rom : Z -> Z) (p : Pins) : Outcome (Locals * Globals) :=
  if negb (PIN_KEY1 p) then Bootloader
  else Running (locals0, startup rom).

(** The loop over a finite sequence of pin samples. *)
Fixpoint run_loop (ps : list Pins) (ls : Locals * Globals)
  : Outcome (Locals * Globals) :=
  match ps with
  | [] => Running ls
  | p :: ps' =>
      match loop_body p ls with
      | Bootloader => Bootloader
      | Running ls' => run_loop ps' ls'
      end
  end.

(* ================================================================== *)
(** * Vocabulary of the statements

    Definitions that the properties below are stated with: worked
    configurations, the dispatcher's contract, the stored bytes and the
    substitution rules of the decoder, sequences of polls. *)

(** The colour whose three channels are all [x]. *)
Definition grey (x : Z) : RGB := {| r := x; g := x; b := x |}.

(** Layer 0 with every pixel at [grey x], fade rate [grey fv] and
    background [grey bgv]. *)
Definition fade_setup (x fv bgv : Z) : Globals :=
  with_neo (fill4 (grey x))
    (with_neofade (fill4 (grey fv)) (with_neobg (fill4 (grey bgv)) globals0)).

(** The modifier flags with their keys, in the order of the dispatcher's
    contract. *)
Definition mod_table : list (Z * ModKey) :=
  [ (1, KBD_KEY_LEFT_CTRL); (2, KBD_KEY_LEFT_SHIFT); (4, KBD_KEY_LEFT_ALT);
    (8, KBD_KEY_LEFT_GUI); (16, KBD_KEY_RIGHT_CTRL); (32, KBD_KEY_RIGHT_SHIFT);
    (64, KBD_KEY_RIGHT_ALT); (128, KBD_KEY_RIGHT_GUI) ].

(** The modifier keys whose flag is set in [m], in table order. *)
Definition active_mods (m : Z) : list ModKey :=
  map snd (filter (fun e => flag m (fst e)) mod_table).

(** The modifier-wrapped literal key: presses forward, the key, releases
    backward. *)
Definition wrapped (c m : Z) : list Hid :=
  map Press (active_mods m) ++ [Tap c] ++ map Release (rev (active_mods m)).

(** The key-action sequence of a binding [(c, m)]: nothing when unbound, a
    consumer-control code under the sentinel, the wrapped key otherwise. *)
Definition binding_actions (cm : Z * Z) : list Hid :=
  if fst cm =? 0 then []
  else if snd cm =? 255 then [Consumer (fst cm)]
  else wrapped (fst cm) (snd cm).

(** Appending a sequence of reports to the log. *)
Definition emits (xs : list Hid) (st : Globals) : Globals :=
  with_hid (hid st ++ xs) st.

(** What [parse_type] adds after the current layer's own sequence: on layer
    0 with fewer than three configured layers, the sequences of the same
    Event on layer 1, then on layer 2 when [max_layer <= 1], then on layer
    3 when [max_layer <= 0]. *)
Definition fallback_actions (ev : Event) (st : Globals) : list Hid :=
  if (layer st =? 0) && (max_layer st <? 3) then
    (if max_layer st <=? 2 then binding_actions (binding ev (get4 (chars st) 1)) else [])
    ++ (if max_layer st <=? 1 then binding_actions (binding ev (get4 (chars st) 2)) else [])
    ++ (if max_layer st <=? 0 then binding_actions (binding ev (get4 (chars st) 3)) else [])
  else [].

(** The bit of each modifier key, and the keys in the contract's order. *)
Definition mod_bit (k : ModKey) : Z :=
  match k with
  | KBD_KEY_LEFT_CTRL => 0 | KBD_KEY_LEFT_SHIFT => 1
  | KBD_KEY_LEFT_ALT => 2 | KBD_KEY_LEFT_GUI => 3
  | KBD_KEY_RIGHT_CTRL => 4 | KBD_KEY_RIGHT_SHIFT => 5
  | KBD_KEY_RIGHT_ALT => 6 | KBD_KEY_RIGHT_GUI => 7
  end.

Definition mod_order : list ModKey :=
  [ KBD_KEY_LEFT_CTRL; KBD_KEY_LEFT_SHIFT; KBD_KEY_LEFT_ALT; KBD_KEY_LEFT_GUI;
    KBD_KEY_RIGHT_CTRL; KBD_KEY_RIGHT_SHIFT; KBD_KEY_RIGHT_ALT; KBD_KEY_RIGHT_GUI ].

(** Key 1 bound to [(m, c)] and nothing else. *)
Definition key1_chars (m c : Z) : Chars :=
  {| mod1 := m; char1 := c; mod2 := 0; char2 := 0; mod3 := 0; char3 := 0;
     modSW := 0; charSW := 0; modCW := 0; charCW := 0; modCCW := 0; charCCW := 0;
     mod12 := 0; char12 := 0; mod23 := 0; char23 := 0; mod13 := 0; char13 := 0;
     swcharCW := 0; swcharCCW := 0; swmodCW := 0; swmodCCW := 0 |}.

(** Layer 0 binds key 1 to the letter a, layer 1 binds it to the letter b,
    and no secondary layer is configured. *)
Definition two_bound_layers : Globals :=
  with_chars {| a0 := key1_chars 0 97; a1 := key1_chars 0 98;
                a2 := no_chars; a3 := no_chars |} globals0.

(** Key 1 bound to the letter b on layer 1 only, no secondary layer
    configured. *)
Definition layer1_only : Globals :=
  with_chars {| a0 := no_chars; a1 := key1_chars 0 98;
                a2 := no_chars; a3 := no_chars |} globals0.

(** Locals at rest except for the encoder switch latch and a pending
    direction step. *)
Definition turning (held : bool) (d : Z) : Locals :=
  {| key1 := false; key2 := false; key3 := false; keyenc := held;
     press := 0; hold := 0; all := 0; knob := 0; show_mode := 0;
     mode_changed := false;
     encoder_state := 0; encoder_value := 0; encoder_dir := d |}.

(** The byte stored at offset [k] of layer [i], and the colour stored at
    offsets [k], [k+1], [k+2]. *)
Definition stored (rom : Z -> Z) (i k : Z) : Z := eeprom_read_byte rom (i * 32 + k).

Definition stored_rgb (rom : Z -> Z) (i k : Z) : RGB :=
  {| r := stored rom i k; g := stored rom i (k + 1); b := stored rom i (k + 2) |}.

Definition stored_chars (rom : Z -> Z) (i : Z) : Chars :=
  {| mod1 := stored rom i 0;  char1 := stored rom i 1;
     mod2 := stored rom i 2;  char2 := stored rom i 3;
     mod3 := stored rom i 4;  char3 := stored rom i 5;
     modSW := stored rom i 6; charSW := stored rom i 7;
     modCW := stored rom i 8; charCW := stored rom i 9;
     modCCW := stored rom i 10; charCCW := stored rom i 11;
     mod12 := stored rom i 16; char12 := stored rom i 17;
     mod23 := stored rom i 18; char23 := stored rom i 19;
     mod13 := stored rom i 20; char13 := stored rom i 21;
     swcharCW := stored rom i 22; swcharCCW := stored rom i 23;
     swmodCW := stored rom i 27; swmodCCW := stored rom i 31 |}.

(** The built-in defaults and the substitution rules. *)
Definition default_fg : RGB := {| r := 255; g := 22; b := 0 |}.
Definition default_bg : RGB := {| r := 12; g := 1; b := 0 |}.

Definition is_black (c : RGB) : bool := (r c =? 0) && (g c =? 0) && (b c =? 0).

Definition or_default (d c : RGB) : RGB := if is_black c then d else c.

Definition fade_min1 (c : RGB) : RGB :=
  {| r := if r c =? 0 then 1 else r c;
     g := if g c =? 0 then 1 else g c;
     b := if b c =? 0 then 1 else b c |}.

Definition tabulate4 {A : Type} (f : Z -> A) : Arr4 A :=
  {| a0 := f 0; a1 := f 1; a2 := f 2; a3 := f 3 |}.

(** The whole program on a power-on sample and a sequence of polls. *)
Definition run (rom : Z -> Z) (p : Pins) (ps : list Pins)
  : Outcome (Locals * Globals) :=
  match main_init rom p with
  | Bootloader => Bootloader
  | Running ls => run_loop ps ls
  end.

Definition erased : Z -> Z := fun _ => 0.
Definition erased_but_max_layers : Z -> Z :=
  fun a => if (a =? 15) || (a =? 47) || (a =? 79) then 2 else 0.

(** The two phase bits as the decoder packs them: A is bit 0, B is bit 1
    (a pin at low level reads as 1). *)
Definition phase (p : Pins) : Z :=
  b2z (negb (PIN_ENC_A p)) + 2 * b2z (negb (PIN_ENC_B p)).

(** Pins with every key and the switch released and the encoder at phase
    [ph]. *)
Definition phase_pins (ph : Z) : Pins :=
  {| PIN_KEY1 := true; PIN_KEY2 := true; PIN_KEY3 := true; PIN_ENC_SW := true;
     PIN_ENC_A := negb (Z.testbit ph 0); PIN_ENC_B := negb (Z.testbit ph 1) |}.

(** Locals at rest with the decoder in state [e] and accumulator [v]. *)
Definition enc (e v : Z) : Locals :=
  {| key1 := false; key2 := false; key3 := false; keyenc := false;
     press := 0; hold := 0; all := 0; knob := 0; show_mode := 0;
     mode_changed := false;
     encoder_state := e; encoder_value := v; encoder_dir := 0 |}.

(** The decoder over a sequence of polls: the direction step of every poll,
    and the locals at the end. *)
Fixpoint quad_run (ps : list Pins) (l : Locals) : list Z * Locals :=
  match ps with
  | [] => ([], l)
  | p :: ps' =>
      let l' := poll_quadrature p l in
      (encoder_dir l' :: fst (quad_run ps' l'), snd (quad_run ps' l'))
  end.

(** The direction steps among the polls. *)
Definition steps (ds : list Z) : list Z := filter (fun d => negb (d =? 0)) ds.

(** One transition to phase [ph], seen by [S k] consecutive polls. *)
Definition observe (ph : Z) (k : nat) : list Pins := repeat (phase_pins ph) (S k).

(** One full detent: four transitions through the gray code and back to
    phase 0, each seen by any positive number of polls.  The order
    0, 2, 3, 1, 0 is the one whose direction step dispatches [ENC_CW]. *)
Definition detent_cw (k : nat * nat * nat * nat) : list Pins :=
  let '(k1, k2, k3, k4) := k in
  observe 2 k1 ++ observe 3 k2 ++ observe 1 k3 ++ observe 0 k4.

Definition detent_ccw (k : nat * nat * nat * nat) : list Pins :=
  let '(k1, k2, k3, k4) := k in
  observe 1 k1 ++ observe 3 k2 ++ observe 2 k3 ++ observe 0 k4.

(** The phase that follows [e] in the direction whose steps dispatch
    [ENC_CW] (0, 2, 3, 1, 0), and in the other direction (0, 1, 3, 2, 0). *)
Definition cw_next (e : Z) : Z :=
  match e with
  | 0 => 2
  | 2 => 3
  | 3 => 1
  | _ => 0
  end.

Definition ccw_next (e : Z) : Z :=
  match e with
  | 0 => 1
  | 1 => 3
  | 3 => 2
  | _ => 0
  end.

(** A rotation in one direction that starts with the encoder at phase [e]:
    one transition to the following phase of the gray code for every
    element of [ks], each seen by one more poll than the element.  Four
    transitions are one full detent and bring the encoder back to [e]. *)
Fixpoint turn (next : Z -> Z) (e : Z) (ks : list nat) : list Pins :=
  match ks with
  | [] => []
  | k :: ks' => observe (next e) k ++ turn next (next e) ks'
  end.

(** [st'] differs from [st] in the pixels only. *)
Definition only_neo (st st' : Globals) : Prop := st' = with_neo (neo st') st.

(** The mask of the keys that are down in a sample. *)
Definition held_mask (p : Pins) : Z :=
  b2z (negb (PIN_KEY1 p)) + 2 * b2z (negb (PIN_KEY2 p))
  + 4 * b2z (negb (PIN_KEY3 p)).

(** The Event of a press mask. *)
Definition chord (m : Z) : option Event :=
  match m with
  | 1 => Some KEY1
  | 2 => Some KEY2
  | 4 => Some KEY3
  | 3 => Some KEY12
  | 5 => Some KEY13
  | 6 => Some KEY23
  | _ => None
  end.

Definition chord_events (m : Z) : list Event :=
  match chord m with Some ev => [ev] | None => [] end.

(** The encoder switch is up and both phase pins are high. *)
Definition encoder_idle (p : Pins) : Prop :=
  PIN_ENC_SW p = true /\ PIN_ENC_A p = true /\ PIN_ENC_B p = true.

(** The encoder part of the locals is at rest. *)
Definition encoder_rest (l : Locals) : Prop :=
  keyenc l = false /\ encoder_state l = 0 /\ -3 <= encoder_value l <= 3.


(** The layer index is a valid array index and [max_layer] is a byte's
    non-negative value. *)
Definition layer_ok (st : Globals) : Prop :=
  0 <= layer st <= 3 /\ 0 <= max_layer st.

(** Stack discipline of the modifier keys over a log of reports: a press
    pushes its key, a release must name the key pressed last and pops it;
    [None] when a release does not match. *)
Fixpoint mods_after (log : list Hid) (down : list ModKey) : option (list ModKey) :=
  match log with
  | [] => Some down
  | Press k :: t => mods_after t (k :: down)
  | Release k :: t =>
      match down with
      | k' :: down' =>
          if mod_bit k =? mod_bit k' then mods_after t down' else None
      | [] => None
      end
  | Tap _ :: t => mods_after t down
  | Consumer _ :: t => mods_after t down
  end.

(** No modifier key is down at the end of the log, and every release in it
    matched the latest press. *)
Definition mods_released (st : Globals) : Prop := mods_after (hid st) [] = Some [].

(** The decoder's state is a two-bit value and its accumulator is short of
    a full detent. *)
Definition encoder_ok (l : Locals) : Prop :=
  0 <= encoder_state l <= 3 /\ -3 <= encoder_value l <= 3.

(** The part of an iteration after the keys: encoder switch, decoder,
    rotation, lights. *)
Definition after_keys (p : Pins) (ls : Locals * Globals) : Locals * Globals :=
  let ls2 := poll_encoder_switch p (fst ls) (snd ls) in
  let l3 := poll_quadrature p (fst ls2) in
  let ls4 := apply_rotation l3 (snd ls2) in
  update_lights (fst ls4) (snd ls4).

(** How many of the polls have all three keys down. *)
Definition count_all_down (ps : list Pins) : Z :=
  Z.of_nat (length (filter (fun p => held_mask p =? 7) ps)).

(** All three keys down, encoder idle. *)
Definition keys123_down : Pins :=
  {| PIN_KEY1 := false; PIN_KEY2 := false; PIN_KEY3 := false;
     PIN_ENC_SW := true; PIN_ENC_A := true; PIN_ENC_B := true |}.

(** The Event a direction step dispatches while the encoder switch is up. *)
Definition dir_events (d : Z) : list Event :=
  if 0 <? d then [ENC_CCW] else if d <? 0 then [ENC_CW] else [].

(** No key is down and the encoder switch is up. *)
Definition controls_up (p : Pins) : Prop :=
  held_mask p = 0 /\ PIN_ENC_SW p = true.

(** The encoder switch pressed, no key down, the encoder not turning. *)
Definition switch_down : Pins :=
  {| PIN_KEY1 := true; PIN_KEY2 := true; PIN_KEY3 := true;
     PIN_ENC_SW := false; PIN_ENC_A := true; PIN_ENC_B := true |}.

(** What matters of the locals while only the encoder switch is used: no
    key press pending, the decoder at rest, and the idle count [knob]. *)
Definition switch_only (l : Locals) : Prop :=
  press l = 0 /\ encoder_state l = 0 /\ -3 <= encoder_value l <= 3 /\
  0 <= knob l <= 201.

(** [n] fade steps on one channel. *)
Fixpoint fade_steps (n : nat) (f bg v : Z) : Z :=
  match n with
  | O => v
  | S k => safe_fade (fade_steps k f bg v) f bg
  end.

(** [n] iterations of [fade_out(0)]. *)
Fixpoint fade_out_n (n : nat) (st : Globals) : Globals :=
  match n with
  | O => st
  | S k => fade_out 0 (fade_out_n k st)
  end.

(** One fade step on the three channels of a pixel. *)
Definition fade_rgb (fd bg px : RGB) : RGB :=
  {| r := safe_fade (r px) (r fd) (r bg);
     g := safe_fade (g px) (g fd) (g bg);
     b := safe_fade (b px) (b fd) (b bg) |}.

(** The three channels of a colour are bytes. *)
Definition rgb_bytes (c : RGB) : Prop :=
  0 <= r c < 256 /\ 0 <= g c < 256 /\ 0 <= b c < 256.

(** A pixel at (200, 7, 0) everywhere, over background (12, 1, 0) with fade
    rate (1, 1, 1), on layer 0. *)
Definition fading_pixels : Globals :=
  with_neo (fill4 {| r := 200; g := 7; b := 0 |})
    (with_neofade (fill4 (grey 1))
       (with_neobg (fill4 default_bg) globals0)).

(** Where the binding of each Event sits in the 32 bytes of a layer:
    (offset of the character, offset of the modifier). *)
Definition binding_offsets (ev : Event) : option (Z * Z) :=
  match ev with
  | NONE => None
  | KEY1 => Some (1, 0)
  | KEY2 => Some (3, 2)
  | KEY3 => Some (5, 4)
  | ENC_SW => Some (7, 6)
  | ENC_CW => Some (9, 8)
  | ENC_CCW => Some (11, 10)
  | KEY12 => Some (17, 16)
  | KEY23 => Some (19, 18)
  | KEY13 => Some (21, 20)
  | ENC_SW_CW => Some (22, 27)
  | ENC_SW_CCW => Some (23, 31)
  end.

(** A data flash that binds key 1 of layer 0 to the letter a with left Ctrl
    and left Shift, and nothing else. *)
Definition rom_key1 : Z -> Z :=
  fun a => if a =? 0 then 3 else if a =? 1 then 97 else 0.

(** The same sample with the encoder switch pressed. *)
Definition press_switch (p : Pins) : Pins :=
  {| PIN_KEY1 := PIN_KEY1 p; PIN_KEY2 := PIN_KEY2 p; PIN_KEY3 := PIN_KEY3 p;
     PIN_ENC_SW := false; PIN_ENC_A := PIN_ENC_A p; PIN_ENC_B := PIN_ENC_B p |}.

(** The Event a direction step dispatches while the encoder switch is held
    and no secondary layer is configured. *)
Definition held_dir_events (d : Z) : list Event :=
  if 0 <? d then [ENC_SW_CCW] else if d <? 0 then [ENC_SW_CW] else [].

(** Some poll of the sequence took a direction step. *)
Definition stepped (ds : list Z) : bool := existsb (fun d => negb (d =? 0)) ds.

(** Everything one dispatch of [ev] sends to the keyboard in state [st]. *)
Definition typed (ev : Event) (st : Globals) : list Hid :=
  binding_actions (binding ev (get4 (chars st) (layer st)))
  ++ fallback_actions ev st.

(** Key 1 down, the other controls up. *)
Definition key1_down : Pins :=
  {| PIN_KEY1 := false; PIN_KEY2 := true; PIN_KEY3 := true;
     PIN_ENC_SW := true; PIN_ENC_A := true; PIN_ENC_B := true |}.

(** The layer selection of a sequence of direction steps, one
    [parse_layer] per step, in order. *)
Definition select_layers (ds : list Z) (st : Globals) : Globals :=
  fold_left (fun s d => parse_layer d s) ds st.

(* ================================================================== *)
(** * Properties *)

(** ** Machine integers *)

Lemma u8_range (z : Z) : 0 <= u8 z < 256.
Proof. unfold u8. apply Z.mod_pos_bound. lia. Qed.

Lemma u8_small (z : Z) : 0 <= z < 256 -> u8 z = z.
Proof. intros H. unfold u8. apply Z.mod_small. exact H. Qed.

Lemma s8_small (z : Z) : -128 <= z < 128 -> s8 z = z.
Proof. intros H. unfold s8. rewrite Z.mod_small by lia. lia. Qed.

Lemma u8_le (z : Z) : 0 <= z -> u8 z <= z.
Proof. intros H. unfold u8. apply Z.mod_le; lia. Qed.

(* ================================================================== *)
(** ** Fade-out *)

Section Fade.

Variables v f bg : Z.

(** The three early exits of [safe_fade] and its last line, as one
    case distinction. *)
Lemma safe_fade_cases :
  0 <= f ->
  v < 256 ->
  safe_fade v f bg =
    if (v <=? bg) || (v <? f) || (f <? bg) then bg else v - f.
Proof.
  intros Hf Hv. unfold safe_fade.
  destruct (v <=? bg) eqn:E1; simpl; [reflexivity|].
  destruct (v <? f) eqn:E2; simpl; [reflexivity|].
  destruct (f <? bg) eqn:E3; [reflexivity|].
  apply u8_small. lia.
Qed.

Lemma safe_fade_at_or_below_floor : v <= bg -> safe_fade v f bg = bg.
Proof.
  intros H. unfold safe_fade.
  destruct (v <=? bg) eqn:E; [reflexivity | lia].
Qed.

Lemma safe_fade_upper : 0 <= f -> bg <= v -> safe_fade v f bg <= v.
Proof.
  intros Hf H. unfold safe_fade.
  destruct (v <=? bg); [lia|].
  destruct (v <? f) eqn:E2; [lia|].
  destruct (f <? bg); [lia|].
  apply Z.le_trans with (v - f); [apply u8_le|]; lia.
Qed.

End Fade.

(** The worked example of the fade floor: (12,12,12) over background
    (10,10,10) with rate (5,5,5) goes to (10,10,10) and stays there. *)
Lemma fade_floor_example :
  let st1 := fade_out 0 (fade_setup 12 5 10) in
  let st2 := fade_out 0 st1 in
  get4 (neo st1) 1 = grey 10 /\ get4 (neo st1) 2 = grey 10 /\
  get4 (neo st1) 3 = grey 10 /\
  get4 (neo st2) 1 = grey 10 /\ get4 (neo st2) 2 = grey 10 /\
  get4 (neo st2) 3 = grey 10.
Proof. vm_compute. repeat split. Qed.

(** C3 (evaluation at the failing inputs): the last test of [safe_fade]
    compares the rate, not the faded value, with the floor.  With value 25,
    rate 20 and background 10 the step returns 5, below the background,
    where the floored decrement is 10; with value 100, rate 5 and
    background 10 it returns 10 at once, where the floored decrement
    is 95. *)
Theorem safe_fade_misses_floor :
  safe_fade 25 20 10 = 5 /\ Z.max (25 - 20) 10 = 10 /\
  safe_fade 100 5 10 = 10 /\ Z.max (100 - 5) 10 = 95 /\
  get4 (neo (fade_out 0 (fade_setup 25 20 10))) 1 = grey 5.
Proof. vm_compute. repeat split. Qed.

(** C4 (counterexample): a channel at 0 over a background channel of 12 is
    raised to 12 by the fade step. *)
Lemma safe_fade_raises_to_background :
  safe_fade 0 1 12 = 12 /\ ~ (safe_fade 0 1 12 <= 0).
Proof. vm_compute. split; [reflexivity | intros H; apply H; reflexivity]. Qed.

(** C4 (amended): for byte values, a fade step does not increase a channel
    that is at or above the background channel; a channel below the
    background channel is set to the background channel. *)
Theorem safe_fade_non_increasing (v f bg : Z) :
  0 <= f < 256 ->
  (bg <= v -> safe_fade v f bg <= v) /\
  (v < bg -> safe_fade v f bg = bg).
Proof.
  intros Hf. split; intros H.
  - apply safe_fade_upper; lia.
  - apply safe_fade_at_or_below_floor. lia.
Qed.

Lemma safe_fade_non_increasing_witness :
  safe_fade 12 5 10 <= 12 /\ safe_fade 3 5 10 = 10.
Proof.
  split.
  - apply (safe_fade_non_increasing 12 5 10); lia.
  - apply (safe_fade_non_increasing 3 5 10); lia.
Defined.

(* ================================================================== *)
(** ** Key-action dispatcher *)

Lemma emits_nil (st : Globals) : emits [] st = st.
Proof. destruct st. unfold emits, with_hid. simpl. rewrite app_nil_r. reflexivity. Qed.

Lemma emits_emits (xs ys : list Hid) (st : Globals) :
  emits ys (emits xs st) = emits (xs ++ ys) st.
Proof. unfold emits, with_hid. simpl. rewrite app_assoc. reflexivity. Qed.

Lemma emit_emits (a : Hid) (st : Globals) : emit a st = emits [a] st.
Proof. reflexivity. Qed.

Lemma cond_emit (c : bool) (a : Hid) (st : Globals) :
  (if c then emit a st else st) = emits (if c then [a] else []) st.
Proof. destruct c; [reflexivity | symmetry; apply emits_nil]. Qed.

(** A set flag is a set bit. *)
Lemma flag_testbit (m i : Z) : 0 <= i -> flag m (2 ^ i) = Z.testbit m i.
Proof.
  intros Hi. unfold flag.
  destruct (Z.eqb_spec (Z.land m (2 ^ i)) 0) as [E|E]; simpl.
  - assert (H : Z.testbit (Z.land m (2 ^ i)) i = false)
      by (rewrite E; apply Z.bits_0).
    rewrite Z.land_spec, Z.pow2_bits_true, andb_true_r in H by exact Hi.
    symmetry. exact H.
  - destruct (Z.testbit m i) eqn:T; [reflexivity|].
    exfalso. apply E. apply Z.bits_inj'. intros n Hn.
    rewrite Z.land_spec, Z.bits_0, Z.pow2_bits_eqb by exact Hi.
    destruct (Z.eqb_spec i n) as [->|_]; [rewrite T|]; simpl;
      [reflexivity | apply andb_false_r].
Qed.

(** [mod_type] emits the wrapped key and touches nothing else. *)
Lemma mod_type_emits (c m : Z) (st : Globals) :
  mod_type c m st = emits (wrapped c m) st.
Proof.
  unfold mod_type, KBD_press, KBD_release, KBD_type.
  rewrite !cond_emit, !emit_emits, !emits_emits.
  f_equal. unfold wrapped, active_mods, mod_table. simpl.
  destruct (flag m 1), (flag m 2), (flag m 4), (flag m 8),
    (flag m 16), (flag m 32), (flag m 64), (flag m 128); reflexivity.
Qed.

Lemma get_type_emits (ev : Event) (n : Z) (st : Globals) :
  get_type ev n st = emits (binding_actions (binding ev (get4 (chars st) n))) st.
Proof.
  unfold get_type, binding_actions.
  destruct (fst (binding ev (get4 (chars st) n)) =? 0).
  - symmetry. apply emits_nil.
  - destruct (snd (binding ev (get4 (chars st) n)) =? 255).
    + reflexivity.
    + apply mod_type_emits.
Qed.

Lemma cond_get_type (c : bool) (ev : Event) (n : Z) (st : Globals) :
  (if c then get_type ev n st else st) =
  emits (if c then binding_actions (binding ev (get4 (chars st) n)) else []) st.
Proof. destruct c; [apply get_type_emits | symmetry; apply emits_nil]. Qed.

(** [parse_type] records the call, emits the layer's sequence followed by
    the fallback sequences, and touches nothing else. *)
Lemma parse_type_emits (ev : Event) (st : Globals) :
  parse_type ev st =
  with_dispatched (dispatched st ++ [ev])
    (emits (binding_actions (binding ev (get4 (chars st) (layer st)))
            ++ fallback_actions ev st) st).
Proof.
  unfold parse_type, fallback_actions.
  rewrite get_type_emits. cbn [layer max_layer chars with_dispatched emits with_hid].
  destruct ((layer st =? 0) && (max_layer st <? 3)).
  - rewrite !cond_get_type.
    cbn [layer max_layer chars with_dispatched emits with_hid hid dispatched].
    unfold emits, with_hid, with_dispatched; simpl.
    rewrite <- !app_assoc. reflexivity.
  - rewrite app_nil_r. reflexivity.
Qed.

Lemma parse_type_layer (ev : Event) (st : Globals) :
  layer (parse_type ev st) = layer st.
Proof. rewrite parse_type_emits. reflexivity. Qed.

Lemma parse_type_max_layer (ev : Event) (st : Globals) :
  max_layer (parse_type ev st) = max_layer st.
Proof. rewrite parse_type_emits. reflexivity. Qed.

Lemma parse_type_dispatched (ev : Event) (st : Globals) :
  dispatched (parse_type ev st) = dispatched st ++ [ev].
Proof. rewrite parse_type_emits. reflexivity. Qed.

Lemma parse_type_hid (ev : Event) (st : Globals) :
  hid (parse_type ev st) =
  hid st ++ binding_actions (binding ev (get4 (chars st) (layer st)))
         ++ fallback_actions ev st.
Proof. rewrite parse_type_emits. reflexivity. Qed.

Lemma active_mods_bits (m : Z) :
  active_mods m = filter (fun k => Z.testbit m (mod_bit k)) mod_order.
Proof.
  unfold active_mods, mod_table, mod_order. cbn [filter fst snd mod_bit].
  rewrite <- (flag_testbit m 0), <- (flag_testbit m 1), <- (flag_testbit m 2),
    <- (flag_testbit m 3), <- (flag_testbit m 4), <- (flag_testbit m 5),
    <- (flag_testbit m 6), <- (flag_testbit m 7) by lia.
  change (2 ^ 0) with 1. change (2 ^ 1) with 2. change (2 ^ 2) with 4.
  change (2 ^ 3) with 8. change (2 ^ 4) with 16. change (2 ^ 5) with 32.
  change (2 ^ 6) with 64. change (2 ^ 7) with 128.
  destruct (flag m 1), (flag m 2), (flag m 4), (flag m 8),
    (flag m 16), (flag m 32), (flag m 64), (flag m 128); reflexivity.
Qed.

(** C8: a binding with a non-zero character and a modifier byte other than
    the sentinel makes the dispatcher press exactly the modifier keys whose
    bit is set, in the order left Ctrl, left Shift, left Alt, left GUI,
    right Ctrl, right Shift, right Alt, right GUI, then type the key, then
    release the same keys in the reverse order. *)
Theorem get_type_modifier_order (ev : Event) (n : Z) (st : Globals) (c m : Z) :
  binding ev (get4 (chars st) n) = (c, m) ->
  c <> 0 ->
  m <> 255 ->
  let mods := filter (fun k => Z.testbit m (mod_bit k)) mod_order in
  hid (get_type ev n st) =
  hid st ++ map Press mods ++ [Tap c] ++ map Release (rev mods).
Proof.
  intros Hb Hc Hm mods. rewrite get_type_emits, Hb.
  unfold binding_actions; simpl fst; simpl snd.
  destruct (Z.eqb_spec c 0) as [E|_]; [contradiction|].
  destruct (Z.eqb_spec m 255) as [E|_]; [contradiction|].
  unfold wrapped. rewrite active_mods_bits. reflexivity.
Qed.

Lemma get_type_modifier_order_witness :
  hid (get_type KEY1 0 (with_chars (fill4 (key1_chars 130 97)) globals0)) =
  [Press KBD_KEY_LEFT_SHIFT; Press KBD_KEY_RIGHT_GUI; Tap 97;
   Release KBD_KEY_RIGHT_GUI; Release KBD_KEY_LEFT_SHIFT].
Proof.
  apply (get_type_modifier_order KEY1 0
           (with_chars (fill4 (key1_chars 130 97)) globals0) 97 130).
  - reflexivity.
  - lia.
  - lia.
Defined.

(** C1 (counterexample): on layer 0 with [max_layer = 0], a key bound on
    layer 0 and on layer 1 types both bindings, although the binding of
    layer 0 is not empty. *)
Lemma parse_type_layer0_types_both :
  layer two_bound_layers = 0 /\
  0 <= layer two_bound_layers <= max_layer two_bound_layers /\
  fst (binding KEY1 (get4 (chars two_bound_layers) 0)) <> 0 /\
  hid (parse_type KEY1 two_bound_layers) = [Tap 97; Tap 98] /\
  hid (parse_type KEY1 two_bound_layers) <>
  hid two_bound_layers
  ++ binding_actions (binding KEY1 (get4 (chars two_bound_layers) 0)).
Proof.
  vm_compute. repeat split; try discriminate.
Qed.

(** C1 (amended): with the current layer L in 0..3 and at most
    [max_layer], dispatching an Event emits first the sequence of L's
    binding: nothing when its character is zero, otherwise the
    consumer-control code under the sentinel and the modifier-wrapped key
    under any other modifier.  On a layer other than 0, or with
    [max_layer >= 3], nothing else is emitted.  On layer 0 with
    [max_layer < 3], whether or not layer 0 binds the Event, the sequences
    bound to the same Event on layer 1, then on layer 2 when
    [max_layer <= 1], then on layer 3 when [max_layer = 0] follow. *)
Theorem parse_type_dispatch (ev : Event) (st : Globals) :
  0 <= layer st <= 3 ->
  layer st <= max_layer st ->
  let seq := fun n : Z =>
    let c := fst (binding ev (get4 (chars st) n)) in
    let m := snd (binding ev (get4 (chars st) n)) in
    if c =? 0 then []
    else if m =? 255 then [Consumer c]
    else map Press (active_mods m) ++ [Tap c] ++ map Release (rev (active_mods m)) in
  (layer st <> 0 \/ 3 <= max_layer st ->
     hid (parse_type ev st) = hid st ++ seq (layer st)) /\
  (layer st = 0 -> max_layer st = 2 ->
     hid (parse_type ev st) = hid st ++ seq 0 ++ seq 1) /\
  (layer st = 0 -> max_layer st = 1 ->
     hid (parse_type ev st) = hid st ++ seq 0 ++ seq 1 ++ seq 2) /\
  (layer st = 0 -> max_layer st = 0 ->
     hid (parse_type ev st) = hid st ++ seq 0 ++ seq 1 ++ seq 2 ++ seq 3) /\
  (layer st = 0 -> max_layer st < 3 ->
   fst (binding ev (get4 (chars st) 0)) = 0 ->
     hid (parse_type ev st) =
     hid st ++ seq 1 ++ (if max_layer st <=? 1 then seq 2 else [])
            ++ (if max_layer st <=? 0 then seq 3 else [])).
Proof.
  intros Hl Hm seq.
  assert (Hseq : forall n, binding_actions (binding ev (get4 (chars st) n)) = seq n)
    by reflexivity.
  rewrite parse_type_hid. unfold fallback_actions. rewrite !Hseq.
  split; [|split; [|split; [|split]]].
  - intros H.
    destruct (Z.eqb_spec (layer st) 0) as [E0|E0];
      destruct (Z.ltb_spec (max_layer st) 3) as [E3|E3]; cbn [andb];
      rewrite ?app_nil_r; try reflexivity.
    lia.
  - intros E0 E1. rewrite E0, E1. cbn. rewrite ?app_nil_r. reflexivity.
  - intros E0 E1. rewrite E0, E1. cbn. rewrite ?app_nil_r. reflexivity.
  - intros E0 E1. rewrite E0, E1. cbn. reflexivity.
  - intros E0 E3 Ec. rewrite E0.
    destruct (Z.ltb_spec (max_layer st) 3) as [_|F]; [|lia].
    assert (L2 : (max_layer st <=? 2) = true) by (apply Z.leb_le; lia).
    rewrite L2. cbn [Z.eqb andb].
    assert (S0 : seq 0 = []).
    { subst seq. cbv beta zeta. rewrite Ec. reflexivity. }
    rewrite S0. reflexivity.
Qed.

Lemma parse_type_dispatch_witness :
  hid (parse_type KEY1 layer1_only) = [Tap 98] /\
  hid (parse_type KEY1 (with_chars (fill4 (key1_chars 255 233))
                          (with_max_layer 3 (with_layer 2 globals0)))) =
  [Consumer 233].
Proof.
  split.
  - assert (Hl : 0 <= layer layer1_only <= 3) by (simpl; lia).
    assert (Hm : layer layer1_only <= max_layer layer1_only) by (simpl; lia).
    assert (H3 : max_layer layer1_only < 3) by (simpl; lia).
    exact (proj2 (proj2 (proj2 (proj2
             (parse_type_dispatch KEY1 layer1_only Hl Hm)))) eq_refl H3 eq_refl).
  - assert (Hl : 0 <= layer (with_chars (fill4 (key1_chars 255 233))
                              (with_max_layer 3 (with_layer 2 globals0))) <= 3)
      by (simpl; lia).
    assert (Hm : layer (with_chars (fill4 (key1_chars 255 233))
                          (with_max_layer 3 (with_layer 2 globals0)))
                 <= max_layer (with_chars (fill4 (key1_chars 255 233))
                                 (with_max_layer 3 (with_layer 2 globals0))))
      by (simpl; lia).
    assert (Hn : layer (with_chars (fill4 (key1_chars 255 233))
                          (with_max_layer 3 (with_layer 2 globals0))) <> 0)
      by (simpl; lia).
    exact (proj1 (parse_type_dispatch KEY1 _ Hl Hm) (or_introl Hn)).
Defined.

(* ================================================================== *)
(** ** Layer selection *)

Section ParseLayer.

Variable dir : Z.
Variable st : Globals.

(** The clamp at the head of [parse_layer]. *)
Lemma parse_layer_max_layer :
  max_layer (parse_layer dir st) = Z.min (max_layer st) 3.
Proof.
  unfold parse_layer.
  set (c := if 3 <? max_layer st then with_max_layer 3 st else st).
  assert (Hc : max_layer c = Z.min (max_layer st) 3).
  { subst c. destruct (Z.ltb_spec 3 (max_layer st)); simpl; lia. }
  rewrite <- Hc. clear Hc.
  destruct (dir =? 0); [reflexivity|].
  destruct (max_layer c) as [|[[?|?|]|[?|?|]|]|?] eqn:E;
    cbn [layer max_layer with_layer];
    repeat match goal with
           | |- context [if ?t then _ else _] => destruct t
           end;
    cbn [max_layer with_layer]; exact E.
Qed.

Lemma parse_layer_reset : dir = 0 -> layer (parse_layer dir st) = 0.
Proof.
  intros ->. unfold parse_layer. simpl.
  destruct (3 <? max_layer st); reflexivity.
Qed.

Lemma parse_layer_none : max_layer st = 0 -> layer (parse_layer dir st) = 0.
Proof.
  intros E. unfold parse_layer. rewrite E. simpl. rewrite E.
  destruct (dir =? 0); reflexivity.
Qed.

Lemma parse_layer_one :
  max_layer st = 1 -> dir <> 0 -> layer (parse_layer dir st) = 3.
Proof.
  intros E Hd. unfold parse_layer. rewrite E. simpl. rewrite E.
  destruct (Z.eqb_spec dir 0); [contradiction | reflexivity].
Qed.

Lemma parse_layer_two :
  max_layer st = 2 -> dir <> 0 ->
  layer (parse_layer dir st) = if dir <? 0 then 3 else 2.
Proof.
  intros E Hd. unfold parse_layer. rewrite E. simpl. rewrite E.
  destruct (Z.eqb_spec dir 0); [contradiction|].
  destruct (Z.ltb_spec 0 dir); destruct (Z.ltb_spec dir 0);
    try reflexivity; lia.
Qed.

(** With three or more configured layers the step is cyclic on 1..3,
    whatever byte the layer held before. *)
Lemma parse_layer_three :
  3 <= max_layer st -> dir <> 0 ->
  let x := u8 (layer st + dir) in
  layer (parse_layer dir st) = if 3 <? x then 1 else if x <? 1 then 3 else x.
Proof.
  intros E Hd x. unfold parse_layer.
  assert (Hm : max_layer (if 3 <? max_layer st then with_max_layer 3 st else st) = 3).
  { destruct (Z.ltb_spec 3 (max_layer st)); simpl; lia. }
  assert (Hl : layer (if 3 <? max_layer st then with_max_layer 3 st else st) = layer st).
  { destruct (3 <? max_layer st); reflexivity. }
  destruct (Z.eqb_spec dir 0); [contradiction|].
  rewrite Hm. cbn [layer with_layer]. rewrite Hl. fold x.
  destruct (Z.ltb_spec 3 x); cbn [layer with_layer].
  - reflexivity.
  - destruct (Z.ltb_spec x 1); reflexivity.
Qed.

Lemma parse_layer_range :
  0 <= max_layer st -> 0 <= layer (parse_layer dir st) <= 3.
Proof.
  intros Hm.
  destruct (Z.eq_dec dir 0) as [E|E]; [rewrite parse_layer_reset by exact E; lia|].
  assert (C : max_layer st = 0 \/ max_layer st = 1 \/ max_layer st = 2
              \/ 3 <= max_layer st) by lia.
  destruct C as [C|[C|[C|C]]].
  - rewrite parse_layer_none by exact C. lia.
  - rewrite parse_layer_one by assumption. lia.
  - rewrite parse_layer_two by assumption. destruct (dir <? 0); lia.
  - rewrite parse_layer_three by assumption.
    destruct (Z.ltb_spec 3 (u8 (layer st + dir))); [lia|].
    destruct (Z.ltb_spec (u8 (layer st + dir)) 1); lia.
Qed.

End ParseLayer.

(** C2 (counterexample): with one configured layer, a rotation step from
    layer 0 selects layer 3, which is above [max_layer]. *)
Lemma parse_layer_exceeds_max_layer :
  let st' := parse_layer 1 (with_max_layer 1 globals0) in
  layer st' = 3 /\ max_layer st' = 1 /\ ~ (layer st' <= max_layer st').
Proof. vm_compute. repeat split; intros H; apply H; reflexivity. Qed.

(** C2 (amended): every layer change, by a rotation step or by the idle
    timeout, leaves the layer in 0..3, from any layer byte, any direction
    and any [max_layer] byte.  The result is at most [max_layer] after the
    idle timeout, with [max_layer = 0] and with [max_layer >= 3]; a rotation
    step gives 3 with [max_layer = 1] and gives 2 or 3 with
    [max_layer = 2]. *)
Theorem parse_layer_bounds (dir : Z) (st : Globals) :
  0 <= max_layer st ->
  let st' := parse_layer dir st in
  0 <= layer st' <= 3 /\
  (dir = 0 \/ max_layer st = 0 \/ 3 <= max_layer st ->
     layer st' <= max_layer st' /\ layer st' <= max_layer st) /\
  (dir <> 0 -> max_layer st = 1 -> layer st' = 3) /\
  (dir <> 0 -> max_layer st = 2 -> layer st' = 2 \/ layer st' = 3).
Proof.
  intros Hm st'. subst st'.
  pose proof (parse_layer_range dir st Hm) as R.
  split; [exact R|]. split; [|split].
  - rewrite parse_layer_max_layer. intros [H|[H|H]].
    + rewrite parse_layer_reset by exact H. lia.
    + rewrite parse_layer_none by exact H. lia.
    + lia.
  - intros Hd E. apply parse_layer_one; assumption.
  - intros Hd E. rewrite parse_layer_two by assumption.
    destruct (dir <? 0); [right | left]; reflexivity.
Qed.

Lemma parse_layer_bounds_witness :
  0 <= layer (parse_layer (-1) (with_max_layer 200 globals0)) <= 3.
Proof.
  assert (H : 0 <= max_layer (with_max_layer 200 globals0)) by (simpl; lia).
  exact (proj1 (parse_layer_bounds (-1) (with_max_layer 200 globals0) H)).
Defined.

(** A direction step with the switch released dispatches [ENC_CW] when the
    step is negative and [ENC_CCW] when it is positive. *)
Lemma released_rotation_dispatch (l : Locals) (st : Globals) :
  keyenc l = false ->
  encoder_dir l <> 0 ->
  dispatched (snd (apply_rotation l st)) =
  dispatched st ++ [if encoder_dir l <? 0 then ENC_CW else ENC_CCW].
Proof.
  intros Hk Hd. unfold apply_rotation. rewrite Hk.
  destruct (Z.ltb_spec 0 (encoder_dir l)); destruct (Z.ltb_spec (encoder_dir l) 0);
    cbn [snd]; try lia; apply parse_type_dispatched.
Qed.

(** A direction step with the switch held and at least one configured layer
    is a call of [parse_layer], unless the idle timeout fires in the same
    iteration, which resets the layer to 0. *)
Lemma held_rotation_parse_layer (l : Locals) (st : Globals) :
  keyenc l = true ->
  encoder_dir l <> 0 ->
  0 < max_layer st ->
  snd (apply_rotation l st) =
  if 200 <? knob l then parse_layer 0 (parse_layer (encoder_dir l) st)
  else parse_layer (encoder_dir l) st.
Proof.
  intros Hk Hd Hm. unfold apply_rotation. rewrite Hk.
  destruct (Z.eqb_spec (encoder_dir l) 0) as [E|_]; [contradiction|].
  destruct (Z.ltb_spec 0 (max_layer st)) as [_|F]; [|lia].
  cbn [negb fst snd].
  rewrite parse_layer_max_layer.
  destruct (Z.ltb_spec 0 (Z.min (max_layer st) 3)) as [_|F]; [|lia].
  cbn [knob set_show_mode set_mode_changed].
  destruct (200 <? knob l); cbn [fst snd mode_changed set_mode_changed set_show_mode];
    reflexivity.
Qed.

(** C5 (counterexample): with two configured layers, the direction that
    dispatches [ENC_CW] when the switch is released selects layer 3, not
    layer 2, when the switch is held; with three configured layers, three
    such steps from layer 1 visit 3, 2, 1, not 2, 3, 1. *)
Lemma clockwise_held_selects_layer3 :
  let st2 := with_max_layer 2 globals0 in
  let st3 := with_max_layer 3 (with_layer 1 globals0) in
  let s1 := snd (apply_rotation (turning true (-1)) st3) in
  let s2 := snd (apply_rotation (turning true (-1)) s1) in
  let s3 := snd (apply_rotation (turning true (-1)) s2) in
  dispatched (snd (apply_rotation (turning false (-1)) st2)) = [ENC_CW] /\
  layer (snd (apply_rotation (turning true (-1)) st2)) = 3 /\
  layer (snd (apply_rotation (turning true (-1)) st2)) <> 2 /\
  [layer s1; layer s2; layer s3] = [3; 2; 1] /\
  [layer s1; layer s2; layer s3] <> [2; 3; 1].
Proof. vm_compute. repeat split; discriminate. Qed.

(** C5 (amended): a rotation step while the encoder switch is held (and the
    idle timeout does not fire in the same iteration) sets the layer by
    [max_layer].  With [max_layer = 1] the layer becomes 3 in both
    directions from any layer.  With [max_layer = 2] the counterclockwise
    step selects layer 2 and the clockwise step selects layer 3, clockwise
    being the direction that dispatches [ENC_CW] when the switch is
    released (a negative step).  With [max_layer = 3] the counterclockwise
    step goes 1, 2, 3, 1 and the clockwise step goes 1, 3, 2, 1; from layer
    1, three counterclockwise steps visit 2, 3, 1 and three clockwise steps
    visit 3, 2, 1. *)
Theorem held_rotation_layer (l : Locals) (st : Globals) :
  encoder_dir l <> 0 ->
  let d := encoder_dir l in
  let st' := parse_layer d st in
  (keyenc l = false ->
     dispatched (snd (apply_rotation l st)) =
     dispatched st ++ [if d <? 0 then ENC_CW else ENC_CCW]) /\
  (keyenc l = true -> 0 < max_layer st -> knob l <= 200 ->
     snd (apply_rotation l st) = st') /\
  (max_layer st = 1 -> layer st' = 3) /\
  (max_layer st = 2 -> layer st' = if d <? 0 then 3 else 2) /\
  (max_layer st = 3 -> 1 <= layer st <= 3 ->
     max_layer st' = 3 /\
     (d = 1 -> layer st' = if layer st =? 3 then 1 else layer st + 1) /\
     (d = -1 -> layer st' = if layer st =? 1 then 3 else layer st - 1)) /\
  (max_layer st = 3 -> layer st = 1 ->
     (d = 1 ->
        layer st' = 2 /\ layer (parse_layer d st') = 3 /\
        layer (parse_layer d (parse_layer d st')) = 1) /\
     (d = -1 ->
        layer st' = 3 /\ layer (parse_layer d st') = 2 /\
        layer (parse_layer d (parse_layer d st')) = 1)).
Proof.
  intros Hd d st'.
  assert (Step : forall s, max_layer s = 3 -> 1 <= layer s <= 3 ->
            max_layer (parse_layer d s) = 3 /\
            (d = 1 -> layer (parse_layer d s) =
                      if layer s =? 3 then 1 else layer s + 1) /\
            (d = -1 -> layer (parse_layer d s) =
                       if layer s =? 1 then 3 else layer s - 1)).
  { intros s Hm Hl. split; [rewrite parse_layer_max_layer; lia|].
    split; intros E; rewrite parse_layer_three by lia; cbv zeta; rewrite E.
    - rewrite u8_small by lia.
      destruct (Z.ltb_spec 3 (layer s + 1)); destruct (Z.eqb_spec (layer s) 3);
        try lia.
      destruct (Z.ltb_spec (layer s + 1) 1); lia.
    - rewrite u8_small by lia.
      destruct (Z.ltb_spec 3 (layer s + -1)); destruct (Z.eqb_spec (layer s) 1);
        try lia; destruct (Z.ltb_spec (layer s + -1) 1); lia. }
  split; [intros Hk; apply released_rotation_dispatch; assumption|].
  split.
  { intros Hk Hm Hn. rewrite held_rotation_parse_layer by assumption.
    destruct (Z.ltb_spec 200 (knob l)); [lia | reflexivity]. }
  split; [intros E; apply parse_layer_one; assumption|].
  split; [intros E; apply parse_layer_two; assumption|].
  split; [intros Hm Hl; apply Step; assumption|].
  intros Hm Hl.
  destruct (Step st Hm ltac:(lia)) as (M1 & U1 & D1).
  split; intros E.
  - specialize (U1 E). rewrite Hl in U1. simpl in U1.
    fold st' in M1, U1.
    destruct (Step st' M1 ltac:(lia)) as (M2 & U2 & _).
    specialize (U2 E). rewrite U1 in U2. simpl in U2.
    destruct (Step (parse_layer d st') M2 ltac:(lia)) as (_ & U3 & _).
    specialize (U3 E). rewrite U2 in U3. simpl in U3.
    auto.
  - specialize (D1 E). rewrite Hl in D1. simpl in D1.
    fold st' in M1, D1.
    destruct (Step st' M1 ltac:(lia)) as (M2 & _ & D2).
    specialize (D2 E). rewrite D1 in D2. simpl in D2.
    destruct (Step (parse_layer d st') M2 ltac:(lia)) as (_ & _ & D3).
    specialize (D3 E). rewrite D2 in D3. simpl in D3.
    auto.
Qed.

Lemma held_rotation_layer_witness :
  layer (parse_layer (encoder_dir (turning true 1))
           (with_max_layer 2 globals0)) = 2.
Proof.
  assert (H : encoder_dir (turning true 1) <> 0) by (simpl; lia).
  exact (proj1 (proj2 (proj2 (proj2
           (held_rotation_layer (turning true 1) (with_max_layer 2 globals0) H))))
         eq_refl).
Defined.

(* ================================================================== *)
(** ** Startup decoding *)

Lemma get4_set4_same {A : Type} (a : Arr4 A) (i : Z) (v : A) :
  0 <= i <= 3 -> get4 (set4 a i v) i = v.
Proof.
  intros H. assert (C : i = 0 \/ i = 1 \/ i = 2 \/ i = 3) by lia.
  destruct C as [->|[->|[->| ->]]]; reflexivity.
Qed.

Lemma get4_set4_other {A : Type} (a : Arr4 A) (i j : Z) (v : A) :
  0 <= i <= 3 -> 0 <= j <= 3 -> i <> j -> get4 (set4 a j v) i = get4 a i.
Proof.
  intros Hi Hj Hn.
  assert (Ci : i = 0 \/ i = 1 \/ i = 2 \/ i = 3) by lia.
  assert (Cj : j = 0 \/ j = 1 \/ j = 2 \/ j = 3) by lia.
  destruct Ci as [->|[->|[->| ->]]]; destruct Cj as [->|[->|[->| ->]]];
    try reflexivity; lia.
Qed.

Lemma set4_set4 {A : Type} (a : Arr4 A) (i : Z) (v w : A) :
  set4 (set4 a i v) i w = set4 a i w.
Proof. destruct i as [|[[|[]|]|[|[]|]|]|]; reflexivity. Qed.

Lemma lor3_eqb (x y z : Z) :
  (Z.lor (Z.lor x y) z =? 0) = (x =? 0) && (y =? 0) && (z =? 0).
Proof.
  destruct (Z.eqb_spec (Z.lor (Z.lor x y) z) 0) as [E|E].
  - apply Z.lor_eq_0_iff in E. destruct E as [E ->].
    apply Z.lor_eq_0_iff in E. destruct E as [-> ->]. reflexivity.
  - destruct (Z.eqb_spec x 0) as [->|]; [|reflexivity].
    destruct (Z.eqb_spec y 0) as [->|]; [|reflexivity].
    destruct (Z.eqb_spec z 0) as [->|]; [|reflexivity].
    exfalso. apply E. reflexivity.
Qed.

Lemma or_default_code (dr dg x y z : Z) :
  (if Z.lor (Z.lor x y) z =? 0
   then {| r := dr; g := dg; b := z |}
   else {| r := x; g := y; b := z |}) =
  or_default {| r := dr; g := dg; b := 0 |} {| r := x; g := y; b := z |}.
Proof.
  rewrite lor3_eqb. unfold or_default, is_black. cbn [r g b].
  destruct (Z.eqb_spec x 0); destruct (Z.eqb_spec y 0);
    destruct (Z.eqb_spec z 0); cbn [andb]; subst; reflexivity.
Qed.

Lemma set4_get4 {A : Type} (a : Arr4 A) (i : Z) :
  0 <= i <= 3 -> set4 a i (get4 a i) = a.
Proof.
  intros H. assert (C : i = 0 \/ i = 1 \/ i = 2 \/ i = 3) by lia.
  destruct a. destruct C as [->|[->|[->| ->]]]; reflexivity.
Qed.

Lemma read_layer_eq (rom : Z -> Z) (i : Z) (st : Globals) :
  0 <= i <= 3 ->
  read_layer rom i st =
  {| neo := neo st;
     neobg := set4 (neobg st) i (stored_rgb rom i 28);
     neofg := set4 (neofg st) i (stored_rgb rom i 12);
     neofade := set4 (neofade st) i (stored_rgb rom i 24);
     layer := layer st;
     max_layer := stored rom i 15;
     chars := set4 (chars st) i (stored_chars rom i);
     hid := hid st;
     dispatched := dispatched st |}.
Proof.
  intros Hi.
  assert (A : forall k, 0 <= k < 32 -> u8 (u8 (i * 32) + k) = i * 32 + k).
  { intros k Hk. rewrite (u8_small (i * 32)) by lia. apply u8_small. lia. }
  unfold read_layer. cbv zeta. rewrite !A by lia. reflexivity.
Qed.

Lemma default_foreground_eq (i : Z) (st : Globals) :
  0 <= i <= 3 ->
  default_foreground i st =
  with_neofg (set4 (neofg st) i (or_default default_fg (get4 (neofg st) i))) st.
Proof.
  intros Hi. unfold default_foreground. cbv zeta.
  destruct (get4 (neofg st) i) as [x y z] eqn:E. cbn [r g b].
  unfold default_fg. rewrite <- (or_default_code 255 22).
  destruct (Z.lor (Z.lor x y) z =? 0); [reflexivity|].
  rewrite <- E, set4_get4 by exact Hi. destruct st; reflexivity.
Qed.

Lemma default_background_eq (i : Z) (st : Globals) :
  0 <= i <= 3 ->
  default_background i st =
  with_neobg (set4 (neobg st) i (or_default default_bg (get4 (neobg st) i))) st.
Proof.
  intros Hi. unfold default_background. cbv zeta.
  destruct (get4 (neobg st) i) as [x y z] eqn:E. cbn [r g b].
  unfold default_bg. rewrite <- (or_default_code 12 1).
  destruct (Z.lor (Z.lor x y) z =? 0); [reflexivity|].
  rewrite <- E, set4_get4 by exact Hi. destruct st; reflexivity.
Qed.

Lemma minimum_fade_eq (i : Z) (st : Globals) :
  0 <= i <= 3 ->
  minimum_fade i st =
  with_neofade (set4 (neofade st) i (fade_min1 (get4 (neofade st) i))) st.
Proof.
  intros Hi. unfold minimum_fade, fade_min1.
  destruct (get4 (neofade st) i) as [x y z] eqn:E. cbn [r g b].
  assert (Eta : with_neofade (set4 (neofade st) i {| r := x; g := y; b := z |}) st = st).
  { rewrite <- E, set4_get4 by exact Hi. destruct st; reflexivity. }
  destruct (x =? 0) eqn:Ex; destruct (y =? 0) eqn:Ey; destruct (z =? 0) eqn:Ez;
    cbv zeta;
    repeat (cbn [neofade with_neofade r g b];
            rewrite ?E, ?get4_set4_same, ?Ex, ?Ey, ?Ez, ?set4_set4 by exact Hi);
    try reflexivity; try (symmetry; exact Eta).
Qed.

Lemma decode_layer_eq (rom : Z -> Z) (i : Z) (st : Globals) :
  0 <= i <= 3 ->
  decode_layer rom i st =
  {| neo := neo st;
     neobg := set4 (neobg st) i (or_default default_bg (stored_rgb rom i 28));
     neofg := set4 (neofg st) i (or_default default_fg (stored_rgb rom i 12));
     neofade := set4 (neofade st) i (fade_min1 (stored_rgb rom i 24));
     layer := layer st;
     max_layer := stored rom i 15;
     chars := set4 (chars st) i (stored_chars rom i);
     hid := hid st;
     dispatched := dispatched st |}.
Proof.
  intros Hi. unfold decode_layer.
  rewrite minimum_fade_eq, default_background_eq, default_foreground_eq,
    read_layer_eq by exact Hi.
  cbn [neo neobg neofg neofade layer max_layer chars hid dispatched
       with_neobg with_neofg with_neofade].
  rewrite !get4_set4_same, !set4_set4 by exact Hi.
  reflexivity.
Qed.

Lemma get4_tabulate4 {A : Type} (f : Z -> A) (i : Z) :
  0 <= i <= 3 -> get4 (tabulate4 f) i = f i.
Proof.
  intros H. assert (C : i = 0 \/ i = 1 \/ i = 2 \/ i = 3) by lia.
  destruct C as [->|[->|[->| ->]]]; reflexivity.
Qed.

(** The four iterations overwrite every table slot, and the last one
    leaves its own max-layer byte in [max_layer]. *)
Lemma decode_all_eq (rom : Z -> Z) (st : Globals) :
  decode_all rom st =
  {| neo := neo st;
     neobg := tabulate4 (fun i => or_default default_bg (stored_rgb rom i 28));
     neofg := tabulate4 (fun i => or_default default_fg (stored_rgb rom i 12));
     neofade := tabulate4 (fun i => fade_min1 (stored_rgb rom i 24));
     layer := layer st;
     max_layer := stored rom 3 15;
     chars := tabulate4 (stored_chars rom);
     hid := hid st;
     dispatched := dispatched st |}.
Proof.
  unfold decode_all. cbn [fold_left].
  rewrite !decode_layer_eq by lia.
  reflexivity.
Qed.

Lemma set_neo_rgb_tables (n rv gv bv : Z) (st : Globals) :
  set_neo_rgb n rv gv bv st = with_neo (neo (set_neo_rgb n rv gv bv st)) st.
Proof.
  unfold set_neo_rgb, set_neo_rgb1. destruct (n =? 0); reflexivity.
Qed.

Lemma set_neo_fg_tables (n : Z) (st : Globals) :
  set_neo_fg n st = with_neo (neo (set_neo_fg n st)) st.
Proof.
  unfold set_neo_fg, set_neo_fg1.
  destruct (n =? 0).
  - rewrite (set_neo_rgb_tables 3), (set_neo_rgb_tables 2), (set_neo_rgb_tables 1).
    reflexivity.
  - apply set_neo_rgb_tables.
Qed.

Lemma startup_warning_tables (st : Globals) :
  startup_warning st = with_neo (neo (startup_warning st)) st.
Proof.
  unfold startup_warning.
  destruct (Z.lor _ _ =? 0); [reflexivity | destruct st; reflexivity].
Qed.

Lemma with_neo_neo (a : Arr4 RGB) (st st' : Globals) :
  st = with_neo a st' -> st = with_neo (neo st) st'.
Proof. intros ->. reflexivity. Qed.

Lemma with_neo_with_neo (a c : Arr4 RGB) (st : Globals) :
  with_neo a (with_neo c st) = with_neo a st.
Proof. reflexivity. Qed.

(** After startup only [neo] differs from the decoded tables. *)
Lemma startup_tables (rom : Z -> Z) :
  startup rom = with_neo (neo (startup rom)) (decode_all rom globals0).
Proof.
  assert (E : exists a, startup rom = with_neo a (decode_all rom globals0)).
  { unfold startup. cbv zeta.
    generalize (decode_all rom globals0). intros D.
    rewrite (set_neo_fg_tables 3). generalize (neo (set_neo_fg 3 (set_neo_fg 2 (set_neo_fg 1 (startup_warning D))))).
    intros n3.
    rewrite (set_neo_fg_tables 2), with_neo_with_neo.
    rewrite (set_neo_fg_tables 1), with_neo_with_neo.
    rewrite startup_warning_tables, with_neo_with_neo.
    exists n3. reflexivity. }
  destruct E as [a E]. apply with_neo_neo with a. exact E.
Qed.

Lemma is_black_iff (c : RGB) : is_black c = true <-> c = black.
Proof.
  destruct c as [x y z]. unfold is_black, black. cbn [r g b]. split.
  - intros H. apply andb_true_iff in H. destruct H as [H Hz].
    apply andb_true_iff in H. destruct H as [Hx Hy].
    apply Z.eqb_eq in Hx, Hy, Hz. subst. reflexivity.
  - intros H. injection H as -> -> ->. reflexivity.
Qed.

Lemma or_default_black (d c : RGB) : c = black -> or_default d c = d.
Proof.
  intros H. unfold or_default.
  destruct (is_black c) eqn:E; [reflexivity|].
  apply is_black_iff in H. congruence.
Qed.

Lemma or_default_kept (d c : RGB) : c <> black -> or_default d c = c.
Proof.
  intros H. unfold or_default.
  destruct (is_black c) eqn:E; [|reflexivity].
  apply is_black_iff in E. contradiction.
Qed.

(** C9: after startup, for each of the four layers, a stored foreground
    that is all zero has become the built-in foreground (255, 22, 0), a
    stored background that is all zero has become the built-in background
    (12, 1, 0), any other stored foreground or background is kept, and each
    fade-rate channel is the stored one, or 1 where zero was stored. *)
Theorem startup_color_defaults (rom : Z -> Z) (i : Z) :
  0 <= i <= 3 ->
  let st := startup rom in
  let sfg := stored_rgb rom i 12 in
  let sbg := stored_rgb rom i 28 in
  let sfd := stored_rgb rom i 24 in
  (sfg = black -> get4 (neofg st) i = {| r := 255; g := 22; b := 0 |}) /\
  (sfg <> black -> get4 (neofg st) i = sfg) /\
  (sbg = black -> get4 (neobg st) i = {| r := 12; g := 1; b := 0 |}) /\
  (sbg <> black -> get4 (neobg st) i = sbg) /\
  r (get4 (neofade st) i) = (if r sfd =? 0 then 1 else r sfd) /\
  g (get4 (neofade st) i) = (if g sfd =? 0 then 1 else g sfd) /\
  b (get4 (neofade st) i) = (if b sfd =? 0 then 1 else b sfd).
Proof.
  intros Hi st sfg sbg sfd. subst st.
  rewrite startup_tables, decode_all_eq.
  cbn [neofg neobg neofade with_neo].
  rewrite !get4_tabulate4 by exact Hi.
  fold sfg. fold sbg. fold sfd.
  repeat split.
  - apply or_default_black.
  - apply or_default_kept.
  - apply or_default_black.
  - apply or_default_kept.
Qed.

(** Direct comparison on an erased data flash. *)
Lemma startup_color_defaults_witness :
  get4 (neofg (startup erased)) 2 = default_fg.
Proof.
  assert (H : 0 <= 2 <= 3) by lia.
  exact (proj1 (startup_color_defaults erased 2 H) eq_refl).
Defined.

Lemma stored_agree (rom rom' : Z -> Z) :
  (forall a, a <> 15 -> a <> 47 -> a <> 79 -> rom a = rom' a) ->
  forall i k, i * 32 + k <> 15 -> i * 32 + k <> 47 -> i * 32 + k <> 79 ->
  stored rom i k = stored rom' i k.
Proof.
  intros H i k H1 H2 H3. unfold stored, eeprom_read_byte.
  rewrite H by assumption. reflexivity.
Qed.

(** C10: after startup [max_layer] is the byte stored at offset 15 of layer
    3 (address 111); two data flash contents that differ only in the
    max-layer bytes of layers 0, 1 and 2 (addresses 15, 47, 79) give the
    same state after startup and the same run on every input. *)
Theorem startup_max_layer_is_layer3_byte (rom rom' : Z -> Z) :
  max_layer (startup rom) = eeprom_read_byte rom 111 /\
  ((forall a, a <> 15 -> a <> 47 -> a <> 79 -> rom a = rom' a) ->
   startup rom = startup rom' /\
   forall p ps, run rom p ps = run rom' p ps).
Proof.
  split.
  - rewrite startup_tables, decode_all_eq. reflexivity.
  - intros H.
    assert (D : decode_all rom globals0 = decode_all rom' globals0).
    { rewrite !decode_all_eq.
      unfold tabulate4, stored_rgb, stored_chars.
      rewrite !(stored_agree rom rom' H) by lia.
      reflexivity. }
    assert (S : startup rom = startup rom').
    { unfold startup. rewrite D. reflexivity. }
    split; [exact S|].
    intros p ps. unfold run, main_init. rewrite S. reflexivity.
Qed.

Lemma startup_max_layer_is_layer3_byte_witness :
  startup erased = startup erased_but_max_layers.
Proof.
  apply (startup_max_layer_is_layer3_byte erased erased_but_max_layers).
  intros a H1 H2 H3. unfold erased, erased_but_max_layers.
  destruct (Z.eqb_spec a 15); [contradiction|].
  destruct (Z.eqb_spec a 47); [contradiction|].
  destruct (Z.eqb_spec a 79); [contradiction|].
  reflexivity.
Defined.

(* ================================================================== *)
(** ** Quadrature decoder *)

(** The decoder reads only its own state and accumulator. *)
Lemma poll_quadrature_enc (p : Pins) (l : Locals) :
  let l' := poll_quadrature p l in
  let m := poll_quadrature p (enc (encoder_state l) (encoder_value l)) in
  encoder_state l' = encoder_state m /\
  encoder_value l' = encoder_value m /\
  encoder_dir l' = encoder_dir m.
Proof. repeat split. Qed.

Lemma poll_quadrature_spec (p : Pins) (l : Locals) :
  0 <= encoder_state l <= 3 ->
  -3 <= encoder_value l <= 3 ->
  let i := encoder_state l + 4 * phase p in
  let t := encoder_value l + nth (Z.to_nat i) encoder_factor 0 in
  let l' := poll_quadrature p l in
  encoder_state l' = phase p /\
  encoder_dir l' = (if 4 <=? t then -1 else if t <=? -4 then 1 else 0) /\
  encoder_value l' = (if 4 <=? t then t - 4 else if t <=? -4 then t + 4 else t) /\
  -3 <= encoder_value l' <= 3.
Proof.
  intros He Hv i t l'.
  destruct (poll_quadrature_enc p l) as (E1 & E2 & E3).
  subst l'. rewrite E1, E2, E3. subst i t. clear E1 E2 E3.
  destruct p as [k1 k2 k3 sw pa pb]. unfold phase. cbn [PIN_ENC_A PIN_ENC_B].
  generalize dependent (encoder_value l). generalize dependent (encoder_state l).
  intros e He v Hv.
  assert (Ce : e = 0 \/ e = 1 \/ e = 2 \/ e = 3) by lia.
  assert (Cv : v = -3 \/ v = -2 \/ v = -1 \/ v = 0 \/ v = 1 \/ v = 2 \/ v = 3) by lia.
  destruct Ce as [->|[->|[->| ->]]];
    destruct Cv as [->|[->|[->|[->|[->|[->| ->]]]]]];
    destruct pa, pb; vm_compute; repeat split; discriminate.
Qed.

(** Re-sampling the phase the decoder already holds changes neither state
    nor accumulator and gives no direction step. *)
Lemma poll_quadrature_resample (p : Pins) (l : Locals) :
  0 <= encoder_state l <= 3 ->
  -3 <= encoder_value l <= 3 ->
  phase p = encoder_state l ->
  let l' := poll_quadrature p l in
  encoder_state l' = encoder_state l /\
  encoder_value l' = encoder_value l /\
  encoder_dir l' = 0.
Proof.
  intros He Hv Hp l'.
  destruct (poll_quadrature_spec p l He Hv) as (S1 & S2 & S3 & _).
  fold l' in S1, S2, S3. rewrite Hp in S1, S2, S3.
  assert (F : nth (Z.to_nat (encoder_state l + 4 * encoder_state l)) encoder_factor 0 = 0).
  { assert (Ce : encoder_state l = 0 \/ encoder_state l = 1
                 \/ encoder_state l = 2 \/ encoder_state l = 3) by lia.
    destruct Ce as [->|[->|[->| ->]]]; reflexivity. }
  rewrite F, Z.add_0_r in S2, S3.
  destruct (Z.leb_spec 4 (encoder_value l)); [lia|].
  destruct (Z.leb_spec (encoder_value l) (-4)); [lia|].
  auto.
Qed.

Lemma quad_run_app (ps qs : list Pins) (l : Locals) :
  quad_run (ps ++ qs) l =
  (fst (quad_run ps l) ++ fst (quad_run qs (snd (quad_run ps l))),
   snd (quad_run qs (snd (quad_run ps l)))).
Proof.
  revert l. induction ps as [|p ps IH]; intros l.
  - simpl. destruct (quad_run qs l); reflexivity.
  - simpl. rewrite IH. reflexivity.
Qed.

Lemma steps_app (xs ys : list Z) : steps (xs ++ ys) = steps xs ++ steps ys.
Proof. apply filter_app. Qed.

(** Any number of polls at the phase already held. *)
Lemma quad_run_resample (ph : Z) (k : nat) (l : Locals) :
  0 <= ph <= 3 ->
  encoder_state l = ph ->
  -3 <= encoder_value l <= 3 ->
  steps (fst (quad_run (repeat (phase_pins ph) k) l)) = [] /\
  encoder_state (snd (quad_run (repeat (phase_pins ph) k) l)) = ph /\
  encoder_value (snd (quad_run (repeat (phase_pins ph) k) l)) = encoder_value l.
Proof.
  intros Hph. revert l. induction k as [|k IH]; intros l He Hv.
  - simpl. auto.
  - assert (P : phase (phase_pins ph) = encoder_state l).
    { rewrite He. assert (C : ph = 0 \/ ph = 1 \/ ph = 2 \/ ph = 3) by lia.
      destruct C as [->|[->|[->| ->]]]; reflexivity. }
    destruct (poll_quadrature_resample (phase_pins ph) l ltac:(lia) Hv P)
      as (R1 & R2 & R3).
    cbn [repeat quad_run fst snd]. unfold steps. cbn [filter].
    rewrite R3. cbn [Z.eqb negb].
    destruct (IH (poll_quadrature (phase_pins ph) l)) as (I1 & I2 & I3);
      [congruence | lia |].
    fold (steps (fst (quad_run (repeat (phase_pins ph) k)
                        (poll_quadrature (phase_pins ph) l)))).
    rewrite I1, I2, I3, R2. auto.
Qed.

(** A transition observed by [S k] polls: the first poll moves the decoder,
    the others re-sample. *)
Lemma quad_run_observe (ph : Z) (k : nat) (l : Locals) :
  0 <= ph <= 3 ->
  0 <= encoder_state l <= 3 ->
  -3 <= encoder_value l <= 3 ->
  let l1 := poll_quadrature (phase_pins ph) l in
  let out := quad_run (repeat (phase_pins ph) (S k)) l in
  steps (fst out) = steps [encoder_dir l1] /\
  encoder_state (snd out) = ph /\
  encoder_value (snd out) = encoder_value l1.
Proof.
  intros Hph He Hv l1 out. subst out.
  destruct (poll_quadrature_spec (phase_pins ph) l He Hv) as (S1 & _ & _ & S4).
  fold l1 in S1, S4.
  assert (P : phase (phase_pins ph) = ph).
  { assert (C : ph = 0 \/ ph = 1 \/ ph = 2 \/ ph = 3) by lia.
    destruct C as [->|[->|[->| ->]]]; reflexivity. }
  rewrite P in S1.
  destruct (quad_run_resample ph k l1 Hph S1 S4) as (I1 & I2 & I3).
  change (repeat (phase_pins ph) (S k)) with ([phase_pins ph] ++ repeat (phase_pins ph) k).
  rewrite quad_run_app. cbn [quad_run fst snd app].
  fold l1. split; [|auto].
  change (encoder_dir l1 :: fst (quad_run (repeat (phase_pins ph) k) l1))
    with ([encoder_dir l1] ++ fst (quad_run (repeat (phase_pins ph) k) l1)).
  rewrite steps_app, I1, app_nil_r. reflexivity.
Qed.

Lemma observe_from (e v ph : Z) (k : nat) (l : Locals) :
  0 <= ph <= 3 ->
  0 <= e <= 3 ->
  -3 <= v <= 3 ->
  encoder_state l = e ->
  encoder_value l = v ->
  let m := poll_quadrature (phase_pins ph) (enc e v) in
  steps (fst (quad_run (observe ph k) l)) = steps [encoder_dir m] /\
  encoder_state (snd (quad_run (observe ph k) l)) = ph /\
  encoder_value (snd (quad_run (observe ph k) l)) = encoder_value m.
Proof.
  intros Hph He Hv Ee Ev m.
  destruct (quad_run_observe ph k l Hph) as (A & B & C); [lia | lia |].
  destruct (poll_quadrature_enc (phase_pins ph) l) as (_ & P2 & P3).
  rewrite Ee, Ev in P2, P3. fold m in P2, P3.
  unfold observe. rewrite A, B, C, P2, P3. auto.
Qed.

Lemma quad_run_detent_ccw (k : nat * nat * nat * nat) (l : Locals) :
  encoder_state l = 0 ->
  encoder_value l = 0 ->
  steps (fst (quad_run (detent_ccw k) l)) = [1] /\
  encoder_state (snd (quad_run (detent_ccw k) l)) = 0 /\
  encoder_value (snd (quad_run (detent_ccw k) l)) = 0.
Proof.
  intros He Hv. destruct k as [[[k1 k2] k3] k4]. unfold detent_ccw.
  rewrite !quad_run_app. cbn [fst snd]. rewrite !steps_app.
  set (l1 := snd (quad_run (observe 1 k1) l)).
  set (l2 := snd (quad_run (observe 3 k2) l1)).
  set (l3 := snd (quad_run (observe 2 k3) l2)).
  destruct (observe_from 0 0 1 k1 l) as (A1 & B1 & C1); try lia; try assumption.
  fold l1 in B1, C1.
  destruct (observe_from 1 (-1) 3 k2 l1) as (A2 & B2 & C2); try lia; try assumption.
  fold l2 in B2, C2.
  destruct (observe_from 3 (-2) 2 k3 l2) as (A3 & B3 & C3); try lia; try assumption.
  fold l3 in B3, C3.
  destruct (observe_from 2 (-3) 0 k4 l3) as (A4 & B4 & C4); try lia; try assumption.
  rewrite A1, A2, A3, A4, B4, C4. repeat split.
Qed.

Lemma quad_run_detent_cw (k : nat * nat * nat * nat) (l : Locals) :
  encoder_state l = 0 ->
  encoder_value l = 0 ->
  steps (fst (quad_run (detent_cw k) l)) = [-1] /\
  encoder_state (snd (quad_run (detent_cw k) l)) = 0 /\
  encoder_value (snd (quad_run (detent_cw k) l)) = 0.
Proof.
  intros He Hv. destruct k as [[[k1 k2] k3] k4]. unfold detent_cw.
  rewrite !quad_run_app. cbn [fst snd]. rewrite !steps_app.
  set (l1 := snd (quad_run (observe 2 k1) l)).
  set (l2 := snd (quad_run (observe 3 k2) l1)).
  set (l3 := snd (quad_run (observe 1 k3) l2)).
  destruct (observe_from 0 0 2 k1 l) as (A1 & B1 & C1); try lia; try assumption.
  fold l1 in B1, C1.
  destruct (observe_from 2 1 3 k2 l1) as (A2 & B2 & C2); try lia; try assumption.
  fold l2 in B2, C2.
  destruct (observe_from 3 2 1 k3 l2) as (A3 & B3 & C3); try lia; try assumption.
  fold l3 in B3, C3.
  destruct (observe_from 1 3 0 k4 l3) as (A4 & B4 & C4); try lia; try assumption.
  rewrite A1, A2, A3, A4, B4, C4. repeat split.
Qed.

Lemma quad_run_detents
  (detent : nat * nat * nat * nat -> list Pins) (d : Z) :
  (forall k l, encoder_state l = 0 -> encoder_value l = 0 ->
     steps (fst (quad_run (detent k) l)) = [d] /\
     encoder_state (snd (quad_run (detent k) l)) = 0 /\
     encoder_value (snd (quad_run (detent k) l)) = 0) ->
  forall ks l, encoder_state l = 0 -> encoder_value l = 0 ->
    steps (fst (quad_run (concat (map detent ks)) l)) = repeat d (length ks) /\
    encoder_state (snd (quad_run (concat (map detent ks)) l)) = 0 /\
    encoder_value (snd (quad_run (concat (map detent ks)) l)) = 0.
Proof.
  intros One ks. induction ks as [|k ks IH]; intros l He Hv.
  - simpl. auto.
  - cbn [map concat length repeat]. rewrite quad_run_app. cbn [fst snd].
    destruct (One k l He Hv) as (A & B & C).
    destruct (IH (snd (quad_run (detent k) l)) B C) as (A' & B' & C').
    rewrite steps_app, A, A'. auto.
Qed.

(** The detents from phase 0 are turns of four transitions. *)
Lemma detent_cw_turn (k1 k2 k3 k4 : nat) :
  detent_cw (k1, k2, k3, k4) = turn cw_next 0 [k1; k2; k3; k4].
Proof. unfold detent_cw. cbn [turn cw_next]. rewrite app_nil_r. reflexivity. Qed.

Lemma detent_ccw_turn (k1 k2 k3 k4 : nat) :
  detent_ccw (k1, k2, k3, k4) = turn ccw_next 0 [k1; k2; k3; k4].
Proof. unfold detent_ccw. cbn [turn ccw_next]. rewrite app_nil_r. reflexivity. Qed.

(** Every transition of the gray code in one direction adds the same
    amount, whatever the phase it starts from. *)
Lemma poll_cw_next (e v : Z) :
  0 <= e <= 3 ->
  -3 <= v <= 3 ->
  let m := poll_quadrature (phase_pins (cw_next e)) (enc e v) in
  encoder_dir m = (if v =? 3 then -1 else 0) /\
  encoder_value m = (if v =? 3 then 0 else v + 1).
Proof.
  intros He Hv.
  assert (Ce : e = 0 \/ e = 1 \/ e = 2 \/ e = 3) by lia.
  assert (Cv : v = -3 \/ v = -2 \/ v = -1 \/ v = 0 \/ v = 1 \/ v = 2 \/ v = 3) by lia.
  destruct Ce as [->|[->|[->| ->]]];
    destruct Cv as [->|[->|[->|[->|[->|[->| ->]]]]]];
    vm_compute; split; reflexivity.
Qed.

Lemma poll_ccw_next (e v : Z) :
  0 <= e <= 3 ->
  -3 <= v <= 3 ->
  let m := poll_quadrature (phase_pins (ccw_next e)) (enc e v) in
  encoder_dir m = (if v =? -3 then 1 else 0) /\
  encoder_value m = (if v =? -3 then 0 else v - 1).
Proof.
  intros He Hv.
  assert (Ce : e = 0 \/ e = 1 \/ e = 2 \/ e = 3) by lia.
  assert (Cv : v = -3 \/ v = -2 \/ v = -1 \/ v = 0 \/ v = 1 \/ v = 2 \/ v = 3) by lia.
  destruct Ce as [->|[->|[->| ->]]];
    destruct Cv as [->|[->|[->|[->|[->|[->| ->]]]]]];
    vm_compute; split; reflexivity.
Qed.

Lemma cw_next_range (e : Z) : 0 <= cw_next e <= 3.
Proof. destruct e as [|[[?|?|]|[?|?|]|]|?]; cbn; lia. Qed.

Lemma ccw_next_range (e : Z) : 0 <= ccw_next e <= 3.
Proof. destruct e as [|[[?|?|]|[?|?|]|]|?]; cbn; lia. Qed.

(** The first poll after power-on, with the encoder at phase [e]. *)
Lemma poll_power_on (e : Z) :
  0 <= e <= 3 ->
  let m := poll_quadrature (phase_pins e) (enc 0 0) in
  encoder_dir m = 0 /\
  encoder_value m = nth (Z.to_nat e) [0; -1; 1; 2] 0.
Proof.
  intros He.
  assert (Ce : e = 0 \/ e = 1 \/ e = 2 \/ e = 3) by lia.
  destruct Ce as [->|[->|[->| ->]]]; vm_compute; split; reflexivity.
Qed.

(** A turn of [n] transitions with the decoder's state at the starting phase
    and the accumulator at [v]: one step for every multiple of 4 that the
    running sum passes. *)
Lemma quad_run_turn_cw (ks : list nat) :
  forall e v l,
  0 <= e <= 3 ->
  -3 <= v <= 3 ->
  encoder_state l = e ->
  encoder_value l = v ->
  steps (fst (quad_run (turn cw_next e ks) l)) =
  repeat (-1) (Z.to_nat ((v + Z.of_nat (length ks)) / 4)).
Proof.
  induction ks as [|k ks IH]; intros e v l He Hv Ee Ev.
  - cbn [turn quad_run fst steps filter length].
    replace (Z.to_nat ((v + Z.of_nat 0) / 4)) with 0%nat by (Z.to_euclidean_division_equations; lia).
    reflexivity.
  - cbn [turn length]. rewrite quad_run_app. cbn [fst snd]. rewrite steps_app.
    destruct (observe_from e v (cw_next e) k l (cw_next_range e) He Hv Ee Ev)
      as (A & B & C).
    destruct (poll_cw_next e v He Hv) as (D & V).
    rewrite D in A. rewrite V in C.
    rewrite A.
    rewrite (IH (cw_next e) (if v =? 3 then 0 else v + 1)
               (snd (quad_run (observe (cw_next e) k) l)));
      [| apply cw_next_range | destruct (Z.eqb_spec v 3); lia | exact B | exact C].
    destruct (Z.eqb_spec v 3) as [->|Hn].
    + replace (Z.to_nat ((3 + Z.of_nat (S (length ks))) / 4))
        with (S (Z.to_nat ((0 + Z.of_nat (length ks)) / 4))) by (Z.to_euclidean_division_equations; lia).
      reflexivity.
    + replace (v + Z.of_nat (S (length ks))) with (v + 1 + Z.of_nat (length ks)) by lia.
      reflexivity.
Qed.

Lemma quad_run_turn_ccw (ks : list nat) :
  forall e v l,
  0 <= e <= 3 ->
  -3 <= v <= 3 ->
  encoder_state l = e ->
  encoder_value l = v ->
  steps (fst (quad_run (turn ccw_next e ks) l)) =
  repeat 1 (Z.to_nat ((Z.of_nat (length ks) - v) / 4)).
Proof.
  induction ks as [|k ks IH]; intros e v l He Hv Ee Ev.
  - cbn [turn quad_run fst steps filter length].
    replace (Z.to_nat ((Z.of_nat 0 - v) / 4)) with 0%nat by (Z.to_euclidean_division_equations; lia).
    reflexivity.
  - cbn [turn length]. rewrite quad_run_app. cbn [fst snd]. rewrite steps_app.
    destruct (observe_from e v (ccw_next e) k l (ccw_next_range e) He Hv Ee Ev)
      as (A & B & C).
    destruct (poll_ccw_next e v He Hv) as (D & V).
    rewrite D in A. rewrite V in C.
    rewrite A.
    rewrite (IH (ccw_next e) (if v =? -3 then 0 else v - 1)
               (snd (quad_run (observe (ccw_next e) k) l)));
      [| apply ccw_next_range | destruct (Z.eqb_spec v (-3)); lia | exact B | exact C].
    destruct (Z.eqb_spec v (-3)) as [->|Hn].
    + replace (Z.to_nat ((Z.of_nat (S (length ks)) - -3) / 4))
        with (S (Z.to_nat ((Z.of_nat (length ks) - 0) / 4))) by (Z.to_euclidean_division_equations; lia).
      reflexivity.
    + replace (Z.of_nat (S (length ks)) - v) with (Z.of_nat (length ks) - (v - 1)) by lia.
      reflexivity.
Qed.

(** C6 (counterexample): after power-on with the encoder resting at phase
    3, a full detent in the direction of [ENC_CCW] (3, 2, 0, 1, 3), every
    transition seen by one poll, gives no direction step, and the loop
    dispatches nothing: the first poll has left the accumulator at 2. *)
Lemma quadrature_rest_phase3_loses_detent :
  let ps := observe 3 0 ++ turn ccw_next 3 [0; 0; 0; 0]%nat in
  ps = map phase_pins [3; 2; 0; 1; 3] /\
  steps (fst (quad_run ps locals0)) = [] /\
  steps (fst (quad_run ps locals0)) <> repeat 1 1 /\
  exists l st, run erased (phase_pins 3) ps = Running (l, st) /\
               dispatched st = [].
Proof.
  cbv zeta. split; [reflexivity|].
  assert (Q : steps (fst (quad_run (observe 3 0 ++ turn ccw_next 3 [0; 0; 0; 0]%nat)
                            locals0)) = []) by (vm_compute; reflexivity).
  split; [exact Q|]. split; [rewrite Q; discriminate|].
  destruct (run erased (phase_pins 3) (observe 3 0 ++ turn ccw_next 3 [0; 0; 0; 0]%nat))
    as [[l st]|] eqn:E.
  - exists l, st. split; [reflexivity|].
    vm_compute in E. injection E as _ <-. reflexivity.
  - vm_compute in E. discriminate E.
Qed.

(** C6 (amended): each poll adds the table entry indexed by the previous
    state and the current phase bits to the accumulator; the poll gives one
    direction step when the sum is at least 4 or at most -4 and takes 4 off
    (or adds 4), keeping the overshoot; re-sampling the same phase adds 0
    and gives no step.  With the decoder's state at the phase the encoder
    rests at, whichever of the four it is, N full detents in one direction
    give exactly N direction steps of that direction, however many polls
    observe each transition, when the accumulator is zero or has the sign
    of the rotation, and N - 1 when it has the opposite sign.  After
    power-on with the encoder resting at phase [e], seen by any number of
    polls, N detents give N steps except in the direction of [ENC_CW] for
    [e = 1] and of [ENC_CCW] for [e = 2] or [e = 3], where the first detent
    gives none. *)
Theorem quadrature_counts_detents
  (p : Pins) (l : Locals) (ks : list nat) (N : nat) :
  0 <= encoder_state l <= 3 ->
  -3 <= encoder_value l <= 3 ->
  length ks = (4 * N)%nat ->
  let i := encoder_state l + 4 * phase p in
  let t := encoder_value l + nth (Z.to_nat i) encoder_factor 0 in
  let l' := poll_quadrature p l in
  let cw := fun e m => steps (fst (quad_run (turn cw_next e ks) m)) in
  let ccw := fun e m => steps (fst (quad_run (turn ccw_next e ks) m)) in
  (encoder_state l' = phase p /\
   encoder_dir l' = (if 4 <=? t then -1 else if t <=? -4 then 1 else 0) /\
   encoder_value l' = (if 4 <=? t then t - 4 else if t <=? -4 then t + 4 else t)) /\
  (phase p = encoder_state l ->
   encoder_state l' = encoder_state l /\ encoder_value l' = encoder_value l /\
   encoder_dir l' = 0) /\
  (0 <= encoder_value l -> cw (encoder_state l) l = repeat (-1) N) /\
  (encoder_value l <= 0 -> ccw (encoder_state l) l = repeat 1 N) /\
  (encoder_value l < 0 -> cw (encoder_state l) l = repeat (-1) (N - 1)%nat) /\
  (0 < encoder_value l -> ccw (encoder_state l) l = repeat 1 (N - 1)%nat) /\
  (forall e k, 0 <= e <= 3 ->
   let rest := snd (quad_run (observe e k) locals0) in
   steps (fst (quad_run (observe e k) locals0)) = [] /\
   cw e rest = repeat (-1) (if e =? 1 then (N - 1)%nat else N) /\
   ccw e rest = repeat 1 (if 2 <=? e then (N - 1)%nat else N)).
Proof.
  intros He Hv Hn i t l' cw ccw.
  assert (Hcw : forall e v m, 0 <= e <= 3 -> -3 <= v <= 3 ->
            encoder_state m = e -> encoder_value m = v ->
            cw e m = repeat (-1) (if v <? 0 then (N - 1)%nat else N)).
  { intros e v m Re Rv Ee Ev. subst cw. cbv beta.
    rewrite (quad_run_turn_cw ks e v m Re Rv Ee Ev), Hn. f_equal.
    destruct (Z.ltb_spec v 0); Z.to_euclidean_division_equations; lia. }
  assert (Hccw : forall e v m, 0 <= e <= 3 -> -3 <= v <= 3 ->
            encoder_state m = e -> encoder_value m = v ->
            ccw e m = repeat 1 (if 0 <? v then (N - 1)%nat else N)).
  { intros e v m Re Rv Ee Ev. subst ccw. cbv beta.
    rewrite (quad_run_turn_ccw ks e v m Re Rv Ee Ev), Hn. f_equal.
    destruct (Z.ltb_spec 0 v); Z.to_euclidean_division_equations; lia. }
  split; [|split; [|split; [|split; [|split; [|split]]]]].
  - destruct (poll_quadrature_spec p l He Hv) as (S1 & S2 & S3 & _). auto.
  - intros Hp. apply poll_quadrature_resample; assumption.
  - intros H. rewrite (Hcw _ _ l He Hv eq_refl eq_refl).
    destruct (Z.ltb_spec (encoder_value l) 0); [lia | reflexivity].
  - intros H. rewrite (Hccw _ _ l He Hv eq_refl eq_refl).
    destruct (Z.ltb_spec 0 (encoder_value l)); [lia | reflexivity].
  - intros H. rewrite (Hcw _ _ l He Hv eq_refl eq_refl).
    destruct (Z.ltb_spec (encoder_value l) 0); [reflexivity | lia].
  - intros H. rewrite (Hccw _ _ l He Hv eq_refl eq_refl).
    destruct (Z.ltb_spec 0 (encoder_value l)); [reflexivity | lia].
  - intros e k Re rest.
    destruct (observe_from 0 0 e k locals0) as (A & B & C);
      try lia; try reflexivity.
    destruct (poll_power_on e Re) as (D & V).
    rewrite D in A. rewrite V in C. fold rest in B, C.
    assert (Ce : e = 0 \/ e = 1 \/ e = 2 \/ e = 3) by lia.
    split; [exact A|].
    assert (Rv : -3 <= encoder_value rest <= 3).
    { rewrite C. clear - Ce. destruct Ce as [->|[->|[->| ->]]]; vm_compute; split; discriminate. }
    rewrite (Hcw e _ rest Re Rv B eq_refl), (Hccw e _ rest Re Rv B eq_refl), C.
    destruct Ce as [->|[->|[->| ->]]]; split; reflexivity.
Qed.

Lemma quadrature_counts_detents_witness :
  steps (fst (quad_run (turn cw_next 3 [0; 2; 1; 0; 3; 0; 0; 5]%nat)
                (poll_quadrature (phase_pins 3) locals0))) = [-1; -1] /\
  steps (fst (quad_run (turn ccw_next 3 [0; 2; 1; 0; 3; 0; 0; 5]%nat)
                (poll_quadrature (phase_pins 3) locals0))) = [1].
Proof.
  assert (He : 0 <= encoder_state (poll_quadrature (phase_pins 3) locals0) <= 3)
    by (vm_compute; split; discriminate).
  assert (Hv : -3 <= encoder_value (poll_quadrature (phase_pins 3) locals0) <= 3)
    by (vm_compute; split; discriminate).
  assert (Hp : 0 <= encoder_value (poll_quadrature (phase_pins 3) locals0))
    by (vm_compute; discriminate).
  assert (Hq : 0 < encoder_value (poll_quadrature (phase_pins 3) locals0))
    by (vm_compute; reflexivity).
  split.
  - exact (proj1 (proj2 (proj2
             (quadrature_counts_detents (phase_pins 0)
                (poll_quadrature (phase_pins 3) locals0)
                [0; 2; 1; 0; 3; 0; 0; 5]%nat 2 He Hv eq_refl))) Hp).
  - exact (proj1 (proj2 (proj2 (proj2 (proj2 (proj2
             (quadrature_counts_detents (phase_pins 0)
                (poll_quadrature (phase_pins 3) locals0)
                [0; 2; 1; 0; 3; 0; 0; 5]%nat 2 He Hv eq_refl)))))) Hq).
Defined.

(* ================================================================== *)
(** ** Chords *)

Lemma only_neo_refl (st : Globals) : only_neo st st.
Proof. unfold only_neo. destruct st; reflexivity. Qed.

Lemma only_neo_trans (s1 s2 s3 : Globals) :
  only_neo s1 s2 -> only_neo s2 s3 -> only_neo s1 s3.
Proof. unfold only_neo. intros H1 H2. rewrite H2, H1. reflexivity. Qed.

Lemma only_neo_with_neo (a : Arr4 RGB) (st : Globals) : only_neo st (with_neo a st).
Proof. reflexivity. Qed.

Lemma only_neo_set_neo_fg (n : Z) (st : Globals) : only_neo st (set_neo_fg n st).
Proof. apply set_neo_fg_tables. Qed.

Lemma only_neo_set_neo_rgb (n rv gv bv : Z) (st : Globals) :
  only_neo st (set_neo_rgb n rv gv bv st).
Proof. apply set_neo_rgb_tables. Qed.

Lemma only_neo_fade_out1 (n : Z) (st : Globals) : only_neo st (fade_out1 n st).
Proof. reflexivity. Qed.

Lemma only_neo_fade_out (n : Z) (st : Globals) : only_neo st (fade_out n st).
Proof.
  unfold fade_out. destruct (n =? 0).
  - eapply only_neo_trans; [|apply only_neo_fade_out1].
    eapply only_neo_trans; [|apply only_neo_fade_out1].
    apply only_neo_fade_out1.
  - apply only_neo_fade_out1.
Qed.

Lemma only_neo_dispatched (st st' : Globals) :
  only_neo st st' -> dispatched st' = dispatched st.
Proof. intros ->. reflexivity. Qed.

Lemma only_neo_layer (st st' : Globals) :
  only_neo st st' -> layer st' = layer st /\ max_layer st' = max_layer st.
Proof. intros ->. split; reflexivity. Qed.

Lemma update_lights_only_neo (l : Locals) (st : Globals) :
  only_neo st (snd (update_lights l st)).
Proof.
  unfold update_lights. cbv zeta.
  destruct (negb (show_mode l =? 0)); cbn [snd].
  - eapply only_neo_trans; [apply only_neo_fade_out | apply only_neo_set_neo_rgb].
  - apply only_neo_fade_out.
Qed.

Lemma debounce_eq (pin latched : bool) : debounce pin latched = negb pin.
Proof. destruct pin, latched; reflexivity. Qed.

Lemma release_switch_dispatched (m : Z) (st : Globals) :
  dispatched (release_switch m st) = dispatched st ++ chord_events m.
Proof.
  unfold release_switch, chord_events, chord.
  destruct m as [|[[|[]|]|[[]|[]|]|]|];
    rewrite ?parse_type_dispatched, ?app_nil_r; reflexivity.
Qed.

Lemma key_held_chain (k1 k2 k3 : bool) (pr : Z) (st : Globals) :
  let s := key_held k3 4 3 (key_held k2 2 2 (key_held k1 1 1 (0, pr, st))) in
  fst (fst s) = b2z k1 + 2 * b2z k2 + 4 * b2z k3 /\
  snd (fst s) = Z.lor pr (b2z k1 + 2 * b2z k2 + 4 * b2z k3) /\
  only_neo st (snd s).
Proof.
  destruct k1, k2, k3; unfold key_held; cbn [fst snd b2z];
    (split; [reflexivity|]);
    (split; [rewrite <- ?Z.lor_assoc; try reflexivity; apply Z.lor_0_r ||
             (symmetry; apply Z.lor_0_r) |]);
    repeat first [ apply only_neo_refl
                 | eapply only_neo_trans; [|apply only_neo_set_neo_fg] ].
Qed.

(** The key part of an iteration.  With no key down the press mask is
    resolved and cleared; with one or two keys down it accumulates. *)
Lemma poll_keys_spec (p : Pins) (l : Locals) (st : Globals) :
  held_mask p <> 7 ->
  exists l' st',
    poll_keys p l st = Running (l', st') /\
    keyenc l' = keyenc l /\ encoder_state l' = encoder_state l /\
    encoder_value l' = encoder_value l /\
    layer st' = layer st /\ max_layer st' = max_layer st /\
    (held_mask p = 0 ->
       press l' = 0 /\ dispatched st' = dispatched st ++ chord_events (press l)) /\
    (held_mask p <> 0 ->
       press l' = Z.lor (press l) (held_mask p) /\ dispatched st' = dispatched st).
Proof.
  intros H7. unfold poll_keys. cbv zeta. rewrite !debounce_eq.
  destruct (key_held_chain (negb (PIN_KEY1 p)) (negb (PIN_KEY2 p))
              (negb (PIN_KEY3 p)) (press l) st) as (Hh & Hp & Hn).
  fold (held_mask p) in Hh, Hp.
  set (s := key_held _ _ _ _) in *.
  rewrite Hh, Hp.
  destruct (only_neo_layer _ _ Hn) as (Ly & Ml).
  destruct (Z.eqb_spec (held_mask p) 0) as [E0|E0].
  - do 2 eexists. split; [reflexivity|]. cbn [keyenc encoder_state encoder_value press].
    rewrite E0, Z.lor_0_r.
    repeat split; try lia.
    + unfold release_switch.
      destruct (press l) as [|[[|[]|]|[[]|[]|]|]|];
        rewrite ?parse_type_layer; exact Ly.
    + unfold release_switch.
      destruct (press l) as [|[[|[]|]|[[]|[]|]|]|];
        rewrite ?parse_type_max_layer; exact Ml.
    + rewrite release_switch_dispatched, (only_neo_dispatched _ _ Hn). reflexivity.
  - destruct (Z.eqb_spec (held_mask p) 7) as [E7|_]; [contradiction|].
    do 2 eexists. split; [reflexivity|]. cbn [keyenc encoder_state encoder_value press].
    repeat split; try assumption; try contradiction.
    apply (only_neo_dispatched _ _ Hn).
Qed.



Lemma run_loop_app (ps qs : list Pins) (ls : Locals * Globals) :
  run_loop (ps ++ qs) ls =
  match run_loop ps ls with
  | Bootloader => Bootloader
  | Running ls' => run_loop qs ls'
  end.
Proof.
  revert ls. induction ps as [|p ps IH]; intros ls.
  - reflexivity.
  - cbn [app run_loop]. destruct (loop_body p ls); [apply IH | reflexivity].
Qed.





(* ================================================================== *)
(** ** The layer index over the whole loop *)

Lemma layer_ok_parse_type (ev : Event) (st : Globals) :
  layer_ok st -> layer_ok (parse_type ev st).
Proof.
  unfold layer_ok. rewrite parse_type_layer, parse_type_max_layer. auto.
Qed.

Lemma layer_ok_parse_layer (dir : Z) (st : Globals) :
  layer_ok st -> layer_ok (parse_layer dir st).
Proof.
  intros (_ & Hm). split.
  - apply parse_layer_range. exact Hm.
  - rewrite parse_layer_max_layer. lia.
Qed.

Lemma layer_ok_only_neo (st st' : Globals) :
  only_neo st st' -> layer_ok st -> layer_ok st'.
Proof.
  intros Hn. unfold layer_ok.
  destruct (only_neo_layer _ _ Hn) as (-> & ->). auto.
Qed.

Lemma layer_ok_release_switch (m : Z) (st : Globals) :
  layer_ok st -> layer_ok (release_switch m st).
Proof.
  intros H. unfold release_switch.
  destruct m as [|[[|[]|]|[[]|[]|]|]|]; try exact H; apply layer_ok_parse_type; exact H.
Qed.

Lemma layer_ok_poll_keys (p : Pins) (l l' : Locals) (st st' : Globals) :
  poll_keys p l st = Running (l', st') -> layer_ok st -> layer_ok st'.
Proof.
  unfold poll_keys. cbv zeta. intros E H.
  destruct (key_held_chain (debounce (PIN_KEY1 p) (key1 l))
              (debounce (PIN_KEY2 p) (key2 l)) (debounce (PIN_KEY3 p) (key3 l))
              (press l) st) as (_ & _ & Hn).
  set (s := key_held _ _ _ _) in *.
  pose proof (layer_ok_only_neo _ _ Hn H) as Hs.
  destruct (fst (fst s) =? 0).
  - injection E as _ <-. apply layer_ok_release_switch. exact Hs.
  - destruct (fst (fst s) =? 7).
    + destruct (200 <? u8 (all l + 1)); [discriminate|].
      injection E as _ <-. exact Hs.
    + injection E as _ <-. exact Hs.
Qed.

Lemma layer_ok_poll_encoder_switch (p : Pins) (l : Locals) (st : Globals) :
  layer_ok st -> layer_ok (snd (poll_encoder_switch p l st)).
Proof.
  intros H. unfold poll_encoder_switch.
  repeat match goal with
         | |- context [if ?c then _ else _] => destruct c
         end; cbn [snd]; try exact H; apply layer_ok_parse_type; exact H.
Qed.

Lemma layer_ok_apply_rotation (l : Locals) (st : Globals) :
  layer_ok st -> layer_ok (snd (apply_rotation l st)).
Proof.
  intros H. unfold apply_rotation. cbv zeta.
  repeat match goal with
         | |- context [if ?c then _ else _] => destruct c; cbn [fst snd]
         end;
    repeat first [ exact H
                 | apply layer_ok_parse_type
                 | apply layer_ok_parse_layer ].
Qed.

(** Every iteration of the loop keeps the layer index in 0..3. *)
Lemma loop_body_layer_ok (p : Pins) (l l' : Locals) (st st' : Globals) :
  loop_body p (l, st) = Running (l', st') -> layer_ok st -> layer_ok st'.
Proof.
  unfold loop_body. cbn [fst snd]. intros E H.
  destruct (poll_keys p l st) as [[l1 st1]|] eqn:E1; [|discriminate].
  injection E as E. cbn [fst snd] in E.
  apply (f_equal snd) in E. cbn [snd] in E. rewrite <- E.
  eapply layer_ok_only_neo; [apply update_lights_only_neo|].
  apply layer_ok_apply_rotation, layer_ok_poll_encoder_switch.
  exact (layer_ok_poll_keys p l l1 st st1 E1 H).
Qed.

Lemma run_loop_layer_ok (ps : list Pins) :
  forall l l' st st',
  run_loop ps (l, st) = Running (l', st') -> layer_ok st -> layer_ok st'.
Proof.
  induction ps as [|p ps IH]; intros l l' st st' E H.
  - injection E as _ <-. exact H.
  - cbn [run_loop] in E.
    destruct (loop_body p (l, st)) as [[l1 st1]|] eqn:E1; [|discriminate].
    exact (IH l1 l' st1 st' E (loop_body_layer_ok p l l1 st st1 E1 H)).
Qed.

(** From power-on, whatever the data flash holds and whatever the pins do,
    the layer index stays in 0..3 for as long as the program runs. *)
Lemma run_layer_range (rom : Z -> Z) (p : Pins) (ps : list Pins)
      (l : Locals) (st : Globals) :
  run rom p ps = Running (l, st) -> 0 <= layer st <= 3.
Proof.
  unfold run, main_init. intros E.
  destruct (negb (PIN_KEY1 p)); [discriminate|].
  apply (run_loop_layer_ok ps locals0 l (startup rom) st E).
  rewrite startup_tables, decode_all_eq. split; cbn [layer max_layer with_neo globals0].
  - lia.
  - unfold stored, eeprom_read_byte. apply u8_range.
Qed.

(* ================================================================== *)
(** * Further properties of the loop, the lights and the startup *)

(** ** Invariants of the whole loop *)

Section LoopInvariant.

Variable P : Globals -> Prop.
Hypothesis P_only_neo : forall st st', only_neo st st' -> P st -> P st'.
Hypothesis P_parse_type : forall ev st, P st -> P (parse_type ev st).
Hypothesis P_parse_layer : forall d st, P st -> P (parse_layer d st).

Lemma inv_release_switch (m : Z) (st : Globals) : P st -> P (release_switch m st).
Proof.
  intros H. unfold release_switch.
  destruct m as [|[[|[]|]|[[]|[]|]|]|]; try exact H; apply P_parse_type; exact H.
Qed.

Lemma inv_poll_keys (p : Pins) (l l' : Locals) (st st' : Globals) :
  poll_keys p l st = Running (l', st') -> P st -> P st'.
Proof.
  unfold poll_keys. cbv zeta. intros E H.
  destruct (key_held_chain (debounce (PIN_KEY1 p) (key1 l))
              (debounce (PIN_KEY2 p) (key2 l)) (debounce (PIN_KEY3 p) (key3 l))
              (press l) st) as (_ & _ & Hn).
  set (s := key_held _ _ _ _) in *.
  pose proof (P_only_neo _ _ Hn H) as Hs.
  destruct (fst (fst s) =? 0).
  - injection E as _ <-. apply inv_release_switch. exact Hs.
  - destruct (fst (fst s) =? 7).
    + destruct (200 <? u8 (all l + 1)); [discriminate|].
      injection E as _ <-. exact Hs.
    + injection E as _ <-. exact Hs.
Qed.

Lemma inv_poll_encoder_switch (p : Pins) (l : Locals) (st : Globals) :
  P st -> P (snd (poll_encoder_switch p l st)).
Proof.
  intros H. unfold poll_encoder_switch.
  repeat match goal with
         | |- context [if ?c then _ else _] => destruct c
         end; cbn [snd]; try exact H; apply P_parse_type; exact H.
Qed.

Lemma inv_apply_rotation (l : Locals) (st : Globals) :
  P st -> P (snd (apply_rotation l st)).
Proof.
  intros H. unfold apply_rotation. cbv zeta.
  repeat match goal with
         | |- context [if ?c then _ else _] => destruct c; cbn [fst snd]
         end;
    repeat first [ exact H | apply P_parse_type | apply P_parse_layer ].
Qed.

Lemma inv_loop_body (p : Pins) (l l' : Locals) (st st' : Globals) :
  loop_body p (l, st) = Running (l', st') -> P st -> P st'.
Proof.
  unfold loop_body. cbn [fst snd]. intros E H.
  destruct (poll_keys p l st) as [[l1 st1]|] eqn:E1; [|discriminate].
  injection E as E. cbn [fst snd] in E.
  apply (f_equal snd) in E. cbn [snd] in E. rewrite <- E.
  eapply P_only_neo; [apply update_lights_only_neo|].
  apply inv_apply_rotation, inv_poll_encoder_switch.
  exact (inv_poll_keys p l l1 st st1 E1 H).
Qed.

Lemma inv_run_loop (ps : list Pins) :
  forall l l' st st',
  run_loop ps (l, st) = Running (l', st') -> P st -> P st'.
Proof.
  induction ps as [|p ps IH]; intros l l' st st' E H.
  - injection E as _ <-. exact H.
  - cbn [run_loop] in E.
    destruct (loop_body p (l, st)) as [[l1 st1]|] eqn:E1; [|discriminate].
    exact (IH l1 l' st1 st' E (inv_loop_body p l l1 st st1 E1 H)).
Qed.

End LoopInvariant.

Lemma mods_after_app (xs ys : list Hid) :
  forall down,
  mods_after (xs ++ ys) down =
  match mods_after xs down with
  | Some d => mods_after ys d
  | None => None
  end.
Proof.
  induction xs as [|x xs IH]; intros down; [reflexivity|].
  destruct x as [k|k|c|c]; cbn [app mods_after]; try apply IH.
  destruct down as [|k' down']; [reflexivity|].
  destruct (mod_bit k =? mod_bit k'); [apply IH | reflexivity].
Qed.

(** Presses of any keys, a key tap, and the releases in reverse order
    return to the stack they started from. *)
Lemma mods_after_nested (ks : list ModKey) (c : Z) :
  forall down,
  mods_after (map Press ks ++ [Tap c] ++ map Release (rev ks)) down = Some down.
Proof.
  induction ks as [|k ks IH]; intros down; [reflexivity|].
  cbn [map app rev mods_after].
  rewrite map_app. cbn [map].
  change (map Press ks ++ Tap c :: map Release (rev ks) ++ [Release k])
    with (map Press ks ++ ([Tap c] ++ map Release (rev ks)) ++ [Release k]).
  rewrite app_assoc, mods_after_app.
  rewrite IH.
  cbn [mods_after]. rewrite Z.eqb_refl. reflexivity.
Qed.

Lemma mods_after_binding_actions (cm : Z * Z) (down : list ModKey) :
  mods_after (binding_actions cm) down = Some down.
Proof.
  unfold binding_actions.
  destruct (fst cm =? 0); [reflexivity|].
  destruct (snd cm =? 255); [reflexivity|].
  apply mods_after_nested.
Qed.

Lemma mods_after_optional (c : bool) (cm : Z * Z) (down : list ModKey) :
  mods_after (if c then binding_actions cm else []) down = Some down.
Proof. destruct c; [apply mods_after_binding_actions | reflexivity]. Qed.

Lemma mods_after_fallback_actions (ev : Event) (st : Globals) (down : list ModKey) :
  mods_after (fallback_actions ev st) down = Some down.
Proof.
  unfold fallback_actions.
  destruct ((layer st =? 0) && (max_layer st <? 3)); [|reflexivity].
  rewrite mods_after_app, mods_after_optional.
  rewrite mods_after_app, mods_after_optional.
  apply mods_after_optional.
Qed.

Lemma mods_released_parse_type (ev : Event) (st : Globals) :
  mods_released st -> mods_released (parse_type ev st).
Proof.
  unfold mods_released. intros H.
  rewrite parse_type_hid, mods_after_app, H. cbv beta iota.
  rewrite mods_after_app, mods_after_binding_actions.
  apply mods_after_fallback_actions.
Qed.

Lemma parse_layer_hid (d : Z) (st : Globals) : hid (parse_layer d st) = hid st.
Proof.
  unfold parse_layer.
  set (c := if 3 <? max_layer st then with_max_layer 3 st else st).
  assert (Hc : hid c = hid st) by (subst c; destruct (3 <? max_layer st); reflexivity).
  rewrite <- Hc.
  destruct (d =? 0); [reflexivity|].
  destruct (max_layer c) as [|[[?|?|]|[?|?|]|]|?];
    cbn [layer hid with_layer];
    repeat match goal with
           | |- context [if ?t then _ else _] => destruct t
           end; reflexivity.
Qed.

(** X1: from power-on, whatever the data flash holds and whatever the pins
    do, the layer index is in 0..3 for as long as the program runs, so every
    access to the per-layer tables is in bounds. *)
Theorem run_layer_in_bounds (rom : Z -> Z) (p : Pins) (ps : list Pins)
      (l : Locals) (st : Globals) :
  run rom p ps = Running (l, st) -> 0 <= layer st <= 3.
Proof.
  unfold run, main_init. intros E.
  destruct (negb (PIN_KEY1 p)); [discriminate|].
  assert (H0 : layer_ok (startup rom)).
  { rewrite startup_tables, decode_all_eq.
    split; cbn [layer max_layer with_neo globals0]; [lia|].
    unfold stored, eeprom_read_byte. apply u8_range. }
  apply (inv_run_loop layer_ok layer_ok_only_neo layer_ok_parse_type
           layer_ok_parse_layer ps locals0 l (startup rom) st E H0).
Qed.

Lemma run_layer_in_bounds_witness :
  exists l st,
    run rom_key1 (phase_pins 0) [key1_down; phase_pins 1; phase_pins 0] = Running (l, st) /\
    0 <= layer st <= 3.
Proof.
  destruct (run rom_key1 (phase_pins 0) [key1_down; phase_pins 1; phase_pins 0])
    as [[l st]|] eqn:E.
  - exists l, st. split; [reflexivity|].
    exact (run_layer_in_bounds rom_key1 (phase_pins 0)
             [key1_down; phase_pins 1; phase_pins 0] l st E).
  - vm_compute in E. discriminate E.
Defined.

(** X2: the reports sent to the keyboard never leave a modifier key down:
    from power-on, for any data flash and any pins, in the log of reports
    every release names the modifier pressed last and still down, and at
    the end of every iteration no modifier is down. *)
Theorem run_modifiers_released (rom : Z -> Z) (p : Pins) (ps : list Pins)
      (l : Locals) (st : Globals) :
  run rom p ps = Running (l, st) -> mods_after (hid st) [] = Some [].
Proof.
  unfold run, main_init. intros E.
  destruct (negb (PIN_KEY1 p)); [discriminate|].
  assert (H0 : mods_released (startup rom)).
  { unfold mods_released. rewrite startup_tables, decode_all_eq. reflexivity. }
  apply (inv_run_loop mods_released) with (ps := ps) (l := locals0) (l' := l)
                                          (st := startup rom); try assumption.
  - intros s s' Hn. unfold mods_released. rewrite Hn. exact (fun H => H).
  - exact mods_released_parse_type.
  - intros d s. unfold mods_released. rewrite parse_layer_hid. exact (fun H => H).
Qed.

Lemma run_modifiers_released_witness :
  exists l st,
    run rom_key1 (phase_pins 0) [key1_down; phase_pins 0] = Running (l, st) /\
    mods_after (hid st) [] = Some [].
Proof.
  destruct (run rom_key1 (phase_pins 0) [key1_down; phase_pins 0])
    as [[l st]|] eqn:E.
  - exists l, st. split; [reflexivity|].
    exact (run_modifiers_released rom_key1 (phase_pins 0)
             [key1_down; phase_pins 0] l st E).
  - vm_compute in E. discriminate E.
Defined.

Lemma loop_body_after_keys (p : Pins) (l : Locals) (st : Globals) :
  loop_body p (l, st) =
  match poll_keys p l st with
  | Bootloader => Bootloader
  | Running ls1 => Running (after_keys p ls1)
  end.
Proof.
  unfold loop_body, after_keys. cbn [fst snd].
  generalize (poll_keys p l st). intros o. destruct o as [ls1|].
  - generalize (poll_encoder_switch p (fst ls1) (snd ls1)). intros ls2.
    generalize (poll_quadrature p (fst ls2)). intros l3.
    generalize (apply_rotation l3 (snd ls2)). intros ls4. reflexivity.
  - reflexivity.
Qed.

Lemma update_lights_locals (l : Locals) (st : Globals) :
  exists x, fst (update_lights l st) = set_show_mode x l.
Proof.
  unfold update_lights. cbv zeta.
  destruct (negb (show_mode l =? 0)); cbn [fst].
  - eexists; reflexivity.
  - exists (show_mode l). destruct l; reflexivity.
Qed.

Lemma poll_encoder_switch_locals (p : Pins) (l : Locals) (st : Globals) :
  let l' := fst (poll_encoder_switch p l st) in
  key1 l' = key1 l /\ key2 l' = key2 l /\ key3 l' = key3 l /\
  press l' = press l /\ hold l' = hold l /\ all l' = all l /\
  encoder_state l' = encoder_state l /\ encoder_value l' = encoder_value l.
Proof.
  unfold poll_encoder_switch.
  repeat match goal with
         | |- context [if ?c then _ else _] => destruct c; cbn [fst snd]
         end; repeat split.
Qed.

Lemma apply_rotation_locals (l : Locals) (st : Globals) :
  let l' := fst (apply_rotation l st) in
  key1 l' = key1 l /\ key2 l' = key2 l /\ key3 l' = key3 l /\
  press l' = press l /\ hold l' = hold l /\ all l' = all l /\
  encoder_state l' = encoder_state l /\ encoder_value l' = encoder_value l /\
  encoder_dir l' = encoder_dir l.
Proof.
  unfold apply_rotation. cbv zeta.
  repeat match goal with
         | |- context [if ?c then _ else _] => destruct c; cbn [fst snd]
         end; repeat split.
Qed.

(** What the part after the keys leaves alone in the locals, and where the
    decoder's fields come from. *)
Lemma after_keys_locals (p : Pins) (l : Locals) (st : Globals) :
  let l' := fst (after_keys p (l, st)) in
  key1 l' = key1 l /\ key2 l' = key2 l /\ key3 l' = key3 l /\
  press l' = press l /\ hold l' = hold l /\ all l' = all l /\
  encoder_state l' = encoder_state (poll_quadrature p l) /\
  encoder_value l' = encoder_value (poll_quadrature p l) /\
  encoder_dir l' = encoder_dir (poll_quadrature p l).
Proof.
  unfold after_keys. cbv zeta. cbn [fst snd].
  destruct (poll_encoder_switch_locals p l st)
    as (A1 & A2 & A3 & A4 & A5 & A6 & A7 & A8).
  set (l2 := fst (poll_encoder_switch p l st)) in *.
  set (st2 := snd (poll_encoder_switch p l st)).
  destruct (poll_quadrature_enc p l2) as (Q1 & Q2 & Q3).
  destruct (poll_quadrature_enc p l) as (R1 & R2 & R3).
  rewrite A7, A8 in Q1, Q2, Q3.
  destruct (apply_rotation_locals (poll_quadrature p l2) st2)
    as (B1 & B2 & B3 & B4 & B5 & B6 & B7 & B8 & B9).
  cbn [key1 key2 key3 press hold all poll_quadrature] in B1, B2, B3, B4, B5, B6.
  destruct (update_lights_locals (fst (apply_rotation (poll_quadrature p l2) st2))
              (snd (apply_rotation (poll_quadrature p l2) st2))) as (x & ->).
  cbn [key1 key2 key3 press hold all encoder_state encoder_value encoder_dir
       set_show_mode].
  repeat split; congruence.
Qed.

(** The key part of an iteration and the hold counter. *)
Lemma poll_keys_all (p : Pins) (l : Locals) (st : Globals) :
  (held_mask p = 0 ->
     exists l' st', poll_keys p l st = Running (l', st') /\ all l' = 0) /\
  (held_mask p <> 0 -> held_mask p <> 7 ->
     exists l' st', poll_keys p l st = Running (l', st') /\ all l' = all l) /\
  (held_mask p = 7 -> 200 < u8 (all l + 1) -> poll_keys p l st = Bootloader) /\
  (held_mask p = 7 -> u8 (all l + 1) <= 200 ->
     exists l' st', poll_keys p l st = Running (l', st') /\ all l' = u8 (all l + 1)).
Proof.
  unfold poll_keys. cbv zeta. rewrite !debounce_eq.
  destruct (key_held_chain (negb (PIN_KEY1 p)) (negb (PIN_KEY2 p))
              (negb (PIN_KEY3 p)) (press l) st) as (Hh & _ & _).
  fold (held_mask p) in Hh.
  set (s := key_held _ _ _ _) in *.
  rewrite Hh.
  repeat split.
  - intros E. rewrite E. cbn [Z.eqb]. do 2 eexists. split; reflexivity.
  - intros E0 E7.
    destruct (Z.eqb_spec (held_mask p) 0); [contradiction|].
    destruct (Z.eqb_spec (held_mask p) 7); [contradiction|].
    do 2 eexists. split; reflexivity.
  - intros E H. rewrite E. cbn [Z.eqb Pos.eqb].
    destruct (Z.ltb_spec 200 (u8 (all l + 1))); [reflexivity | lia].
  - intros E H. rewrite E. cbn [Z.eqb Pos.eqb].
    destruct (Z.ltb_spec 200 (u8 (all l + 1))); [lia|].
    do 2 eexists. split; reflexivity.
Qed.

(** X3: the hold counter counts the polls with all three keys down since
    the last poll with no key down.  While at least one key stays down,
    polls with one or two keys down neither count nor reset; the program
    keeps running as long as the count is at most 200 and hands over to the
    boot loader at the poll that makes it 201.  A poll with no key down
    sets the counter to 0. *)
Theorem hold_counter_bootloader (ps : list Pins) :
  forall (l : Locals) (st : Globals),
  0 <= all l <= 200 ->
  Forall (fun p => held_mask p <> 0) ps ->
  (all l + count_all_down ps <= 200 ->
     exists l' st',
       run_loop ps (l, st) = Running (l', st') /\
       all l' = all l + count_all_down ps) /\
  (200 < all l + count_all_down ps -> run_loop ps (l, st) = Bootloader) /\
  (forall p, held_mask p = 0 ->
     exists l' st', loop_body p (l, st) = Running (l', st') /\ all l' = 0).
Proof.
  induction ps as [|p ps IH]; intros l st Ha Hall.
  - unfold count_all_down. cbn [filter length Z.of_nat run_loop].
    split; [intros _; exists l, st; split; [reflexivity | lia]|].
    split; [lia|].
    intros p Hp. destruct (poll_keys_all p l st) as (K0 & _).
    destruct (K0 Hp) as (l1 & st1 & E1 & A1).
    rewrite loop_body_after_keys, E1.
    exists (fst (after_keys p (l1, st1))), (snd (after_keys p (l1, st1))).
    split; [destruct (after_keys p (l1, st1)); reflexivity|].
    destruct (after_keys_locals p l1 st1) as (_ & _ & _ & _ & _ & A & _).
    congruence.
  - inversion Hall as [|p0 ps0 H0 Hrest]; subst.
    destruct (poll_keys_all p l st) as (K0 & K1 & K2 & K3).
    assert (Release : forall q, held_mask q = 0 ->
              exists l' st', loop_body q (l, st) = Running (l', st') /\ all l' = 0).
    { intros q Hq. destruct (poll_keys_all q l st) as (Q0 & _).
      destruct (Q0 Hq) as (l1 & st1 & E1 & A1).
      rewrite loop_body_after_keys, E1.
      exists (fst (after_keys q (l1, st1))), (snd (after_keys q (l1, st1))).
      split; [destruct (after_keys q (l1, st1)); reflexivity|].
      destruct (after_keys_locals q l1 st1) as (_ & _ & _ & _ & _ & A & _).
      congruence. }
    unfold count_all_down. cbn [filter].
    destruct (Z.eqb_spec (held_mask p) 7) as [E7|E7].
    + cbn [length]. rewrite Nat2Z.inj_succ.
      fold (count_all_down ps).
      assert (Hc : 0 <= count_all_down ps) by (unfold count_all_down; lia).
      assert (U : u8 (all l + 1) = all l + 1) by (apply u8_small; lia).
      destruct (Z.le_gt_cases (all l + 1) 200) as [Hle|Hgt].
      * destruct (K3 E7 ltac:(lia)) as (l1 & st1 & E1 & A1).
        cbn [run_loop]. rewrite loop_body_after_keys, E1.
        destruct (after_keys_locals p l1 st1) as (_ & _ & _ & _ & _ & A & _).
        destruct (after_keys p (l1, st1)) as [l2 st2] eqn:E2. cbn [fst] in A.
        assert (Ha2 : 0 <= all l2 <= 200) by lia.
        destruct (IH l2 st2 Ha2 Hrest) as (I1 & I2 & _).
        split; [|split; [|exact Release]].
        -- intros H. destruct I1 as (l' & st' & E' & A'); [lia|].
           exists l', st'. split; [exact E' | lia].
        -- intros H. apply I2. lia.
      * split; [lia|]. split; [|exact Release].
        intros _. cbn [run_loop]. rewrite loop_body_after_keys.
        rewrite (K2 E7) by lia. reflexivity.
    + fold (count_all_down ps).
      destruct (K1 H0 E7) as (l1 & st1 & E1 & A1).
      cbn [run_loop]. rewrite loop_body_after_keys, E1.
      destruct (after_keys_locals p l1 st1) as (_ & _ & _ & _ & _ & A & _).
      destruct (after_keys p (l1, st1)) as [l2 st2] eqn:E2. cbn [fst] in A.
      assert (Ha2 : 0 <= all l2 <= 200) by lia.
      destruct (IH l2 st2 Ha2 Hrest) as (I1 & I2 & _).
      split; [|split; [|exact Release]].
      * intros H. destruct I1 as (l' & st' & E' & A'); [lia|].
        exists l', st'. split; [exact E' | lia].
      * intros H. apply I2. lia.
Qed.

Lemma hold_counter_bootloader_witness :
  run_loop (repeat keys123_down 201) (locals0, startup erased) = Bootloader.
Proof.
  assert (Ha : 0 <= all locals0 <= 200) by (simpl; lia).
  assert (Hp : Forall (fun p => held_mask p <> 0) (repeat keys123_down 201)).
  { apply Forall_forall. intros p Hin. apply repeat_spec in Hin. subst p.
    vm_compute. discriminate. }
  assert (Hc : 200 < all locals0 + count_all_down (repeat keys123_down 201)).
  { vm_compute. reflexivity. }
  exact (proj1 (proj2 (hold_counter_bootloader (repeat keys123_down 201) locals0
                         (startup erased) Ha Hp)) Hc).
Defined.

Lemma poll_keys_locals (p : Pins) (l l' : Locals) (st st' : Globals) :
  poll_keys p l st = Running (l', st') ->
  keyenc l' = keyenc l /\ knob l' = knob l /\ show_mode l' = show_mode l /\
  mode_changed l' = mode_changed l /\
  encoder_state l' = encoder_state l /\ encoder_value l' = encoder_value l /\
  encoder_dir l' = encoder_dir l.
Proof.
  unfold poll_keys. cbv zeta.
  repeat match goal with
         | |- context [if ?c then _ else _] => destruct c
         end; intros E; try discriminate; injection E as <- _; repeat split.
Qed.

Lemma encoder_ok_loop_body (p : Pins) (l l' : Locals) (st st' : Globals) :
  loop_body p (l, st) = Running (l', st') ->
  encoder_ok l -> encoder_ok l' /\ -1 <= encoder_dir l' <= 1.
Proof.
  rewrite loop_body_after_keys. intros E (He & Hv).
  destruct (poll_keys p l st) as [[l1 st1]|] eqn:E1; [|discriminate].
  destruct (poll_keys_locals p l l1 st st1 E1) as (_ & _ & _ & _ & S1 & V1 & _).
  injection E as E.
  destruct (after_keys_locals p l1 st1) as (_ & _ & _ & _ & _ & _ & A & B & C).
  rewrite E in A, B, C. cbn [fst] in A, B, C.
  destruct (poll_quadrature_spec p l1) as (Q1 & Q2 & Q3 & Q4); [lia | lia |].
  unfold encoder_ok. rewrite A, B, C, Q2.
  split; [split; [|exact Q4]|].
  - rewrite Q1. unfold phase.
    destruct (PIN_ENC_A p), (PIN_ENC_B p); cbn; lia.
  - repeat match goal with
           | |- context [if ?c then _ else _] => destruct c
           end; lia.
Qed.

(** X4: from power-on, for any data flash and any pins (valid gray-code
    transitions or not), the decoder state stays a two-bit value, the
    accumulator stays within -3..3 at the end of every iteration, so the
    8-bit accumulator never wraps, and at most one direction step is taken
    per iteration. *)
Theorem run_encoder_in_range (rom : Z -> Z) (p : Pins) (ps : list Pins)
      (l : Locals) (st : Globals) :
  run rom p ps = Running (l, st) ->
  0 <= encoder_state l <= 3 /\ -3 <= encoder_value l <= 3 /\
  -1 <= encoder_dir l <= 1.
Proof.
  unfold run, main_init.
  destruct (negb (PIN_KEY1 p)); [discriminate|].
  assert (G : forall qs l0 s0 l1 s1,
            run_loop qs (l0, s0) = Running (l1, s1) ->
            encoder_ok l0 /\ -1 <= encoder_dir l0 <= 1 ->
            encoder_ok l1 /\ -1 <= encoder_dir l1 <= 1).
  { induction qs as [|q qs IH]; intros l0 s0 l1 s1 E H.
    - injection E as <- _. exact H.
    - cbn [run_loop] in E.
      destruct (loop_body q (l0, s0)) as [[l2 s2]|] eqn:E2; [|discriminate].
      apply (IH l2 s2 l1 s1 E).
      apply (encoder_ok_loop_body q l0 l2 s0 s2 E2). apply H. }
  intros E.
  destruct (G ps locals0 (startup rom) l st E) as ((A & B) & C).
  - unfold encoder_ok. cbn. lia.
  - auto.
Qed.

Lemma run_encoder_in_range_witness :
  exists l st,
    run erased (phase_pins 0) [phase_pins 3; phase_pins 0; phase_pins 3] = Running (l, st) /\
    0 <= encoder_state l <= 3 /\ -3 <= encoder_value l <= 3 /\
    -1 <= encoder_dir l <= 1.
Proof.
  destruct (run erased (phase_pins 0) [phase_pins 3; phase_pins 0; phase_pins 3])
    as [[l st]|] eqn:E.
  - exists l, st. split; [reflexivity|].
    exact (run_encoder_in_range erased (phase_pins 0)
             [phase_pins 3; phase_pins 0; phase_pins 3] l st E).
  - vm_compute in E. discriminate E.
Defined.

(** The decoder over a sequence of polls depends on the locals only through
    its state and accumulator. *)
Lemma quad_run_ext (ps : list Pins) :
  forall l m,
  encoder_state l = encoder_state m ->
  encoder_value l = encoder_value m ->
  fst (quad_run ps l) = fst (quad_run ps m) /\
  encoder_state (snd (quad_run ps l)) = encoder_state (snd (quad_run ps m)) /\
  encoder_value (snd (quad_run ps l)) = encoder_value (snd (quad_run ps m)).
Proof.
  induction ps as [|p ps IH]; intros l m Es Ev.
  - cbn. auto.
  - cbn [quad_run fst snd].
    destruct (poll_quadrature_enc p l) as (A1 & A2 & A3).
    destruct (poll_quadrature_enc p m) as (B1 & B2 & B3).
    rewrite Es, Ev in A1, A2, A3.
    destruct (IH (poll_quadrature p l) (poll_quadrature p m)) as (I1 & I2 & I3);
      [congruence | congruence |].
    rewrite I1, I2, I3. repeat split. congruence.
Qed.

(** One iteration with no key down, the switch up and nothing pending from
    the keys: the only dispatch is the one of the direction step. *)
Lemma controls_up_iteration (p : Pins) (l : Locals) (st : Globals) :
  controls_up p ->
  keyenc l = false ->
  press l = 0 ->
  exists l' st',
    loop_body p (l, st) = Running (l', st') /\
    keyenc l' = false /\ press l' = 0 /\
    encoder_state l' = encoder_state (poll_quadrature p l) /\
    encoder_value l' = encoder_value (poll_quadrature p l) /\
    layer st' = layer st /\
    dispatched st' = dispatched st ++ dir_events (encoder_dir (poll_quadrature p l)).
Proof.
  intros (Hm & Hsw) Hk Hp.
  destruct (poll_keys_spec p l st) as
    (l1 & st1 & E1 & K1 & S1 & V1 & Ly1 & _ & Z1 & _); [lia|].
  destruct (Z1 Hm) as (P1 & D1). rewrite Hp in D1.
  change (chord_events 0) with (@nil Event) in D1. rewrite app_nil_r in D1.
  rewrite loop_body_after_keys, E1.
  exists (fst (after_keys p (l1, st1))), (snd (after_keys p (l1, st1))).
  split; [destruct (after_keys p (l1, st1)); reflexivity|].
  destruct (after_keys_locals p l1 st1) as (_ & _ & _ & A4 & _ & _ & A7 & A8 & _).
  destruct (poll_quadrature_enc p l1) as (Q1 & Q2 & Q3).
  destruct (poll_quadrature_enc p l) as (R1 & R2 & R3).
  rewrite S1, V1 in Q1, Q2, Q3.
  assert (E2 : poll_encoder_switch p l1 st1 = (l1, st1)).
  { unfold poll_encoder_switch. rewrite Hsw, K1, Hk. reflexivity. }
  unfold after_keys in *. cbv zeta in *. cbn [fst snd] in *.
  rewrite E2 in *. cbn [fst snd] in *.
  set (l3 := poll_quadrature p l1) in *.
  assert (K3 : keyenc l3 = false) by (subst l3; cbn; congruence).
  assert (D3 : encoder_dir l3 = encoder_dir (poll_quadrature p l)) by congruence.
  assert (E4 : apply_rotation l3 st1 =
               (set_knob 0 l3,
                if encoder_dir l3 <? 0
                then parse_type ENC_CW
                       (if 0 <? encoder_dir l3 then parse_type ENC_CCW st1 else st1)
                else if 0 <? encoder_dir l3 then parse_type ENC_CCW st1 else st1)).
  { unfold apply_rotation. rewrite K3. reflexivity. }
  rewrite E4 in *. cbn [fst snd] in *.
  pose proof (update_lights_only_neo (set_knob 0 l3)
                (if encoder_dir l3 <? 0
                 then parse_type ENC_CW
                        (if 0 <? encoder_dir l3 then parse_type ENC_CCW st1 else st1)
                 else if 0 <? encoder_dir l3 then parse_type ENC_CCW st1 else st1))
    as Hn.
  destruct (only_neo_layer _ _ Hn) as (Ly & _).
  rewrite (only_neo_dispatched _ _ Hn), Ly.
  assert (U : forall l0 s0, keyenc (fst (update_lights l0 s0)) = keyenc l0).
  { intros l0 s0. unfold update_lights. cbv zeta.
    destruct (negb (show_mode l0 =? 0)); reflexivity. }
  rewrite U. cbn [keyenc set_knob].
  split; [exact K3|]. split; [congruence|].
  split; [congruence|]. split; [congruence|].
  unfold dir_events. rewrite <- D3.
  destruct (Z.ltb_spec (encoder_dir l3) 0); destruct (Z.ltb_spec 0 (encoder_dir l3));
    try lia; rewrite ?parse_type_layer, ?parse_type_dispatched, ?app_nil_r;
    split; congruence.
Qed.

Lemma run_loop_controls_up (ps : list Pins) :
  forall (l : Locals) (st : Globals),
  Forall controls_up ps ->
  keyenc l = false ->
  press l = 0 ->
  exists l' st',
    run_loop ps (l, st) = Running (l', st') /\
    keyenc l' = false /\ press l' = 0 /\
    encoder_state l' = encoder_state (snd (quad_run ps l)) /\
    encoder_value l' = encoder_value (snd (quad_run ps l)) /\
    layer st' = layer st /\
    dispatched st' = dispatched st ++ flat_map dir_events (fst (quad_run ps l)).
Proof.
  induction ps as [|p ps IH]; intros l st Hall Hk Hp.
  - exists l, st. cbn. rewrite app_nil_r. repeat split; assumption.
  - inversion Hall as [|p0 ps0 Hc Hrest]; subst.
    destruct (controls_up_iteration p l st Hc Hk Hp)
      as (l1 & st1 & E1 & K1 & P1 & S1 & V1 & Ly1 & D1).
    destruct (IH l1 st1 Hrest K1 P1) as (l2 & st2 & E2 & K2 & P2 & S2 & V2 & Ly2 & D2).
    destruct (quad_run_ext ps l1 (poll_quadrature p l) S1 V1) as (X1 & X2 & X3).
    exists l2, st2. cbn [run_loop quad_run fst snd flat_map]. rewrite E1.
    split; [exact E2|]. split; [exact K2|]. split; [exact P2|].
    split; [congruence|]. split; [congruence|]. split; [congruence|].
    rewrite D2, D1, X1, <- app_assoc. reflexivity.
Qed.

Lemma flat_map_dir_events_steps (ds : list Z) :
  flat_map dir_events ds = flat_map dir_events (steps ds).
Proof.
  induction ds as [|d ds IH]; [reflexivity|].
  unfold steps. cbn [flat_map filter].
  destruct (Z.eqb_spec d 0) as [->|N]; cbn [negb].
  - exact IH.
  - cbn [flat_map]. f_equal. exact IH.
Qed.

Lemma flat_map_dir_events_repeat (d : Z) (ev : Event) (n : nat) :
  dir_events d = [ev] ->
  flat_map dir_events (repeat d n) = repeat ev n.
Proof.
  intros H. induction n as [|n IH]; [reflexivity|].
  cbn [repeat flat_map]. rewrite H, IH. reflexivity.
Qed.

Lemma controls_up_phase_pins (ph : Z) : controls_up (phase_pins ph).
Proof. split; reflexivity. Qed.

Lemma controls_up_detents (detent : nat * nat * nat * nat -> list Pins)
      (ks : list (nat * nat * nat * nat)) :
  (forall k, Forall controls_up (detent k)) ->
  Forall controls_up (concat (map detent ks)).
Proof.
  intros H. induction ks as [|k ks IH]; [constructor|].
  cbn [map concat]. apply Forall_app. split; [apply H | exact IH].
Qed.

Lemma controls_up_observe (ph : Z) (k : nat) : Forall controls_up (observe ph k).
Proof.
  apply Forall_forall. intros p Hin. apply repeat_spec in Hin. subst p.
  apply controls_up_phase_pins.
Qed.

Lemma controls_up_detent_cw (k : nat * nat * nat * nat) :
  Forall controls_up (detent_cw k).
Proof.
  destruct k as [[[k1 k2] k3] k4]. unfold detent_cw.
  repeat (apply Forall_app; split); apply controls_up_observe.
Qed.

Lemma controls_up_detent_ccw (k : nat * nat * nat * nat) :
  Forall controls_up (detent_ccw k).
Proof.
  destruct k as [[[k1 k2] k3] k4]. unfold detent_ccw.
  repeat (apply Forall_app; split); apply controls_up_observe.
Qed.

(** X5: through the whole loop, with no key down and the encoder switch up,
    N full detents from rest dispatch exactly N Events, all [ENC_CW] (or all
    [ENC_CCW] for the other direction), and nothing else; the layer is
    unchanged and the decoder is at rest again. *)
Theorem detents_dispatch_rotation_events
  (ks : list (nat * nat * nat * nat)) (l : Locals) (st : Globals) :
  keyenc l = false ->
  press l = 0 ->
  encoder_state l = 0 ->
  encoder_value l = 0 ->
  (exists l' st',
     run_loop (concat (map detent_cw ks)) (l, st) = Running (l', st') /\
     dispatched st' = dispatched st ++ repeat ENC_CW (length ks) /\
     layer st' = layer st /\ encoder_state l' = 0 /\ encoder_value l' = 0) /\
  (exists l' st',
     run_loop (concat (map detent_ccw ks)) (l, st) = Running (l', st') /\
     dispatched st' = dispatched st ++ repeat ENC_CCW (length ks) /\
     layer st' = layer st /\ encoder_state l' = 0 /\ encoder_value l' = 0).
Proof.
  intros Hk Hp He Hv. split.
  - destruct (run_loop_controls_up (concat (map detent_cw ks)) l st)
      as (l' & st' & E & _ & _ & S & V & Ly & D);
      [apply controls_up_detents, controls_up_detent_cw | assumption | assumption |].
    destruct (quad_run_detents detent_cw (-1) quad_run_detent_cw ks l He Hv)
      as (Q1 & Q2 & Q3).
    exists l', st'. split; [exact E|].
    rewrite D, flat_map_dir_events_steps, Q1.
    rewrite (flat_map_dir_events_repeat (-1) ENC_CW) by reflexivity.
    repeat split; congruence.
  - destruct (run_loop_controls_up (concat (map detent_ccw ks)) l st)
      as (l' & st' & E & _ & _ & S & V & Ly & D);
      [apply controls_up_detents, controls_up_detent_ccw | assumption | assumption |].
    destruct (quad_run_detents detent_ccw 1 quad_run_detent_ccw ks l He Hv)
      as (Q1 & Q2 & Q3).
    exists l', st'. split; [exact E|].
    rewrite D, flat_map_dir_events_steps, Q1.
    rewrite (flat_map_dir_events_repeat 1 ENC_CCW) by reflexivity.
    repeat split; congruence.
Qed.

Lemma detents_dispatch_rotation_events_witness :
  exists l' st',
    run_loop (concat (map detent_cw [(0, 1, 0, 2); (1, 0, 0, 0)]%nat))
      (locals0, startup erased) = Running (l', st') /\
    dispatched st' = dispatched (startup erased) ++ repeat ENC_CW 2 /\
    layer st' = layer (startup erased) /\
    encoder_state l' = 0 /\ encoder_value l' = 0.
Proof.
  exact (proj1 (detents_dispatch_rotation_events
                  [(0, 1, 0, 2); (1, 0, 0, 0)]%nat locals0 (startup erased)
                  eq_refl eq_refl eq_refl eq_refl)).
Defined.

(** One iteration with the encoder switch pressed and nothing else going
    on.  [mc] is the mode-changed flag after the switch has been latched. *)
Lemma switch_down_iteration (l : Locals) (st : Globals) :
  switch_only l ->
  0 <= max_layer st ->
  let mc := keyenc l && mode_changed l in
  let timeout := (0 <? max_layer st) && (200 <? knob l) in
  exists l' st',
    loop_body switch_down (l, st) = Running (l', st') /\
    switch_only l' /\ keyenc l' = true /\
    dispatched st' = dispatched st /\
    mode_changed l' = mc || timeout /\
    knob l' = (if 0 <? max_layer st
               then if mc || timeout then 0 else knob l + 1
               else knob l) /\
    layer st' = (if timeout then 0 else layer st) /\
    max_layer st' = (if timeout then Z.min (max_layer st) 3 else max_layer st).
Proof.
  intros (Hp & He & Hv & Hn) Hm mc timeout.
  destruct (poll_keys_spec switch_down l st) as
    (l1 & st1 & E1 & K1 & S1 & V1 & Ly1 & Ml1 & Z1 & _); [vm_compute; discriminate|].
  destruct (Z1 eq_refl) as (P1 & D1). rewrite Hp in D1.
  change (chord_events 0) with (@nil Event) in D1. rewrite app_nil_r in D1.
  destruct (poll_keys_locals switch_down l l1 st st1 E1)
    as (_ & N1 & _ & M1 & _ & _ & _).
  rewrite loop_body_after_keys, E1.
  exists (fst (after_keys switch_down (l1, st1))),
         (snd (after_keys switch_down (l1, st1))).
  split; [destruct (after_keys switch_down (l1, st1)); reflexivity|].
  unfold after_keys. cbv zeta. cbn [fst snd].
  set (l2 := if keyenc l1 then l1 else set_mode_changed false (set_keyenc true l1)).
  assert (E2 : poll_encoder_switch switch_down l1 st1 = (l2, st1)).
  { unfold poll_encoder_switch, l2. cbn [PIN_ENC_SW switch_down negb].
    destruct (keyenc l1) eqn:Ek; cbn [eqb negb]; [reflexivity|].
    cbn [keyenc set_keyenc negb]. reflexivity. }
  rewrite E2. cbn [fst snd].
  assert (F2 : keyenc l2 = true /\ mode_changed l2 = mc /\ knob l2 = knob l /\
               press l2 = 0 /\ encoder_state l2 = 0 /\
               encoder_value l2 = encoder_value l).
  { subst l2 mc. rewrite <- K1, <- M1.
    destruct (keyenc l1) eqn:Ek; cbn; repeat split; congruence. }
  destruct F2 as (K2 & M2 & N2 & P2 & S2 & V2).
  destruct (poll_quadrature_resample switch_down l2) as (R1 & R2 & R3);
    [lia | lia | rewrite S2; reflexivity |].
  set (l3 := poll_quadrature switch_down l2) in *.
  assert (F3 : keyenc l3 = true /\ mode_changed l3 = mc /\ knob l3 = knob l /\
               press l3 = 0) by (subst l3; cbn; auto).
  destruct F3 as (K3 & M3 & N3 & P3).
  assert (Ml : max_layer st1 = max_layer st) by exact Ml1.
  destruct (update_lights_locals (fst (apply_rotation l3 st1))
              (snd (apply_rotation l3 st1))) as (x & Ux).
  pose proof (update_lights_only_neo (fst (apply_rotation l3 st1))
                (snd (apply_rotation l3 st1))) as Hneo.
  destruct (only_neo_layer _ _ Hneo) as (Ly & Mx).
  rewrite (only_neo_dispatched _ _ Hneo), Ly, Mx, Ux.
  unfold switch_only. cbn [press encoder_state encoder_value knob keyenc
                           mode_changed set_show_mode].
  unfold apply_rotation. cbv zeta. rewrite K3, R3. cbn [Z.eqb negb fst snd].
  rewrite Ml. subst timeout.
  destruct (Z.ltb_spec 0 (max_layer st)) as [Hpos|Hz]; cbn [andb].
  - rewrite N3.
    destruct (Z.ltb_spec 200 (knob l)) as [Hto|Hno]; cbn [fst snd].
    + cbn [mode_changed set_mode_changed fst snd press encoder_state
            encoder_value knob keyenc set_knob set_show_mode].
      rewrite orb_true_r.
      rewrite parse_layer_reset, parse_layer_max_layer by reflexivity.
      rewrite Ml.
      unfold parse_layer. cbn [Z.eqb].
      assert (Dp : forall s, dispatched (if 3 <? max_layer s
                                         then with_max_layer 3 s else s)
                             = dispatched s)
        by (intros s; destruct (3 <? max_layer s); reflexivity).
      cbn [dispatched with_layer]. rewrite Dp.
      repeat split; try congruence; try lia.
    + rewrite M3, orb_false_r.
      destruct mc; cbn [fst snd press encoder_state encoder_value knob keyenc
                         mode_changed set_knob set_show_mode];
        rewrite ?u8_small by lia;
        repeat split; try congruence; try lia.
  - cbn [fst snd]. rewrite orb_false_r.
    repeat split; try congruence; try lia.
Qed.

(** The iteration in which the encoder switch is found released again. *)
Lemma switch_release_iteration (l : Locals) (st : Globals) :
  switch_only l ->
  keyenc l = true ->
  exists l' st',
    loop_body (phase_pins 0) (l, st) = Running (l', st') /\
    switch_only l' /\ keyenc l' = false /\ knob l' = 0 /\
    layer st' = layer st /\ max_layer st' = max_layer st /\
    dispatched st' = dispatched st ++ (if mode_changed l then [] else [ENC_SW]).
Proof.
  intros (Hp & He & Hv & Hn) Hk.
  destruct (poll_keys_spec (phase_pins 0) l st) as
    (l1 & st1 & E1 & K1 & S1 & V1 & Ly1 & Ml1 & Z1 & _); [vm_compute; discriminate|].
  destruct (Z1 eq_refl) as (P1 & D1). rewrite Hp in D1.
  change (chord_events 0) with (@nil Event) in D1. rewrite app_nil_r in D1.
  destruct (poll_keys_locals (phase_pins 0) l l1 st st1 E1)
    as (_ & N1 & _ & M1 & _ & _ & _).
  rewrite loop_body_after_keys, E1.
  exists (fst (after_keys (phase_pins 0) (l1, st1))),
         (snd (after_keys (phase_pins 0) (l1, st1))).
  split; [destruct (after_keys (phase_pins 0) (l1, st1)); reflexivity|].
  unfold after_keys. cbv zeta. cbn [fst snd].
  set (st2 := if mode_changed l then st1 else parse_type ENC_SW st1).
  assert (E2 : poll_encoder_switch (phase_pins 0) l1 st1 = (set_keyenc false l1, st2)).
  { unfold poll_encoder_switch, st2. cbn [PIN_ENC_SW phase_pins negb].
    rewrite K1, Hk. cbn [eqb negb keyenc set_keyenc mode_changed andb].
    rewrite M1. destruct (mode_changed l); reflexivity. }
  rewrite E2. cbn [fst snd].
  destruct (poll_quadrature_resample (phase_pins 0) (set_keyenc false l1))
    as (R1 & R2 & R3);
    [cbn [encoder_state set_keyenc]; lia | cbn [encoder_value set_keyenc]; lia
     | cbn [encoder_state set_keyenc]; rewrite S1, He; reflexivity |].
  set (l3 := poll_quadrature (phase_pins 0) (set_keyenc false l1)) in *.
  assert (K3 : keyenc l3 = false) by reflexivity.
  assert (P3 : press l3 = 0) by (subst l3; cbn; exact P1).
  assert (E4 : apply_rotation l3 st2 = (set_knob 0 l3, st2)).
  { unfold apply_rotation. rewrite K3, R3. reflexivity. }
  rewrite E4. cbn [fst snd].
  destruct (update_lights_locals (set_knob 0 l3) st2) as (x & Ux).
  pose proof (update_lights_only_neo (set_knob 0 l3) st2) as Hneo.
  destruct (only_neo_layer _ _ Hneo) as (Ly & Mx).
  rewrite (only_neo_dispatched _ _ Hneo), Ly, Mx, Ux.
  unfold switch_only. cbn [press encoder_state encoder_value knob keyenc
                           set_show_mode set_knob].
  cbn [encoder_state encoder_value set_keyenc] in R1, R2.
  subst st2.
  destruct (mode_changed l);
    rewrite ?parse_type_layer, ?parse_type_max_layer, ?parse_type_dispatched,
      ?app_nil_r;
    repeat split; try congruence; try lia.
Qed.

(** The switch held for [S n] polls, short of the idle timeout. *)
Lemma run_switch_held_short (n : nat) :
  forall (l : Locals) (st : Globals),
  switch_only l ->
  0 <= max_layer st ->
  keyenc l && mode_changed l = false ->
  max_layer st = 0 \/ knob l + Z.of_nat (S n) <= 201 ->
  exists l' st',
    run_loop (repeat switch_down (S n)) (l, st) = Running (l', st') /\
    switch_only l' /\ keyenc l' = true /\ mode_changed l' = false /\
    dispatched st' = dispatched st /\
    layer st' = layer st /\ max_layer st' = max_layer st /\
    knob l' = (if 0 <? max_layer st then knob l + Z.of_nat (S n) else knob l).
Proof.
  induction n as [|n IH]; intros l st Hs Hm Hmc Hk.
  - destruct (switch_down_iteration l st Hs Hm)
      as (l1 & st1 & E1 & S1 & K1 & D1 & M1 & N1 & Ly1 & Ml1).
    assert (T : (0 <? max_layer st) && (200 <? knob l) = false).
    { destruct (Z.ltb_spec 0 (max_layer st)); [|reflexivity].
      destruct (Z.ltb_spec 200 (knob l)); [lia | reflexivity]. }
    rewrite Hmc, T in *. cbn [orb] in *.
    exists l1, st1. cbn [repeat run_loop]. rewrite E1.
    repeat split; try assumption; try apply S1.
  - destruct (switch_down_iteration l st Hs Hm)
      as (l1 & st1 & E1 & S1 & K1 & D1 & M1 & N1 & Ly1 & Ml1).
    assert (T : (0 <? max_layer st) && (200 <? knob l) = false).
    { destruct (Z.ltb_spec 0 (max_layer st)); [|reflexivity].
      destruct (Z.ltb_spec 200 (knob l)); [lia | reflexivity]. }
    rewrite Hmc, T in *. cbn [orb] in *.
    destruct (IH l1 st1 S1) as (l2 & st2 & E2 & S2 & K2 & M2 & D2 & Ly2 & Ml2 & N2).
    + lia.
    + rewrite K1, M1. reflexivity.
    + rewrite Ml1, N1.
      destruct (Z.ltb_spec 0 (max_layer st)); [right | left]; lia.
    + exists l2, st2.
      change (repeat switch_down (S (S n)))
        with (switch_down :: repeat switch_down (S n)).
      cbn [run_loop]. rewrite E1.
      split; [exact E2|]. split; [exact S2|]. split; [exact K2|].
      split; [exact M2|]. split; [congruence|]. split; [congruence|].
      split; [congruence|].
      rewrite N2, Ml1, N1.
      destruct (0 <? max_layer st); lia.
Qed.

(** Once the layer has been changed during the hold, further polls with
    the switch held change nothing more. *)
Lemma run_switch_held_after (n : nat) :
  forall (l : Locals) (st : Globals),
  switch_only l ->
  0 <= max_layer st ->
  keyenc l = true ->
  mode_changed l = true ->
  knob l <= 200 ->
  exists l' st',
    run_loop (repeat switch_down n) (l, st) = Running (l', st') /\
    switch_only l' /\ keyenc l' = true /\ mode_changed l' = true /\
    dispatched st' = dispatched st /\
    layer st' = layer st /\ max_layer st' = max_layer st.
Proof.
  induction n as [|n IH]; intros l st Hs Hm Hk Hmc Hn.
  - exists l, st. repeat split; try assumption; apply Hs.
  - destruct (switch_down_iteration l st Hs Hm)
      as (l1 & st1 & E1 & S1 & K1 & D1 & M1 & N1 & Ly1 & Ml1).
    assert (T : (0 <? max_layer st) && (200 <? knob l) = false).
    { destruct (Z.ltb_spec 200 (knob l)); [lia | apply andb_false_r]. }
    rewrite Hk, Hmc, T in *. cbn [andb orb] in *.
    destruct (IH l1 st1 S1) as (l2 & st2 & E2 & S2 & K2 & M2 & D2 & Ly2 & Ml2);
      try assumption; try lia.
    { rewrite N1. destruct (0 <? max_layer st); lia. }
    exists l2, st2. cbn [repeat run_loop]. rewrite E1.
    repeat split; try assumption; try congruence; try apply S2.
Qed.

(** X6: a click of the encoder switch.  From rest, the switch held for one
    or more polls without rotation and then released dispatches exactly
    [ENC_SW], on the release, and leaves the layer alone, provided that no
    secondary layer is configured or the hold lasts at most 201 polls. *)
Theorem switch_click_dispatches_ENC_SW (n : nat) (l : Locals) (st : Globals) :
  switch_only l ->
  keyenc l = false ->
  knob l = 0 ->
  0 <= max_layer st ->
  max_layer st = 0 \/ Z.of_nat (S n) <= 201 ->
  exists l' st',
    run_loop (repeat switch_down (S n) ++ [phase_pins 0]) (l, st)
    = Running (l', st') /\
    keyenc l' = false /\
    dispatched st' = dispatched st ++ [ENC_SW] /\
    layer st' = layer st.
Proof.
  intros Hs Hk Hn Hm Hshort.
  destruct (run_switch_held_short n l st Hs Hm)
    as (l1 & st1 & E1 & S1 & K1 & M1 & D1 & Ly1 & Ml1 & N1).
  - rewrite Hk. reflexivity.
  - rewrite Hn. destruct Hshort; [left; assumption | right; lia].
  - destruct (switch_release_iteration l1 st1 S1 K1)
      as (l2 & st2 & E2 & _ & K2 & _ & Ly2 & _ & D2).
    rewrite M1 in D2.
    exists l2, st2. rewrite run_loop_app, E1. cbn [run_loop]. rewrite E2.
    repeat split; congruence.
Qed.

Lemma switch_click_dispatches_ENC_SW_witness :
  exists l' st',
    run_loop (repeat switch_down 3 ++ [phase_pins 0]) (locals0, startup erased)
    = Running (l', st') /\
    keyenc l' = false /\
    dispatched st' = dispatched (startup erased) ++ [ENC_SW] /\
    layer st' = layer (startup erased).
Proof.
  apply (switch_click_dispatches_ENC_SW 2 locals0 (startup erased)).
  - repeat split; simpl; lia.
  - reflexivity.
  - reflexivity.
  - vm_compute. discriminate.
  - left. reflexivity.
Defined.

(** X7: the idle timeout.  With at least one secondary layer configured,
    the switch held without rotation for 202 polls or more returns to layer
    0 (at the 202nd poll), and the release dispatches nothing: no [ENC_SW]
    follows a hold that timed out. *)
Theorem switch_hold_times_out (n : nat) (l : Locals) (st : Globals) :
  switch_only l ->
  keyenc l = false ->
  knob l = 0 ->
  0 < max_layer st ->
  exists l' st',
    run_loop (repeat switch_down (202 + n) ++ [phase_pins 0]) (l, st)
    = Running (l', st') /\
    keyenc l' = false /\
    dispatched st' = dispatched st /\
    layer st' = 0 /\
    max_layer st' = Z.min (max_layer st) 3.
Proof.
  intros Hs Hk Hn Hm.
  destruct (run_switch_held_short 200 l st Hs)
    as (l1 & st1 & E1 & S1 & K1 & M1 & D1 & Ly1 & Ml1 & N1).
  { lia. } { rewrite Hk. reflexivity. } { right. rewrite Hn. lia. }
  destruct (Z.ltb_spec 0 (max_layer st)) as [_|F]; [|lia].
  rewrite Hn in N1.
  destruct (switch_down_iteration l1 st1 S1)
    as (l2 & st2 & E2 & S2 & K2 & D2 & M2 & N2 & Ly2 & Ml2); [lia|].
  assert (T : (0 <? max_layer st1) && (200 <? knob l1) = true).
  { rewrite Ml1, N1. destruct (Z.ltb_spec 0 (max_layer st)); [reflexivity | lia]. }
  rewrite T, orb_true_r in *.
  assert (Hpos : (0 <? max_layer st1) = true)
    by (rewrite Ml1; apply Z.ltb_lt; exact Hm).
  rewrite Hpos in N2.
  destruct (run_switch_held_after n l2 st2 S2)
    as (l3 & st3 & E3 & S3 & K3 & M3 & D3 & Ly3 & Ml3);
    try assumption; try lia.
  destruct (switch_release_iteration l3 st3 S3 K3)
    as (l4 & st4 & E4 & _ & K4 & _ & Ly4 & Ml4 & D4).
  rewrite M3, app_nil_r in D4.
  exists l4, st4.
  change (202 + n)%nat with ((201 + (1 + n))%nat).
  rewrite repeat_app, <- app_assoc, run_loop_app, E1.
  change (repeat switch_down (1 + n)) with (switch_down :: repeat switch_down n).
  cbn [app run_loop]. rewrite E2.
  fold (run_loop (repeat switch_down n ++ [phase_pins 0]) (l2, st2)).
  rewrite run_loop_app, E3. cbn [run_loop]. rewrite E4.
  repeat split; congruence.
Qed.

Lemma switch_hold_times_out_witness :
  exists l' st',
    run_loop (repeat switch_down (202 + 5) ++ [phase_pins 0])
      (locals0, with_layer 2 (with_max_layer 3 (startup erased)))
    = Running (l', st') /\
    keyenc l' = false /\
    dispatched st' = dispatched (with_layer 2 (with_max_layer 3 (startup erased))) /\
    layer st' = 0 /\
    max_layer st' = Z.min (max_layer (with_layer 2 (with_max_layer 3 (startup erased)))) 3.
Proof.
  apply (switch_hold_times_out 5 locals0
           (with_layer 2 (with_max_layer 3 (startup erased)))).
  - repeat split; simpl; lia.
  - reflexivity.
  - reflexivity.
  - simpl. lia.
Defined.

(** ** Fading to the background *)

Lemma safe_fade_progress (x f bg : Z) :
  0 <= x < 256 ->
  1 <= f ->
  safe_fade x f bg = bg \/ 0 <= safe_fade x f bg <= x - 1.
Proof.
  intros Hx Hf. unfold safe_fade.
  destruct (x <=? bg); [left; reflexivity|].
  destruct (Z.ltb_spec x f); [left; reflexivity|].
  destruct (f <? bg); [left; reflexivity|].
  right. rewrite u8_small by lia. lia.
Qed.

Lemma fade_steps_progress (f bg v : Z) (n : nat) :
  0 <= v < 256 ->
  1 <= f ->
  fade_steps n f bg v = bg \/ 0 <= fade_steps n f bg v <= v - Z.of_nat n.
Proof.
  intros Hv Hf. induction n as [|n IH].
  - right. cbn. lia.
  - cbn [fade_steps].
    destruct IH as [E|R].
    + left. rewrite E. apply safe_fade_at_or_below_floor. lia.
    + destruct (safe_fade_progress (fade_steps n f bg v) f bg)
        as [E|R']; [lia | exact Hf | left; exact E | right; lia].
Qed.

Lemma fade_steps_reaches (f bg v : Z) (n : nat) :
  0 <= v < 256 ->
  1 <= f ->
  v < Z.of_nat n ->
  fade_steps n f bg v = bg.
Proof.
  intros Hv Hf Hn.
  destruct (fade_steps_progress f bg v n Hv Hf) as [E|R]; [exact E | lia].
Qed.

Lemma fade_out0_pixels (st : Globals) :
  let fd := get4 (neofade st) (layer st) in
  let bg := get4 (neobg st) (layer st) in
  fade_out 0 st =
  with_neo {| a0 := a0 (neo st);
              a1 := fade_rgb fd bg (a1 (neo st));
              a2 := fade_rgb fd bg (a2 (neo st));
              a3 := fade_rgb fd bg (a3 (neo st)) |} st.
Proof. destruct st as [[n0 n1 n2 n3] nbg nfg nfd ly ml ch hd dp]. reflexivity. Qed.

Lemma fade_out_n_pixels (n : nat) (st : Globals) :
  let fd := get4 (neofade st) (layer st) in
  let bg := get4 (neobg st) (layer st) in
  let chan (sel : RGB -> Z) (px : RGB) := fade_steps n (sel fd) (sel bg) (sel px) in
  let px' (px : RGB) := {| r := chan r px; g := chan g px; b := chan b px |} in
  fade_out_n n st =
  with_neo {| a0 := a0 (neo st); a1 := px' (a1 (neo st));
              a2 := px' (a2 (neo st)); a3 := px' (a3 (neo st)) |} st.
Proof.
  cbv zeta. induction n as [|n IH].
  - destruct st as [[n0 [x1 y1 z1] [x2 y2 z2] [x3 y3 z3]] nbg nfg nfd ly ml ch hd dp].
    reflexivity.
  - cbn [fade_out_n]. rewrite IH, fade_out0_pixels.
    reflexivity.
Qed.

(** X8: left to fade, every pixel reaches the background colour of the
    current layer and stays there: with byte pixels and every fade-rate
    channel of the layer at least 1 (which startup guarantees), after any
    256 or more iterations of [fade_out(0)] pixels 1..3 are exactly the
    layer's background, and nothing but the pixels has changed.  With rate
    0 over background 0 a channel would never move. *)
Theorem fade_out_reaches_background (n : nat) (st : Globals) :
  (256 <= n)%nat ->
  rgb_bytes (a1 (neo st)) -> rgb_bytes (a2 (neo st)) -> rgb_bytes (a3 (neo st)) ->
  1 <= r (get4 (neofade st) (layer st)) ->
  1 <= g (get4 (neofade st) (layer st)) ->
  1 <= b (get4 (neofade st) (layer st)) ->
  let bg := get4 (neobg st) (layer st) in
  fade_out_n n st =
  with_neo {| a0 := a0 (neo st); a1 := bg; a2 := bg; a3 := bg |} st /\
  (forall v, safe_fade v 0 0 = if v <=? 0 then 0 else u8 v).
Proof.
  intros Hn (R1 & G1 & B1) (R2 & G2 & B2) (R3 & G3 & B3) Fr Fg Fb bg.
  split.
  - rewrite fade_out_n_pixels. cbv zeta.
    rewrite !fade_steps_reaches by lia.
    fold bg. destruct bg as [x y z]. reflexivity.
  - intros v. unfold safe_fade.
    destruct (v <=? 0) eqn:E; [reflexivity|].
    destruct (Z.ltb_spec v 0); [apply Z.leb_gt in E; lia|].
    cbn [Z.ltb Z.compare]. rewrite Z.sub_0_r. reflexivity.
Qed.

Lemma fade_out_reaches_background_witness :
  fade_out_n 300 fading_pixels =
  with_neo {| a0 := a0 (neo fading_pixels); a1 := default_bg;
              a2 := default_bg; a3 := default_bg |} fading_pixels.
Proof.
  apply (fade_out_reaches_background 300 fading_pixels);
    try (cbn; lia); repeat split; cbn; lia.
Defined.

(** ** The state after startup *)

Lemma u8_idem (z : Z) : u8 (u8 z) = u8 z.
Proof. unfold u8. apply Z.mod_mod. lia. Qed.

(** X9: the persisted layout.  After startup, for each layer 0..3 and each
    Event, the binding the dispatcher looks up is the pair of bytes stored
    at the Event's two offsets within the layer's 32 bytes (characters at 1,
    3, 5, 7, 9, 11, 17, 19, 21, 22, 23; modifiers at 0, 2, 4, 6, 8, 10, 16,
    18, 20, 27, 31), and [NONE] has the empty binding. *)
Theorem startup_binding_layout (rom : Z -> Z) (i : Z) (ev : Event) :
  0 <= i <= 3 ->
  binding ev (get4 (chars (startup rom)) i) =
  match binding_offsets ev with
  | Some (co, mo) => (rom (i * 32 + co) mod 256, rom (i * 32 + mo) mod 256)
  | None => (0, 0)
  end.
Proof.
  intros Hi. rewrite startup_tables, decode_all_eq.
  cbn [chars with_neo]. rewrite get4_tabulate4 by exact Hi.
  destruct ev; cbn [binding binding_offsets stored_chars mod1 char1 mod2 char2
                    mod3 char3 modSW charSW modCW charCW modCCW charCCW
                    mod12 char12 mod23 char23 mod13 char13
                    swcharCW swcharCCW swmodCW swmodCCW];
    unfold stored, eeprom_read_byte; rewrite ?u8_idem; reflexivity.
Qed.

Lemma startup_binding_layout_witness :
  binding KEY1 (get4 (chars (startup rom_key1)) 0) = (97, 3).
Proof.
  assert (H : 0 <= 0 <= 3) by lia.
  exact (startup_binding_layout rom_key1 0 KEY1 H).
Defined.

Lemma light_up_foreground (d : Globals) :
  layer d = 0 ->
  let st := set_neo_fg 3 (set_neo_fg 2 (set_neo_fg 1 (startup_warning d))) in
  st = with_neo {| a0 := a0 (neo d); a1 := a0 (neofg d);
                   a2 := a0 (neofg d); a3 := a0 (neofg d) |} d.
Proof.
  destruct d as [[n0 n1 n2 n3] nbg [[x y z] f1 f2 f3] nfd ly ml ch hd dp].
  cbn [layer]. intros ->. unfold startup_warning.
  destruct (Z.lor _ _ =? 0); reflexivity.
Qed.

(** X10: the state after startup, whether or not the unconfigured-keymap
    warning blinked: the layer is 0, nothing has been sent to the keyboard,
    pixels 1, 2 and 3 hold the decoded foreground of layer 0, and slot 0 of
    the pixel array is untouched. *)
Theorem startup_lights_foreground (rom : Z -> Z) :
  let st := startup rom in
  let fg0 := or_default default_fg (stored_rgb rom 0 12) in
  layer st = 0 /\ hid st = [] /\ dispatched st = [] /\
  neo st = {| a0 := black; a1 := fg0; a2 := fg0; a3 := fg0 |}.
Proof.
  cbv zeta. unfold startup. cbv zeta.
  rewrite light_up_foreground by (rewrite decode_all_eq; reflexivity).
  rewrite decode_all_eq. repeat split.
Qed.

(** X11: [type_uint] types a byte as three decimal digits, hundreds first:
    three key taps with the ASCII codes of digits whose value is the byte;
    nothing else changes. *)
Theorem type_uint_digits (n : Z) (st : Globals) :
  0 <= n < 256 ->
  exists d2 d1 d0,
    type_uint n st = emits [Tap (48 + d2); Tap (48 + d1); Tap (48 + d0)] st /\
    0 <= d2 <= 2 /\ 0 <= d1 <= 9 /\ 0 <= d0 <= 9 /\
    n = 100 * d2 + 10 * d1 + d0.
Proof.
  intros Hn.
  exists (n / 100), ((n mod 100) / 10), ((n mod 10) / 1).
  split.
  - unfold type_uint, KBD_type. rewrite !emit_emits, !emits_emits.
    rewrite !u8_small; [reflexivity | | | ];
      Z.to_euclidean_division_equations; lia.
  - Z.to_euclidean_division_equations. lia.
Qed.

Lemma type_uint_digits_witness :
  exists d2 d1 d0,
    type_uint 207 globals0 =
    emits [Tap (48 + d2); Tap (48 + d1); Tap (48 + d0)] globals0 /\
    0 <= d2 <= 2 /\ 0 <= d1 <= 9 /\ 0 <= d0 <= 9 /\
    207 = 100 * d2 + 10 * d1 + d0.
Proof.
  apply (type_uint_digits 207 globals0). lia.
Defined.

(** ** Rotation with the switch held and no secondary layer *)

Lemma quad_run_press_switch (ps : list Pins) :
  forall l, quad_run (map press_switch ps) l = quad_run ps l.
Proof.
  induction ps as [|p ps IH]; intros l; [reflexivity|].
  cbn [map quad_run].
  change (poll_quadrature (press_switch p) l) with (poll_quadrature p l).
  rewrite IH. reflexivity.
Qed.

Lemma held_iteration_no_layers (p : Pins) (l : Locals) (st : Globals) :
  held_mask p = 0 ->
  press l = 0 ->
  max_layer st = 0 ->
  let d := encoder_dir (poll_quadrature p l) in
  exists l' st',
    loop_body (press_switch p) (l, st) = Running (l', st') /\
    keyenc l' = true /\ press l' = 0 /\ knob l' = knob l /\
    encoder_state l' = encoder_state (poll_quadrature p l) /\
    encoder_value l' = encoder_value (poll_quadrature p l) /\
    mode_changed l' = (keyenc l && mode_changed l) || negb (d =? 0) /\
    layer st' = layer st /\ max_layer st' = 0 /\
    dispatched st' = dispatched st ++ held_dir_events d.
Proof.
  intros Hm Hp Hml d.
  destruct (poll_keys_spec (press_switch p) l st) as
    (l1 & st1 & E1 & K1 & S1 & V1 & Ly1 & Ml1 & Z1 & _);
    [change (held_mask (press_switch p)) with (held_mask p); lia|].
  destruct (Z1 Hm) as (P1 & D1). rewrite Hp in D1.
  change (chord_events 0) with (@nil Event) in D1. rewrite app_nil_r in D1.
  destruct (poll_keys_locals (press_switch p) l l1 st st1 E1)
    as (_ & N1 & _ & M1 & _ & _ & _).
  rewrite loop_body_after_keys, E1.
  exists (fst (after_keys (press_switch p) (l1, st1))),
         (snd (after_keys (press_switch p) (l1, st1))).
  split; [destruct (after_keys (press_switch p) (l1, st1)); reflexivity|].
  unfold after_keys. cbv zeta. cbn [fst snd].
  set (l2 := if keyenc l1 then l1 else set_mode_changed false (set_keyenc true l1)).
  assert (E2 : poll_encoder_switch (press_switch p) l1 st1 = (l2, st1)).
  { unfold poll_encoder_switch, l2. cbn [PIN_ENC_SW press_switch negb].
    destruct (keyenc l1) eqn:Ek; cbn [eqb negb]; [reflexivity|].
    cbn [keyenc set_keyenc negb]. reflexivity. }
  rewrite E2. cbn [fst snd].
  assert (F2 : keyenc l2 = true /\ mode_changed l2 = keyenc l && mode_changed l /\
               knob l2 = knob l /\ press l2 = 0 /\
               encoder_state l2 = encoder_state l /\
               encoder_value l2 = encoder_value l).
  { subst l2. rewrite <- K1, <- M1.
    destruct (keyenc l1) eqn:Ek; cbn; repeat split; congruence. }
  destruct F2 as (K2 & M2 & N2 & P2 & S2 & V2).
  change (poll_quadrature (press_switch p) l2) with (poll_quadrature p l2).
  destruct (poll_quadrature_enc p l2) as (Q1 & Q2 & Q3).
  destruct (poll_quadrature_enc p l) as (R1 & R2 & R3).
  rewrite S2, V2 in Q1, Q2, Q3.
  set (l3 := poll_quadrature p l2) in *.
  assert (F3 : keyenc l3 = true /\ mode_changed l3 = keyenc l && mode_changed l /\
               knob l3 = knob l /\ press l3 = 0) by (subst l3; cbn; auto).
  destruct F3 as (K3 & M3 & N3 & P3).
  assert (D3 : encoder_dir l3 = d) by (subst d; congruence).
  assert (Ml : max_layer st1 = 0) by congruence.
  destruct (update_lights_locals (fst (apply_rotation l3 st1))
              (snd (apply_rotation l3 st1))) as (x & Ux).
  pose proof (update_lights_only_neo (fst (apply_rotation l3 st1))
                (snd (apply_rotation l3 st1))) as Hneo.
  destruct (only_neo_layer _ _ Hneo) as (Ly & Mx).
  rewrite (only_neo_dispatched _ _ Hneo), Ly, Mx, Ux.
  cbn [press encoder_state encoder_value knob keyenc mode_changed set_show_mode].
  unfold apply_rotation. cbv zeta. rewrite K3, D3, Ml. cbn [Z.ltb Z.compare].
  unfold held_dir_events.
  destruct (Z.eqb_spec d 0) as [Ez|Nz]; cbn [negb fst snd].
  - rewrite Ml. cbn [Z.ltb Z.compare fst snd]. rewrite Ez. cbn [Z.ltb Z.compare].
    rewrite orb_false_r, app_nil_r.
    repeat split; try congruence.
  - destruct (Z.ltb_spec 0 d); destruct (Z.ltb_spec d 0); try lia;
      rewrite ?parse_type_max_layer, Ml; cbn [Z.ltb Z.compare fst snd];
      rewrite ?parse_type_layer, ?parse_type_max_layer, ?parse_type_dispatched,
        orb_true_r;
      cbn [mode_changed set_mode_changed keyenc knob press encoder_state
           encoder_value];
      repeat split; try congruence.
Qed.

Lemma run_loop_held_no_layers (ps : list Pins) :
  forall (l : Locals) (st : Globals),
  Forall (fun p => held_mask p = 0) ps ->
  keyenc l = true ->
  press l = 0 ->
  max_layer st = 0 ->
  exists l' st',
    run_loop (map press_switch ps) (l, st) = Running (l', st') /\
    keyenc l' = true /\ press l' = 0 /\ knob l' = knob l /\
    encoder_state l' = encoder_state (snd (quad_run ps l)) /\
    encoder_value l' = encoder_value (snd (quad_run ps l)) /\
    mode_changed l' = mode_changed l || stepped (fst (quad_run ps l)) /\
    layer st' = layer st /\ max_layer st' = 0 /\
    dispatched st' = dispatched st ++ flat_map held_dir_events (fst (quad_run ps l)).
Proof.
  induction ps as [|p ps IH]; intros l st Hall Hk Hp Hm.
  - exists l, st. cbn. rewrite app_nil_r, orb_false_r. repeat split; assumption.
  - inversion Hall as [|p0 ps0 Hc Hrest]; subst.
    destruct (held_iteration_no_layers p l st Hc Hp Hm)
      as (l1 & st1 & E1 & K1 & P1 & N1 & S1 & V1 & M1 & Ly1 & Ml1 & D1).
    destruct (IH l1 st1 Hrest K1 P1 Ml1)
      as (l2 & st2 & E2 & K2 & P2 & N2 & S2 & V2 & M2 & Ly2 & Ml2 & D2).
    destruct (quad_run_ext ps l1 (poll_quadrature p l) S1 V1) as (X1 & X2 & X3).
    exists l2, st2. cbn [map run_loop quad_run fst snd flat_map]. rewrite E1.
    split; [exact E2|]. split; [exact K2|]. split; [exact P2|].
    split; [congruence|]. split; [congruence|]. split; [congruence|].
    split.
    { rewrite M2, M1, X1, Hk. unfold stepped. cbn [existsb andb].
      rewrite orb_assoc. reflexivity. }
    split; [congruence|]. split; [exact Ml2|].
    rewrite D2, D1, X1, <- app_assoc. reflexivity.
Qed.

Lemma flat_map_held_dir_events_steps (ds : list Z) :
  flat_map held_dir_events ds = flat_map held_dir_events (steps ds).
Proof.
  induction ds as [|d ds IH]; [reflexivity|].
  unfold steps. cbn [flat_map filter].
  destruct (Z.eqb_spec d 0) as [->|N]; cbn [negb].
  - exact IH.
  - cbn [flat_map]. f_equal. exact IH.
Qed.

Lemma flat_map_held_dir_events_repeat (d : Z) (ev : Event) (n : nat) :
  held_dir_events d = [ev] ->
  flat_map held_dir_events (repeat d n) = repeat ev n.
Proof.
  intros H. induction n as [|n IH]; [reflexivity|].
  cbn [repeat flat_map]. rewrite H, IH. reflexivity.
Qed.

Lemma stepped_steps (ds : list Z) : steps ds <> [] -> stepped ds = true.
Proof.
  induction ds as [|d ds IH]; [intros H; contradiction|].
  unfold steps, stepped. cbn [filter existsb].
  destruct (negb (d =? 0)); [reflexivity|].
  intros H. apply IH. exact H.
Qed.

Lemma held_mask_detents (detent : nat * nat * nat * nat -> list Pins)
      (ks : list (nat * nat * nat * nat)) :
  (forall k, Forall controls_up (detent k)) ->
  Forall (fun p => held_mask p = 0) (concat (map detent ks)).
Proof.
  intros H. eapply Forall_impl; [|apply controls_up_detents; exact H].
  intros p (Hm & _). exact Hm.
Qed.

(** The first of a sequence of polls with the switch pressed latches the
    switch; the others find it latched. *)
Lemma run_loop_press_and_turn (ps : list Pins) (l : Locals) (st : Globals) :
  ps <> [] ->
  Forall (fun p => held_mask p = 0) ps ->
  keyenc l = false ->
  press l = 0 ->
  max_layer st = 0 ->
  exists l' st',
    run_loop (map press_switch ps) (l, st) = Running (l', st') /\
    keyenc l' = true /\ press l' = 0 /\ knob l' = knob l /\
    encoder_state l' = encoder_state (snd (quad_run ps l)) /\
    encoder_value l' = encoder_value (snd (quad_run ps l)) /\
    mode_changed l' = stepped (fst (quad_run ps l)) /\
    layer st' = layer st /\ max_layer st' = 0 /\
    dispatched st' = dispatched st ++ flat_map held_dir_events (fst (quad_run ps l)).
Proof.
  intros Hne Hall Hk Hp Hm.
  destruct ps as [|p ps]; [contradiction|].
  inversion Hall as [|p0 ps0 Hc Hrest]; subst.
  destruct (held_iteration_no_layers p l st Hc Hp Hm)
    as (l1 & st1 & E1 & K1 & P1 & N1 & S1 & V1 & M1 & Ly1 & Ml1 & D1).
  destruct (run_loop_held_no_layers ps l1 st1 Hrest K1 P1 Ml1)
    as (l2 & st2 & E2 & K2 & P2 & N2 & S2 & V2 & M2 & Ly2 & Ml2 & D2).
  destruct (quad_run_ext ps l1 (poll_quadrature p l) S1 V1) as (X1 & X2 & X3).
  exists l2, st2. cbn [map run_loop quad_run fst snd flat_map]. rewrite E1.
  split; [exact E2|]. split; [exact K2|]. split; [exact P2|].
  split; [congruence|]. split; [congruence|]. split; [congruence|].
  split.
  { rewrite M2, M1, X1, Hk. unfold stepped. cbn [existsb andb orb]. reflexivity. }
  split; [congruence|]. split; [exact Ml2|].
  rewrite D2, D1, X1, <- app_assoc. reflexivity.
Qed.

(** X12: with no secondary layer configured, turning the encoder by one or
    more full detents while its switch is held dispatches one [ENC_SW_CW]
    (or [ENC_SW_CCW]) per detent, keeps the layer, and the release of the
    switch that follows dispatches no [ENC_SW]. *)
Theorem held_detents_dispatch_no_click
  (k : nat * nat * nat * nat) (ks : list (nat * nat * nat * nat))
  (l : Locals) (st : Globals) :
  keyenc l = false ->
  press l = 0 ->
  encoder_state l = 0 ->
  encoder_value l = 0 ->
  0 <= knob l <= 201 ->
  max_layer st = 0 ->
  (exists l' st',
     run_loop (map press_switch (concat (map detent_cw (k :: ks))) ++ [phase_pins 0])
       (l, st) = Running (l', st') /\
     dispatched st' = dispatched st ++ repeat ENC_SW_CW (S (length ks)) /\
     layer st' = layer st /\ keyenc l' = false) /\
  (exists l' st',
     run_loop (map press_switch (concat (map detent_ccw (k :: ks))) ++ [phase_pins 0])
       (l, st) = Running (l', st') /\
     dispatched st' = dispatched st ++ repeat ENC_SW_CCW (S (length ks)) /\
     layer st' = layer st /\ keyenc l' = false).
Proof.
  intros Hk Hp He Hv Hn Hm.
  assert (G : forall detent d ev,
            (forall k0, Forall controls_up (detent k0)) ->
            (forall k0, detent k0 <> []) ->
            (forall k0 l0, encoder_state l0 = 0 -> encoder_value l0 = 0 ->
               steps (fst (quad_run (detent k0) l0)) = [d] /\
               encoder_state (snd (quad_run (detent k0) l0)) = 0 /\
               encoder_value (snd (quad_run (detent k0) l0)) = 0) ->
            held_dir_events d = [ev] ->
            exists l' st',
              run_loop (map press_switch (concat (map detent (k :: ks)))
                        ++ [phase_pins 0]) (l, st) = Running (l', st') /\
              dispatched st' = dispatched st ++ repeat ev (S (length ks)) /\
              layer st' = layer st /\ keyenc l' = false).
  { intros detent d ev Hup Hne One Hev.
    destruct (run_loop_press_and_turn (concat (map detent (k :: ks))) l st)
      as (l1 & st1 & E1 & K1 & P1 & N1 & S1 & V1 & M1 & Ly1 & Ml1 & D1);
      try assumption.
    { cbn [map concat]. intros H. apply app_eq_nil in H. apply (Hne k), H. }
    { apply held_mask_detents, Hup. }
    destruct (quad_run_detents detent d One (k :: ks) l He Hv) as (Q1 & Q2 & Q3).
    cbn [length repeat] in Q1.
    rewrite flat_map_held_dir_events_steps, Q1 in D1.
    change (d :: repeat d (length ks)) with (repeat d (S (length ks))) in D1.
    rewrite (flat_map_held_dir_events_repeat d ev) in D1 by exact Hev.
    rewrite stepped_steps in M1 by (rewrite Q1; discriminate).
    assert (Hs1 : switch_only l1) by (unfold switch_only; repeat split; lia).
    destruct (switch_release_iteration l1 st1 Hs1 K1)
      as (l2 & st2 & E2 & _ & K2 & _ & Ly2 & _ & D2).
    rewrite M1, app_nil_r in D2.
    exists l2, st2. rewrite run_loop_app, E1. cbn [run_loop]. rewrite E2.
    repeat split; congruence. }
  split.
  - apply (G detent_cw (-1) ENC_SW_CW controls_up_detent_cw).
    + intros [[[k1 k2] k3] k4]. discriminate.
    + exact quad_run_detent_cw.
    + reflexivity.
  - apply (G detent_ccw 1 ENC_SW_CCW controls_up_detent_ccw).
    + intros [[[k1 k2] k3] k4]. discriminate.
    + exact quad_run_detent_ccw.
    + reflexivity.
Qed.

Lemma held_detents_dispatch_no_click_witness :
  exists l' st',
    run_loop (map press_switch (concat (map detent_cw [(0, 0, 1, 0); (2, 0, 0, 0)]%nat))
              ++ [phase_pins 0]) (locals0, startup erased) = Running (l', st') /\
    dispatched st' = dispatched (startup erased) ++ repeat ENC_SW_CW 2 /\
    layer st' = layer (startup erased) /\ keyenc l' = false.
Proof.
  assert (Hn : 0 <= knob locals0 <= 201) by (simpl; lia).
  exact (proj1 (held_detents_dispatch_no_click (0, 0, 1, 0)%nat [(2, 0, 0, 0)%nat]
                  locals0 (startup erased) eq_refl eq_refl eq_refl eq_refl Hn
                  eq_refl)).
Defined.

(** ** From stored bytes to keystrokes *)

Lemma typed_with_neo (ev : Event) (a : Arr4 RGB) (st : Globals) :
  typed ev (with_neo a st) = typed ev st.
Proof. reflexivity. Qed.

Lemma release_switch_hid (m : Z) (st : Globals) :
  hid (release_switch m st) =
  hid st ++ match chord m with Some ev => typed ev st | None => [] end.
Proof.
  unfold release_switch, chord, typed.
  destruct m as [|[[|[]|]|[[]|[]|]|]|];
    rewrite ?parse_type_hid, ?app_nil_r; reflexivity.
Qed.

Lemma only_neo_release_switch_hid (m : Z) (st s : Globals) :
  only_neo st s -> hid (release_switch m s) = hid (release_switch m st).
Proof.
  intros Hn. rewrite !release_switch_hid, Hn.
  destruct (chord m); [rewrite typed_with_neo|]; reflexivity.
Qed.

Lemma only_neo_hid (st st' : Globals) : only_neo st st' -> hid st' = hid st.
Proof. intros ->. reflexivity. Qed.

(** The part of an iteration after the keys, with the encoder idle and at
    rest, touches only the pixels. *)
Lemma idle_after_keys (p : Pins) (l : Locals) (st : Globals) :
  encoder_idle p ->
  encoder_rest l ->
  only_neo st (snd (after_keys p (l, st))) /\
  encoder_rest (fst (after_keys p (l, st))) /\
  press (fst (after_keys p (l, st))) = press l.
Proof.
  intros (Psw & Pa & Pb) (Hk & He & Hv).
  unfold after_keys. cbv zeta. cbn [fst snd].
  assert (E2 : poll_encoder_switch p l st = (l, st)).
  { unfold poll_encoder_switch. rewrite Psw, Hk. reflexivity. }
  rewrite E2. cbn [fst snd].
  assert (Ph : phase p = encoder_state l).
  { unfold phase. rewrite Pa, Pb, He. reflexivity. }
  destruct (poll_quadrature_resample p l ltac:(lia) Hv Ph) as (R1 & R2 & R3).
  set (l3 := poll_quadrature p l) in *.
  assert (K3 : keyenc l3 = false) by exact Hk.
  assert (E4 : apply_rotation l3 st = (set_knob 0 l3, st)).
  { unfold apply_rotation. rewrite K3, R3. reflexivity. }
  rewrite E4. cbn [fst snd].
  destruct (update_lights_locals (set_knob 0 l3) st) as (x & Ux).
  rewrite Ux. split; [apply update_lights_only_neo|].
  unfold encoder_rest.
  cbn [keyenc encoder_state encoder_value press set_show_mode set_knob].
  repeat split; try congruence; try lia.
Qed.

Lemma poll_keys_held_only_neo (p : Pins) (l : Locals) (st : Globals) :
  held_mask p <> 0 ->
  held_mask p <> 7 ->
  exists l' st',
    poll_keys p l st = Running (l', st') /\ only_neo st st' /\
    press l' = Z.lor (press l) (held_mask p) /\
    keyenc l' = keyenc l /\ encoder_state l' = encoder_state l /\
    encoder_value l' = encoder_value l.
Proof.
  intros H0 H7. unfold poll_keys. cbv zeta. rewrite !debounce_eq.
  destruct (key_held_chain (negb (PIN_KEY1 p)) (negb (PIN_KEY2 p))
              (negb (PIN_KEY3 p)) (press l) st) as (Hh & Hp & Hn).
  fold (held_mask p) in Hh, Hp.
  set (s := key_held _ _ _ _) in *.
  rewrite Hh, Hp.
  destruct (Z.eqb_spec (held_mask p) 0); [contradiction|].
  destruct (Z.eqb_spec (held_mask p) 7); [contradiction|].
  do 2 eexists. split; [reflexivity|]. repeat split. exact Hn.
Qed.

Lemma poll_keys_released_hid (p : Pins) (l : Locals) (st : Globals) :
  held_mask p = 0 ->
  exists l' st',
    poll_keys p l st = Running (l', st') /\
    hid st' = hid (release_switch (press l) st) /\
    keyenc l' = keyenc l /\ encoder_state l' = encoder_state l /\
    encoder_value l' = encoder_value l.
Proof.
  intros H0. unfold poll_keys. cbv zeta. rewrite !debounce_eq.
  destruct (key_held_chain (negb (PIN_KEY1 p)) (negb (PIN_KEY2 p))
              (negb (PIN_KEY3 p)) (press l) st) as (Hh & Hp & Hn).
  fold (held_mask p) in Hh, Hp.
  set (s := key_held _ _ _ _) in *.
  rewrite Hh, Hp, H0, Z.lor_0_r. cbn [Z.eqb].
  do 2 eexists. split; [reflexivity|]. repeat split.
  apply only_neo_release_switch_hid. exact Hn.
Qed.

Lemma run_loop_holding_only_neo (ps : list Pins) :
  forall (l : Locals) (st : Globals),
  encoder_rest l ->
  Forall (fun p => encoder_idle p /\ held_mask p <> 0 /\ held_mask p <> 7) ps ->
  exists l' st',
    run_loop ps (l, st) = Running (l', st') /\
    encoder_rest l' /\
    press l' = fold_left Z.lor (map held_mask ps) (press l) /\
    only_neo st st'.
Proof.
  induction ps as [|p ps IH]; intros l st Hr Hall.
  - exists l, st. repeat split; try apply Hr. apply only_neo_refl.
  - inversion Hall as [|p0 ps0 (Hi & H0 & H7) Hrest]; subst.
    destruct (poll_keys_held_only_neo p l st H0 H7)
      as (l1 & st1 & E1 & N1 & P1 & K1 & S1 & V1).
    assert (R1 : encoder_rest l1).
    { destruct Hr as (A & B & C). unfold encoder_rest. rewrite K1, S1, V1. auto. }
    destruct (idle_after_keys p l1 st1 Hi R1) as (N2 & R2 & P2).
    destruct (after_keys p (l1, st1)) as [l2 st2] eqn:E2. cbn [fst snd] in *.
    destruct (IH l2 st2 R2 Hrest) as (l3 & st3 & E3 & R3 & P3 & N3).
    exists l3, st3. cbn [run_loop map fold_left].
    rewrite loop_body_after_keys, E1, E2.
    split; [exact E3|]. split; [exact R3|].
    split; [congruence|].
    eapply only_neo_trans; [|exact N3].
    eapply only_neo_trans; eassumption.
Qed.

(** X13: from stored bytes to keystrokes.  From power-on with any data
    flash, holding one or two keys (any history with one or two keys down in
    every poll, the encoder idle) and then releasing them sends to the
    keyboard exactly what one dispatch of the resolved Event types on layer
    0: the layer-0 binding stored in flash followed by the fallback
    bindings; a mask that resolves to no Event sends nothing. *)
Theorem key_release_types_binding (rom : Z -> Z) (ps : list Pins) :
  Forall (fun p => encoder_idle p /\ held_mask p <> 0 /\ held_mask p <> 7) ps ->
  let m := fold_left Z.lor (map held_mask ps) 0 in
  exists l st,
    run_loop (ps ++ [phase_pins 0]) (locals0, startup rom) = Running (l, st) /\
    hid st = match chord m with
             | Some ev => typed ev (startup rom)
             | None => []
             end /\
    (forall ev, chord m = Some ev -> 3 <= rom 111 mod 256 ->
       hid st = binding_actions (binding ev (get4 (chars (startup rom)) 0))).
Proof.
  intros Hall m.
  assert (R0 : encoder_rest locals0) by (repeat split; cbn; lia).
  destruct (run_loop_holding_only_neo ps locals0 (startup rom) R0 Hall)
    as (l1 & st1 & E1 & R1 & P1 & N1).
  destruct (poll_keys_released_hid (phase_pins 0) l1 st1 eq_refl)
    as (l2 & st2 & E2 & H2 & K2 & S2 & V2).
  assert (R2 : encoder_rest l2).
  { destruct R1 as (A & B & C). unfold encoder_rest. rewrite K2, S2, V2. auto. }
  assert (Hi : encoder_idle (phase_pins 0)) by (repeat split).
  destruct (idle_after_keys (phase_pins 0) l2 st2 Hi R2) as (N3 & _ & _).
  destruct (after_keys (phase_pins 0) (l2, st2)) as [l3 st3] eqn:E3.
  cbn [fst snd] in N3.
  assert (Hh : hid st3 = match chord m with
                         | Some ev => typed ev (startup rom)
                         | None => []
                         end).
  { rewrite (only_neo_hid _ _ N3), H2, (only_neo_release_switch_hid _ _ _ N1).
    rewrite release_switch_hid, P1. fold m.
    assert (H0 : hid (startup rom) = []).
    { rewrite startup_tables, decode_all_eq. reflexivity. }
    rewrite H0. reflexivity. }
  exists l3, st3. rewrite run_loop_app, E1. cbn [run_loop].
  rewrite loop_body_after_keys, E2, E3.
  split; [reflexivity|]. split; [exact Hh|].
  intros ev Hev Hml. rewrite Hh, Hev. unfold typed, fallback_actions.
  assert (L0 : layer (startup rom) = 0)
    by (rewrite startup_tables, decode_all_eq; reflexivity).
  assert (M0 : max_layer (startup rom) = rom 111 mod 256)
    by (rewrite startup_tables, decode_all_eq; reflexivity).
  rewrite L0, M0.
  destruct (Z.ltb_spec (rom 111 mod 256) 3); [lia|].
  cbn [Z.eqb andb]. apply app_nil_r.
Qed.

Lemma key_release_types_binding_witness :
  let m := fold_left Z.lor (map held_mask [key1_down; key1_down]) 0 in
  exists l st,
    run_loop ([key1_down; key1_down] ++ [phase_pins 0]) (locals0, startup rom_key1)
    = Running (l, st) /\
    hid st = match chord m with
             | Some ev => typed ev (startup rom_key1)
             | None => []
             end /\
    (forall ev, chord m = Some ev -> 3 <= rom_key1 111 mod 256 ->
       hid st = binding_actions (binding ev (get4 (chars (startup rom_key1)) 0))).
Proof.
  assert (Hp : Forall (fun p => encoder_idle p /\ held_mask p <> 0 /\ held_mask p <> 7)
                 [key1_down; key1_down]).
  { repeat constructor; vm_compute; discriminate. }
  exact (key_release_types_binding rom_key1 [key1_down; key1_down] Hp).
Defined.

(** ** Layer selection through the loop *)

Lemma parse_layer_with_neo (d : Z) (a : Arr4 RGB) (st : Globals) :
  parse_layer d (with_neo a st) = with_neo a (parse_layer d st).
Proof.
  destruct st as [n nbg nfg nfd ly ml ch hd dp].
  unfold parse_layer, with_neo, with_max_layer, with_layer.
  cbn [max_layer layer neo neobg neofg neofade chars hid dispatched].
  destruct (3 <? ml); destruct (d =? 0); try reflexivity;
    [ | destruct ml as [|[[?|?|]|[?|?|]|]|?]; try reflexivity ];
    cbn [max_layer layer neo neobg neofg neofade chars hid dispatched];
    try (destruct (3 <? u8 (ly + d));
         [ reflexivity
         | cbn [max_layer layer neo neobg neofg neofade chars hid dispatched];
           destruct (u8 (ly + d) <? 1); reflexivity ]);
    try (destruct (0 <? d); [reflexivity|]; destruct (d <? 0); reflexivity).
Qed.

Lemma only_neo_parse_layer (d : Z) (st s : Globals) :
  only_neo st s -> only_neo (parse_layer d st) (parse_layer d s).
Proof.
  intros Hn. unfold only_neo. rewrite Hn.
  rewrite !parse_layer_with_neo. reflexivity.
Qed.

Lemma only_neo_select_layers (ds : list Z) :
  forall st s, only_neo st s -> only_neo (select_layers ds st) (select_layers ds s).
Proof.
  induction ds as [|d ds IH]; intros st s Hn; [exact Hn|].
  cbn [select_layers fold_left]. apply IH, only_neo_parse_layer, Hn.
Qed.

Lemma parse_layer_dispatched (d : Z) (st : Globals) :
  dispatched (parse_layer d st) = dispatched st.
Proof.
  unfold parse_layer.
  set (c := if 3 <? max_layer st then with_max_layer 3 st else st).
  assert (Hc : dispatched c = dispatched st)
    by (subst c; destruct (3 <? max_layer st); reflexivity).
  rewrite <- Hc.
  destruct (d =? 0); [reflexivity|].
  destruct (max_layer c) as [|[[?|?|]|[?|?|]|]|?];
    cbn [layer dispatched with_layer];
    repeat match goal with
           | |- context [if ?t then _ else _] => destruct t
           end; reflexivity.
Qed.

(** One iteration with the switch held, no key down and at least one
    secondary layer: a direction step selects a layer, the idle timeout
    resets it, nothing is dispatched. *)
Lemma held_iteration_layers (p : Pins) (l : Locals) (st : Globals) :
  held_mask p = 0 ->
  press l = 0 ->
  0 < max_layer st ->
  0 <= knob l <= 201 ->
  let d := encoder_dir (poll_quadrature p l) in
  let s1 := if d =? 0 then st else parse_layer d st in
  let s2 := if 200 <? knob l then parse_layer 0 s1 else s1 in
  let mc := (keyenc l && mode_changed l) || negb (d =? 0) || (200 <? knob l) in
  exists l' st',
    loop_body (press_switch p) (l, st) = Running (l', st') /\
    keyenc l' = true /\ press l' = 0 /\
    encoder_state l' = encoder_state (poll_quadrature p l) /\
    encoder_value l' = encoder_value (poll_quadrature p l) /\
    mode_changed l' = mc /\
    knob l' = (if mc then 0 else knob l + 1) /\
    only_neo s2 st'.
Proof.
  intros Hm Hp Hml Hn d s1 s2 mc.
  destruct (poll_keys_released_hid (press_switch p) l st) as
    (l1 & st1 & E1 & _ & K1 & S1 & V1); [exact Hm|].
  assert (N0 : only_neo st st1 /\ press l1 = 0).
  { revert E1. unfold poll_keys. cbv zeta. rewrite !debounce_eq.
    destruct (key_held_chain (negb (PIN_KEY1 (press_switch p)))
                (negb (PIN_KEY2 (press_switch p)))
                (negb (PIN_KEY3 (press_switch p))) (press l) st) as (Hh & Hq & Hneo).
    fold (held_mask (press_switch p)) in Hh, Hq.
    change (held_mask (press_switch p)) with (held_mask p) in Hh, Hq.
    set (s := key_held _ _ _ _) in *.
    rewrite Hh, Hq, Hm, Hp. cbn [Z.eqb Z.lor release_switch].
    intros E. injection E as <- <-. split; [exact Hneo | reflexivity]. }
  destruct N0 as (N0 & P1).
  destruct (poll_keys_locals (press_switch p) l l1 st st1 E1)
    as (_ & N1 & _ & M1 & _ & _ & _).
  rewrite loop_body_after_keys, E1.
  exists (fst (after_keys (press_switch p) (l1, st1))),
         (snd (after_keys (press_switch p) (l1, st1))).
  split; [destruct (after_keys (press_switch p) (l1, st1)); reflexivity|].
  unfold after_keys. cbv zeta. cbn [fst snd].
  set (l2 := if keyenc l1 then l1 else set_mode_changed false (set_keyenc true l1)).
  assert (E2 : poll_encoder_switch (press_switch p) l1 st1 = (l2, st1)).
  { unfold poll_encoder_switch, l2. cbn [PIN_ENC_SW press_switch negb].
    destruct (keyenc l1) eqn:Ek; cbn [eqb negb]; [reflexivity|].
    cbn [keyenc set_keyenc negb]. reflexivity. }
  rewrite E2. cbn [fst snd].
  assert (F2 : keyenc l2 = true /\ mode_changed l2 = keyenc l && mode_changed l /\
               knob l2 = knob l /\ press l2 = 0 /\
               encoder_state l2 = encoder_state l /\
               encoder_value l2 = encoder_value l).
  { subst l2. rewrite <- K1, <- M1.
    destruct (keyenc l1) eqn:Ek; cbn; repeat split; congruence. }
  destruct F2 as (K2 & M2 & N2 & P2 & S2 & V2).
  change (poll_quadrature (press_switch p) l2) with (poll_quadrature p l2).
  destruct (poll_quadrature_enc p l2) as (Q1 & Q2 & Q3).
  destruct (poll_quadrature_enc p l) as (R1 & R2 & R3).
  rewrite S2, V2 in Q1, Q2, Q3.
  set (l3 := poll_quadrature p l2) in *.
  assert (F3 : keyenc l3 = true /\ mode_changed l3 = keyenc l && mode_changed l /\
               knob l3 = knob l /\ press l3 = 0) by (subst l3; cbn; auto).
  destruct F3 as (K3 & M3 & N3 & P3).
  assert (D3 : encoder_dir l3 = d) by (subst d; congruence).
  assert (Ml : max_layer st1 = max_layer st)
    by (destruct (only_neo_layer _ _ N0); assumption).
  destruct (update_lights_locals (fst (apply_rotation l3 st1))
              (snd (apply_rotation l3 st1))) as (x & Ux).
  pose proof (update_lights_only_neo (fst (apply_rotation l3 st1))
                (snd (apply_rotation l3 st1))) as Hneo.
  rewrite Ux.
  cbn [press encoder_state encoder_value knob keyenc mode_changed set_show_mode].
  assert (A : fst (apply_rotation l3 st1) =
              (if mc then set_knob 0 (set_show_mode 60
                                        (if 200 <? knob l
                                         then set_mode_changed true
                                                (if d =? 0 then l3
                                                 else set_show_mode 60
                                                        (set_mode_changed true l3))
                                         else if d =? 0 then l3
                                              else set_show_mode 60
                                                     (set_mode_changed true l3)))
               else set_knob (knob l + 1) l3) /\
              only_neo s2 (snd (apply_rotation l3 st1))).
  { unfold apply_rotation. cbv zeta. rewrite K3, D3, Ml.
    destruct (Z.ltb_spec 0 (max_layer st)) as [_|F]; [|lia].
    assert (Pm : forall dd s, max_layer s = max_layer st ->
                              (0 <? max_layer (parse_layer dd s)) = true).
    { intros dd s Hs. rewrite parse_layer_max_layer, Hs. apply Z.ltb_lt. lia. }
    subst mc s2 s1.
    destruct (Z.eqb_spec d 0) as [Ez|Nz]; cbn [negb fst snd].
    - rewrite Ml. destruct (Z.ltb_spec 0 (max_layer st)) as [_|F]; [|lia].
      rewrite N3, orb_false_r.
      destruct (Z.ltb_spec 200 (knob l)); cbn [fst snd mode_changed set_mode_changed].
      + rewrite orb_true_r. split; [reflexivity|].
        apply only_neo_parse_layer. exact N0.
      + rewrite M3, orb_false_r.
        destruct (keyenc l && mode_changed l); cbn [fst snd].
        * split; [reflexivity | exact N0].
        * rewrite u8_small by lia. rewrite N3. split; [reflexivity | exact N0].
    - rewrite (Pm d st1 Ml).
      cbn [knob set_show_mode set_mode_changed]. rewrite N3.
      rewrite orb_true_r. cbn [orb].
      destruct (Z.ltb_spec 200 (knob l));
        cbn [fst snd mode_changed set_mode_changed set_show_mode].
      + split; [reflexivity|].
        apply only_neo_parse_layer, only_neo_parse_layer. exact N0.
      + split; [reflexivity|]. apply only_neo_parse_layer. exact N0. }
  destruct A as (A1 & A2). rewrite A1 in Hneo |- *.
  split.
  { destruct mc; [destruct (200 <? knob l); destruct (d =? 0)|]; exact K3. }
  split.
  { destruct mc; [destruct (200 <? knob l); destruct (d =? 0)|]; exact P3. }
  split.
  { destruct mc; [destruct (200 <? knob l); destruct (d =? 0)|];
      cbn [encoder_state encoder_value set_knob set_show_mode set_mode_changed];
      congruence. }
  split.
  { destruct mc; [destruct (200 <? knob l); destruct (d =? 0)|];
      cbn [encoder_state encoder_value set_knob set_show_mode set_mode_changed];
      congruence. }
  split.
  { subst mc.
    destruct (200 <? knob l) eqn:Et; destruct (d =? 0) eqn:Ed;
      cbn [negb orb]; rewrite ?orb_true_r, ?orb_false_r;
      cbn [mode_changed set_knob set_show_mode set_mode_changed]; try reflexivity.
    rewrite <- M3. destruct (mode_changed l3) eqn:Em; cbn; congruence. }
  split.
  { destruct mc; [destruct (200 <? knob l); destruct (d =? 0)|]; reflexivity. }
  eapply only_neo_trans; [exact A2 | exact Hneo].
Qed.

Lemma select_layers_cons (d : Z) (ds : list Z) (st : Globals) :
  select_layers (d :: ds) st = select_layers ds (parse_layer d st).
Proof. reflexivity. Qed.

Lemma select_layers_dispatched (ds : list Z) :
  forall st, dispatched (select_layers ds st) = dispatched st.
Proof.
  induction ds as [|d ds IH]; intros st; [reflexivity|].
  cbn [select_layers fold_left]. fold (select_layers ds (parse_layer d st)).
  rewrite IH. apply parse_layer_dispatched.
Qed.

Lemma select_layers_max_layer (ds : list Z) :
  forall st, ds <> [] -> max_layer (select_layers ds st) = Z.min (max_layer st) 3.
Proof.
  induction ds as [|d ds IH]; intros st Hne; [contradiction|].
  cbn [select_layers fold_left]. fold (select_layers ds (parse_layer d st)).
  destruct ds as [|d' ds'].
  - apply parse_layer_max_layer.
  - rewrite IH by discriminate. rewrite parse_layer_max_layer. lia.
Qed.

Lemma select_layers_one (ds : list Z) :
  forall st, ds <> [] -> Forall (fun d => d <> 0) ds -> max_layer st = 1 ->
  layer (select_layers ds st) = 3.
Proof.
  induction ds as [|d ds IH]; intros st Hne Hall Hm; [contradiction|].
  inversion Hall as [|d0 ds0 Hd Hrest]; subst.
  cbn [select_layers fold_left]. fold (select_layers ds (parse_layer d st)).
  destruct ds as [|d' ds'].
  - apply parse_layer_one; assumption.
  - apply IH; [discriminate | exact Hrest |].
    rewrite parse_layer_max_layer. lia.
Qed.

Lemma steps_nonzero (ds : list Z) : Forall (fun d => d <> 0) (steps ds).
Proof.
  apply Forall_forall. intros d Hin. apply filter_In in Hin.
  destruct Hin as (_ & H). destruct (Z.eqb_spec d 0); [discriminate | assumption].
Qed.

Lemma steps_cons (d : Z) (ds : list Z) :
  steps (d :: ds) = if d =? 0 then steps ds else d :: steps ds.
Proof. unfold steps. cbn [filter]. destruct (d =? 0); reflexivity. Qed.

(** With the switch held after a layer change, further polls select layers
    step by step and the idle timeout does not fire. *)
Lemma run_loop_held_after_change (ps : list Pins) :
  forall (l : Locals) (st : Globals),
  Forall (fun p => held_mask p = 0) ps ->
  keyenc l = true ->
  mode_changed l = true ->
  press l = 0 ->
  0 <= knob l <= 200 ->
  0 < max_layer st ->
  exists l' st',
    run_loop (map press_switch ps) (l, st) = Running (l', st') /\
    keyenc l' = true /\ mode_changed l' = true /\
    only_neo (select_layers (steps (fst (quad_run ps l))) st) st'.
Proof.
  induction ps as [|p ps IH]; intros l st Hall Hk Hmc Hp Hn Hm.
  - exists l, st. cbn. repeat split; try assumption. apply only_neo_refl.
  - inversion Hall as [|p0 ps0 Hc Hrest]; subst.
    destruct (held_iteration_layers p l st Hc Hp Hm ltac:(lia))
      as (l1 & st1 & E1 & K1 & P1 & S1 & V1 & M1 & N1 & O1).
    rewrite Hk, Hmc in M1, N1. cbn [andb orb] in M1, N1.
    destruct (Z.ltb_spec 200 (knob l)) as [F|_]; [lia|].
    destruct (quad_run_ext ps l1 (poll_quadrature p l) S1 V1) as (X1 & _ & _).
    assert (Hm1 : 0 < max_layer st1).
    { destruct (only_neo_layer _ _ O1) as (_ & ->).
      destruct (encoder_dir (poll_quadrature p l) =? 0); [exact Hm|].
      rewrite parse_layer_max_layer. lia. }
    destruct (IH l1 st1 Hrest K1 M1 P1 ltac:(lia) Hm1)
      as (l2 & st2 & E2 & K2 & M2 & O2).
    exists l2, st2. cbn [map run_loop quad_run fst]. rewrite E1.
    split; [exact E2|]. split; [exact K2|]. split; [exact M2|].
    rewrite steps_cons, <- X1.
    eapply only_neo_trans; [|exact O2].
    destruct (encoder_dir (poll_quadrature p l) =? 0);
      rewrite ?select_layers_cons; apply only_neo_select_layers; exact O1.
Qed.

(** With the switch held and a first direction step within [budget] polls,
    short of the idle timeout. *)
Lemma run_loop_held_first_step (ps : list Pins) :
  forall (budget : nat) (l : Locals) (st : Globals),
  Forall (fun p => held_mask p = 0) ps ->
  keyenc l && mode_changed l = false ->
  press l = 0 ->
  0 <= knob l ->
  knob l + Z.of_nat budget <= 201 ->
  0 < max_layer st ->
  stepped (firstn budget (fst (quad_run ps l))) = true ->
  exists l' st',
    run_loop (map press_switch ps) (l, st) = Running (l', st') /\
    keyenc l' = true /\ mode_changed l' = true /\
    only_neo (select_layers (steps (fst (quad_run ps l))) st) st'.
Proof.
  induction ps as [|p ps IH]; intros budget l st Hall Hmc Hp Hn Hb Hm Hs.
  - destruct budget; discriminate Hs.
  - destruct budget as [|b]; [discriminate Hs|].
    inversion Hall as [|p0 ps0 Hc Hrest]; subst.
    destruct (held_iteration_layers p l st Hc Hp Hm ltac:(lia))
      as (l1 & st1 & E1 & K1 & P1 & S1 & V1 & M1 & N1 & O1).
    rewrite Hmc in M1, N1. cbn [orb] in M1, N1.
    destruct (Z.ltb_spec 200 (knob l)) as [F|_]; [lia|].
    rewrite orb_false_r in M1, N1.
    destruct (quad_run_ext ps l1 (poll_quadrature p l) S1 V1) as (X1 & _ & _).
    cbn [quad_run fst firstn] in Hs. unfold stepped in Hs. cbn [existsb] in Hs.
    fold (stepped (firstn b (fst (quad_run ps (poll_quadrature p l))))) in Hs.
    cbn [map run_loop quad_run fst]. rewrite E1, steps_cons, <- X1.
    rewrite <- X1 in Hs.
    destruct (encoder_dir (poll_quadrature p l) =? 0) eqn:Ed;
      cbn [negb orb] in M1, N1, Hs.
    + destruct (IH b l1 st1 Hrest) as (l2 & st2 & E2 & K2 & M2 & O2);
        try assumption; try lia.
      { rewrite M1. apply andb_false_r. }
      { destruct (only_neo_layer _ _ O1) as (_ & ->). exact Hm. }
      exists l2, st2. split; [exact E2|]. split; [exact K2|]. split; [exact M2|].
      eapply only_neo_trans; [|exact O2].
      apply only_neo_select_layers. exact O1.
    + assert (Hm1 : 0 < max_layer st1).
      { destruct (only_neo_layer _ _ O1) as (_ & ->).
        rewrite parse_layer_max_layer. lia. }
      destruct (run_loop_held_after_change ps l1 st1 Hrest K1 M1 P1 ltac:(lia) Hm1)
        as (l2 & st2 & E2 & K2 & M2 & O2).
      exists l2, st2. split; [exact E2|]. split; [exact K2|]. split; [exact M2|].
      eapply only_neo_trans; [|exact O2].
      rewrite select_layers_cons. apply only_neo_select_layers. exact O1.
Qed.

Lemma stepped_firstn_steps (n : nat) (ds : list Z) :
  stepped (firstn n ds) = true -> steps ds <> [].
Proof.
  revert n. induction ds as [|d ds IH]; intros n H.
  - destruct n; discriminate H.
  - destruct n as [|n]; [discriminate H|].
    rewrite steps_cons. cbn [firstn] in H. unfold stepped in H. cbn [existsb] in H.
    destruct (d =? 0); [|discriminate].
    apply (IH n). exact H.
Qed.

(** X14: layer selection through the loop.  With at least one secondary
    layer, pressing the switch and turning the knob so that the first
    direction step arrives within the first 201 polls selects layers step
    by step, one [parse_layer] per step and nothing else: the idle timeout
    cannot fire once a step has been taken, nothing is dispatched, and the
    release that follows dispatches no [ENC_SW].  With exactly one
    secondary layer the result is layer 3 however the knob was turned. *)
Theorem held_rotation_selects_layers (ps : list Pins) (l : Locals) (st : Globals) :
  Forall (fun p => held_mask p = 0) ps ->
  keyenc l = false ->
  press l = 0 ->
  knob l = 0 ->
  0 < max_layer st ->
  stepped (firstn 201 (fst (quad_run ps l))) = true ->
  exists l' st',
    run_loop (map press_switch ps) (l, st) = Running (l', st') /\
    keyenc l' = true /\
    dispatched st' = dispatched st /\
    layer st' = layer (select_layers (steps (fst (quad_run ps l))) st) /\
    max_layer st' = Z.min (max_layer st) 3 /\
    (max_layer st = 1 -> layer st' = 3) /\
    (forall q, PIN_ENC_SW q = true -> snd (poll_encoder_switch q l' st') = st').
Proof.
  intros Hall Hk Hp Hn Hm Hs.
  destruct (run_loop_held_first_step ps 201 l st Hall)
    as (l1 & st1 & E1 & K1 & M1 & O1); try assumption; try lia.
  { rewrite Hk. reflexivity. }
  pose proof (stepped_firstn_steps _ _ Hs) as Hne.
  destruct (only_neo_layer _ _ O1) as (Ly & Ml).
  exists l1, st1. split; [exact E1|]. split; [exact K1|].
  split.
  { rewrite (only_neo_dispatched _ _ O1). apply select_layers_dispatched. }
  split; [exact Ly|].
  split.
  { rewrite Ml. apply select_layers_max_layer. exact Hne. }
  split.
  { intros H1. rewrite Ly.
    apply select_layers_one; [exact Hne | apply steps_nonzero | exact H1]. }
  intros q Hq. unfold poll_encoder_switch. rewrite Hq, K1.
  cbn [negb eqb keyenc set_keyenc mode_changed andb]. rewrite M1. reflexivity.
Qed.

Lemma held_rotation_selects_layers_witness :
  exists l' st',
    run_loop (map press_switch (detent_cw (0, 1, 0, 0)%nat))
      (locals0, with_max_layer 1 (startup erased)) = Running (l', st') /\
    keyenc l' = true /\
    dispatched st' = dispatched (with_max_layer 1 (startup erased)) /\
    layer st' =
      layer (select_layers
               (steps (fst (quad_run (detent_cw (0, 1, 0, 0)%nat) locals0)))
               (with_max_layer 1 (startup erased))) /\
    max_layer st' = Z.min (max_layer (with_max_layer 1 (startup erased))) 3 /\
    (max_layer (with_max_layer 1 (startup erased)) = 1 -> layer st' = 3) /\
    (forall q, PIN_ENC_SW q = true -> snd (poll_encoder_switch q l' st') = st').
Proof.
  assert (Hp : Forall (fun p => held_mask p = 0) (detent_cw (0, 1, 0, 0)%nat)).
  { repeat constructor. }
  assert (Hm : 0 < max_layer (with_max_layer 1 (startup erased))) by (simpl; lia).
  exact (held_rotation_selects_layers (detent_cw (0, 1, 0, 0)%nat) locals0
           (with_max_layer 1 (startup erased)) Hp eq_refl eq_refl eq_refl Hm eq_refl).
Defined.
